(** * ConflictZero: trajectory reconstruction, congestion and
      loss-of-separation detection

    A shallow embedding of [flight_loader.py], [flight_analysis.py] and
    [airspace_congestion.py].

    Numbers.  Python's [float] is embedded in exact arithmetic: values
    read from the input (route literals, speeds, the airport table) are
    rationals [Q]; everything computed through [math] lives in [R].
    Rounding, infinities and NaN are outside the model.  Python's [int]
    is [Z].

    Effects.  Exceptions are explicit ([result]); [dict]s keep their
    insertion order; [set]s are [gset]s.  Text is ASCII.  Progress
    messages are left out, and the minute that a conflict record renders
    with [strftime] is kept as the integer it renders. *)

From Stdlib Require Import Reals Lra Lia ZArith QArith Qreals.
From Stdlib Require Import Strings.String Strings.Ascii DecimalString.
From stdpp Require Import base option list sorting gmap sets strings.

#[local] Open Scope string_scope.
#[local] Open Scope list_scope.
#[local] Open Scope Z_scope.

(** ** The Python runtime the program relies on *)

Inductive exn : Set :=
  TypeError | ValueError | IndexError | KeyError | ZeroDivisionError.

Inductive result (A : Type) : Type :=
| Ok (a : A)
| Raise (e : exn).
Arguments Ok {A} a.
Arguments Raise {A} e.

#[global] Instance result_ret : MRet result := @Ok.
#[global] Instance result_bind : MBind result := fun A B k m =>
  match m with
  | Ok a => k a
  | Raise e => Raise e
  end.

Module Py.

(** [for x in xs: body], threading the loop state and stopping at the
    first exception. *)
Fixpoint for_each {A S} (body : A -> S -> result S) (xs : list A) (st : S)
  : result S :=
  match xs with
  | [] => Ok st
  | x :: xs' => st' ← body x st; for_each body xs' st'
  end.

(** [range(n)] *)
Definition range (n : Z) : list Z :=
  List.map Z.of_nat (seq 0 (Z.to_nat n)).

(** [int(x)] on a float: truncation toward zero. *)
Definition int (x : R) : Z :=
  if Rle_dec 0 x then Int_part x else (- Int_part (- x))%Z.

(** [round(x)] on a float: nearest integer, ties to the even one. *)
Definition round (x : R) : Z :=
  let f := Int_part x in
  let r := (x - IZR f)%R in
  if Rlt_dec r (1 / 2) then f
  else if Rlt_dec (1 / 2) r then (f + 1)%Z
  else if Z.even f then f else (f + 1)%Z.

(** [round(x, 2)] *)
Definition round2 (x : R) : R := (IZR (round (x * 100)) / 100)%R.

(** Truthiness of an [Optional[str]]: [None] and [""] are false. *)
Definition truthy_str (o : option string) : bool :=
  match o with Some EmptyString => false | Some _ => true | None => false end.

(** [sorted(l, key=...)]: a stable sort; [leb a b] compares the keys. *)
Section Sorted.
Context {A : Type} (leb : A -> A -> bool).

Fixpoint insert (x : A) (l : list A) : list A :=
  match l with
  | [] => [x]
  | y :: l' => if leb x y then x :: l else y :: insert x l'
  end.

Definition sorted (l : list A) : list A := foldr insert [] l.
End Sorted.

(** [str(n)] and [f"{n}"] on an int. *)
Definition str (n : Z) : string := NilZero.string_of_int (Z.to_int n).

End Py.

(** The functions of [math] that the program calls. *)
Module math.

Definition floor (x : R) : Z := Int_part x.

Definition radians (x : R) : R := (x * (PI / 180))%R.

(** A negative argument is a "math domain error". *)
Definition sqrt (x : R) : result R :=
  if Rlt_dec x 0 then Raise ValueError else Ok (R_sqrt.sqrt x).

(** An argument outside [-1, 1] is a "math domain error". *)
Definition asin (x : R) : result R :=
  if Rlt_dec x (-1) then Raise ValueError
  else if Rlt_dec 1 x then Raise ValueError
  else Ok (Ratan.asin x).

Definition atan2 (y x : R) : R :=
  if Rlt_dec 0 x then atan (y / x)
  else if Rlt_dec x 0 then
    (if Rle_dec 0 y then atan (y / x) + PI else atan (y / x) - PI)%R
  else if Rlt_dec 0 y then (PI / 2)%R
  else if Rlt_dec y 0 then (- (PI / 2))%R
  else 0%R.

End math.

(** Insertion-ordered dictionaries ([dict], [defaultdict]). *)
Module Dict.
Abbreviation t K V := (list (K * V)) (only parsing).

Section Dict.
Context {K V : Type} `{EqDecision K}.

Fixpoint get (k : K) (d : t K V) : option V :=
  match d with
  | [] => None
  | (k', v) :: d' => if decide (k = k') then Some v else get k d'
  end.

(** [d[k] = v]: an existing key keeps its position, a new one goes
    last. *)
Fixpoint set (k : K) (v : V) (d : t K V) : t K V :=
  match d with
  | [] => [(k, v)]
  | (k', v') :: d' =>
      if decide (k = k') then (k, v) :: d' else (k', v') :: set k v d'
  end.

Definition keys (d : t K V) : list K := List.map fst d.

(** [d[k]], raising [KeyError] *)
Definition item (k : K) (d : t K V) : result V :=
  match get k d with Some v => Ok v | None => Raise KeyError end.
End Dict.
End Dict.

(** The methods of [str] that the program calls, on ASCII text. *)
Module Str.

Definition is_space (c : ascii) : bool :=
  let n := nat_of_ascii c in
  ((9 <=? n) && (n <=? 13) || (28 <=? n) && (n <=? 32))%nat.

(** [s.split()]: the maximal runs of non-blank characters. *)
Fixpoint split_from (cur : string) (s : string) : list string :=
  match s with
  | EmptyString => match cur with EmptyString => [] | _ => [cur] end
  | String c s' =>
      if is_space c then
        match cur with
        | EmptyString => split_from EmptyString s'
        | _ => cur :: split_from EmptyString s'
        end
      else split_from (cur +:+ String c EmptyString) s'
  end.
Definition split (s : string) : list string := split_from EmptyString s.

(** [c in s] *)
Fixpoint contains (c : ascii) (s : string) : bool :=
  match s with
  | EmptyString => false
  | String c' s' => if Ascii.eqb c c' then true else contains c s'
  end.

(** [s.split(sep)] for a one-character separator. *)
Fixpoint split_on (sep : ascii) (s : string) : list string :=
  match s with
  | EmptyString => [EmptyString]
  | String c s' =>
      if Ascii.eqb c sep then EmptyString :: split_on sep s'
      else match split_on sep s' with
           | h :: tl => String c h :: tl
           | [] => [String c EmptyString]
           end
  end.

(** [s.split(sep, 1)] *)
Fixpoint split_once (sep : ascii) (s : string) : list string :=
  match s with
  | EmptyString => [EmptyString]
  | String c s' =>
      if Ascii.eqb c sep then [EmptyString; s']
      else match split_once sep s' with
           | h :: tl => String c h :: tl
           | [] => [String c EmptyString]
           end
  end.

(** [s[:-1]] *)
Fixpoint drop_last (s : string) : string :=
  match s with
  | EmptyString => EmptyString
  | String c EmptyString => EmptyString
  | String c s' => String c (drop_last s')
  end.

(** [s[-1]], raising [IndexError] on the empty string. *)
Fixpoint last (s : string) : result ascii :=
  match s with
  | EmptyString => Raise IndexError
  | String c EmptyString => Ok c
  | String c s' => last s'
  end.

(** [c.upper()] for one ASCII character. *)
Definition upper (c : ascii) : ascii :=
  let n := nat_of_ascii c in
  if ((97 <=? n) && (n <=? 122))%nat then ascii_of_nat (n - 32) else c.

Definition digit (c : ascii) : option Z :=
  let n := Z.of_nat (nat_of_ascii c) in
  if (48 <=? n) && (n <=? 57) then Some (n - 48) else None.

(** Reads a run of decimal digits: its value after [acc], its length
    and the rest of the text. *)
Fixpoint read_digits (s : string) (acc : Z) (len : nat) : Z * nat * string :=
  match s with
  | EmptyString => (acc, len, EmptyString)
  | String c s' =>
      match digit c with
      | Some d => read_digits s' (10 * acc + d) (S len)
      | None => (acc, len, s)
      end
  end.

(** [float(s)] on plain decimal literals, [[+-]digits[.digits]] with at
    least one digit; everything else is a [ValueError].  Python's
    [float] also reads exponents, digit separators, [inf] and [nan];
    those spellings are outside the model. *)
Definition float (s : string) : result Q :=
  let '(negative, body) :=
    match s with
    | String "-"%char r => (true, r)
    | String "+"%char r => (false, r)
    | _ => (false, s)
    end in
  let '(ip, n1, rest) := read_digits body 0 0 in
  let signed (q : Q) := Ok (Qred (if negative then Qopp q else q)) in
  match rest with
  | EmptyString =>
      match n1 with O => Raise ValueError | _ => signed (inject_Z ip) end
  | String "."%char frac =>
      let '(v, n2, rest') := read_digits frac ip 0 in
      match rest' with
      | EmptyString =>
          match (n1 + n2)%nat with
          | O => Raise ValueError
          | _ => signed (Qmake v (Z.to_pos (10 ^ Z.of_nat n2)))
          end
      | _ => Raise ValueError
      end
  | _ => Raise ValueError
  end.

(** [s.strip()] *)
Fixpoint lstrip (s : string) : string :=
  match s with
  | EmptyString => EmptyString
  | String c s' => if is_space c then lstrip s' else s
  end.

Fixpoint rstrip (s : string) : string :=
  match s with
  | EmptyString => EmptyString
  | String c s' =>
      match rstrip s' with
      | EmptyString => if is_space c then EmptyString else String c EmptyString
      | r => String c r
      end
  end.

Definition strip (s : string) : string := rstrip (lstrip s).

(** Reads [digit (["_"] digit)*] up to the end of the text. *)
Fixpoint read_int (s : string) (acc : Z) (after_digit : bool) : option Z :=
  match s with
  | EmptyString => if after_digit then Some acc else None
  | String c s' =>
      match digit c with
      | Some d => read_int s' (10 * acc + d) true
      | None =>
          if Ascii.eqb c "_" && after_digit then read_int s' acc false
          else None
      end
  end.

(** [int(s)]: blanks around, a sign, decimal digits with single
    underscores between them; everything else is a [ValueError].  The
    limit that Python puts on the number of digits is left out. *)
Definition int (s : string) : result Z :=
  let s := strip s in
  let '(negative, body) :=
    match s with
    | String "-"%char r => (true, r)
    | String "+"%char r => (false, r)
    | _ => (false, s)
    end in
  match read_int body 0 false with
  | Some n => Ok (if negative then - n else n)
  | None => Raise ValueError
  end.

End Str.

(** [datetime.fromtimestamp(t, tz=timezone.utc).strftime("%H:%M")] *)
Module datetime.

(** The first second of year 1 and the last one of year 9999. *)
Definition MIN_TIMESTAMP : Z := -62135596800.
Definition MAX_TIMESTAMP : Z := 253402300799.

Definition two_digits (n : Z) : string :=
  if n <? 10 then "0" +:+ Py.str n else Py.str n.

(** The time of day of a POSIX timestamp, in UTC.  A timestamp outside
    the years 1 to 9999 has no [datetime]: [fromtimestamp] raises
    ([ValueError] or [OverflowError], by its size), which is [None]
    here. *)
Definition hh_mm (t : Z) : option string :=
  if (MIN_TIMESTAMP <=? t) && (t <=? MAX_TIMESTAMP) then
    Some (two_digits (t mod 86400 / 3600) +:+ ":"
          +:+ two_digits (t mod 3600 / 60))
  else None.

End datetime.

(** ** flight_loader.py *)

(** The [Flight] dataclass.  The fields that [flight_analysis] tests
    against [None] are options. *)
Record Flight : Type := mkFlight {
  acid : string;
  plane_type : option string;
  route : option string;
  altitude : option Z;
  departure_airport : option string;
  arrival_airport : option string;
  departure_time : option Z;
  aircraft_speed : option Q;
  passengers : Z;
  is_cargo : bool
}.

(** A (latitude, longitude) tuple of floats, as read and as computed. *)
Definition waypoint : Type := Q * Q.
Definition coord : Type := R * R.
Definition to_coord (w : waypoint) : coord := (Q2R w.1, Q2R w.2).

(** The consecutive pairs [(path[i], path[i+1])] for
    [i in range(len(path) - 1)]. *)
Fixpoint segments {A : Type} (path : list A) : list (A * A) :=
  match path with
  | p1 :: (p2 :: _) as rest => (p1, p2) :: segments rest
  | _ => []
  end.

(** [flight_loader] itself: the records as [json.load] returns them and
    their conversion.  The dataclass does not check its field types, so
    the five text fields of a loaded flight hold whatever value the JSON
    record holds; [Flight] above is the flight that the two analysis
    modules read, with text in its text fields. *)
Module FlightLoader.

(** The values that [json.load] returns.  A float is the decimal it is
    written as; [NaN] and [Infinity] are outside the model. *)
#[warnings="-register-all"]
Inductive json : Type :=
| JNull
| JBool (b : bool)
| JInt (n : Z)
| JFloat (x : Q)
| JStr (s : string)
| JList (items : list json)
| JDict (members : Dict.t string json).

(** [bool(x)], the truth value that [not x] and [if x] test. *)
Definition bool (x : json) : Datatypes.bool :=
  match x with
  | JNull => false
  | JBool b => b
  | JInt n => negb (n =? 0)
  | JFloat x => negb (Qeq_bool x 0)
  | JStr s => negb (String.eqb s EmptyString)
  | JList items => match items with [] => false | _ => true end
  | JDict members => match members with [] => false | _ => true end
  end.

(** [int(x)]: a float is truncated toward zero. *)
Definition int (x : json) : result Z :=
  match x with
  | JNull => Raise TypeError
  | JBool b => Ok (if b then 1 else 0)
  | JInt n => Ok n
  | JFloat x => Ok (Z.quot (Qnum x) (Z.pos (Qden x)))
  | JStr s => Str.int s
  | JList _ | JDict _ => Raise TypeError
  end.

(** [float(x)]; an int converts exactly. *)
Definition float (x : json) : result Q :=
  match x with
  | JNull => Raise TypeError
  | JBool b => Ok (if b then 1%Q else 0%Q)
  | JInt n => Ok (inject_Z n)
  | JFloat x => Ok x
  | JStr s => Str.float (Str.strip s)
  | JList _ | JDict _ => Raise TypeError
  end.

(** [data.get(key, default)] *)
Definition get (key : string) (default : json) (data : Dict.t string json)
  : json :=
  match Dict.get key data with
  | Some value => value
  | None => default
  end.

Record Flight : Type := cls {
  acid : json;
  plane_type : json;
  route : json;
  altitude : Z;
  departure_airport : json;
  arrival_airport : json;
  departure_time : Z;
  aircraft_speed : Q;
  passengers : Z;
  is_cargo : Datatypes.bool
}.

(** What leaves a function of the module by an exception: one of the
    builtin ones, or the [AttributeError] of [data.get] on a value that
    is not a dict. *)
Inductive error : Set :=
| Builtin (e : exn)
| AttributeError.

(** The body of the [try] in [from_dict], on a dict. *)
Definition convert (data : Dict.t string json) : result (option Flight) :=
  if negb (bool (get "ACID" JNull data)) then Ok None
  else
    altitude ← int (get "altitude" (JInt 0) data);
    departure_time ← int (get "departure time" (JInt 0) data);
    aircraft_speed ← float (get "aircraft speed" (JFloat 0%Q) data);
    passengers ← int (get "passengers" (JInt 0) data);
    Ok (Some
          {| acid := get "ACID" (JStr "Unknown") data;
             plane_type := get "Plane type" (JStr "Unknown") data;
             route := get "route" (JStr "") data;
             altitude := altitude;
             departure_airport := get "departure airport" (JStr "Unknown") data;
             arrival_airport := get "arrival airport" (JStr "Unknown") data;
             departure_time := departure_time;
             aircraft_speed := aircraft_speed;
             passengers := passengers;
             is_cargo := bool (get "is_cargo" (JBool false) data) |}).

(** [Flight.from_dict]: [except (ValueError, TypeError): return None]. *)
Definition from_dict (data : json) : error + option Flight :=
  match data with
  | JDict members =>
      match convert members with
      | Ok flight => inr flight
      | Raise ValueError | Raise TypeError => inr None
      | Raise e => inl (Builtin e)
      end
  | _ => inl AttributeError
  end.




End FlightLoader.

(** ** flight_analysis.py *)

Module FlightAnalysis.

Definition AIRPORT_LOCATIONS : Dict.t string waypoint :=
  [ ("CYYZ", (43.68, -79.63)%Q);
    ("CYVR", (49.19, -123.18)%Q);
    ("CYUL", (45.47, -73.74)%Q);
    ("CYYC", (51.11, -114.02)%Q);
    ("CYOW", (45.32, -75.67)%Q);
    ("CYWG", (49.91, -97.24)%Q);
    ("CYHZ", (44.88, -63.51)%Q);
    ("CYEG", (53.31, -113.58)%Q);
    ("CYQB", (46.79, -71.39)%Q);
    ("CYYJ", (48.65, -123.43)%Q);
    ("CYYT", (47.62, -52.75)%Q);
    ("CYXE", (52.17, -106.70)%Q) ].

Definition AIRCRAFT_CATEGORIES : Dict.t string (list string) :=
  [ ("Wide-body", ["Boeing 787-9"; "Boeing 777-300ER"; "Airbus A330"]);
    ("Narrow-body", ["Boeing 737-800"; "Boeing 737 MAX 8"; "Airbus A320";
                     "Airbus A321"; "Airbus A220-300"]);
    ("Regional", ["Dash 8-400"; "Embraer E195-E2"]);
    ("Cargo", ["Boeing 767-300F"; "Boeing 757-200F"; "Airbus A300-600F"]) ].

(** (min, max) in feet *)
Definition ALTITUDE_RANGES : Dict.t string (Z * Z) :=
  [ ("Regional", (22000, 28000));
    ("Narrow-body", (28000, 39000));
    ("Wide-body", (31000, 43000));
    ("Cargo", (28000, 41000)) ].

(** (min, max) in knots *)
Definition SPEED_CONSTRAINTS : Dict.t string (Z * Z) :=
  [ ("Dash 8-400", (310, 410));
    ("Embraer E195-E2", (370, 500));
    ("Airbus A220-300", (370, 500));
    ("Narrow-body", (415, 505));
    ("Wide-body", (430, 505));
    ("Cargo", (410, 505)) ].

(** The first category, in the order of the table, that lists the plane
    type. *)
Definition get_aircraft_category (plane_type : option string) : string :=
  match plane_type with
  | None => "Unknown"
  | Some plane_type =>
      match
        List.find (fun '(category, types) => bool_decide (plane_type ∈ types))
                  AIRCRAFT_CATEGORIES
      with
      | Some (category, _) => category
      | None => "Unknown"
      end
  end.

(** The text of an issue, kept as the values that its f-string puts
    together. *)
Inductive issue_text : Type :=
| Missing_plane_type
| Altitude_out_of_range (altitude min_alt max_alt : Z) (category : string)
| Speed_out_of_range (aircraft_speed : Q) (min_spd max_spd : Z)
                     (plane_type : string).

Record Issue : Type := mkIssue {
  flight : string;
  issue : issue_text
}.

Definition validate_flight (flight : Flight) : list Issue :=
  match plane_type flight with
  | None => [ {| flight := acid flight; issue := Missing_plane_type |} ]
  | Some plane_type =>
      let category := get_aircraft_category (Some plane_type) in
      let issues := [] in
      let issues :=
        match altitude flight, Dict.get category ALTITUDE_RANGES with
        | Some altitude, Some (min_alt, max_alt) =>
            if negb ((min_alt <=? altitude) && (altitude <=? max_alt)) then
              issues ++ [ {| flight := acid flight;
                             issue := Altitude_out_of_range
                                        altitude min_alt max_alt category |} ]
            else issues
        | _, _ => issues
        end in
      let issues :=
        match aircraft_speed flight with
        | Some aircraft_speed =>
            let speed_range :=
              match Dict.get plane_type SPEED_CONSTRAINTS with
              | Some range => Some range
              | None => Dict.get category SPEED_CONSTRAINTS
              end in
            match speed_range with
            | Some (min_spd, max_spd) =>
                if negb (Qle_bool (inject_Z min_spd) aircraft_speed
                         && Qle_bool aircraft_speed (inject_Z max_spd)) then
                  issues ++ [ {| flight := acid flight;
                                 issue := Speed_out_of_range
                                            aircraft_speed min_spd max_spd
                                            plane_type |} ]
                else issues
            | None => issues
            end
        | None => issues
        end in
      issues
  end.

(** The nested [parse_coord]: one helper for both halves of a token. *)
Definition parse_coord (c_str : string) : result Q :=
  val ← Str.float (Str.drop_last c_str);
  suffix ← Str.last c_str;
  let u := Str.upper suffix in
  if (Ascii.eqb u "S" || Ascii.eqb u "W")%bool
  then Ok (Qopp val) else Ok val.

(** The body of the [try]: [None] is the [continue] of a token without
    a slash. *)
Definition parse_part (part : string) : result (option waypoint) :=
  if negb (Str.contains "/" part) then Ok None
  else
    match Str.split_on "/" part with
    | [lat_str; lon_str] =>
        lat ← parse_coord lat_str;
        lon ← parse_coord lon_str;
        Ok (Some (lat, lon))
    | _ => Raise ValueError
    end.

(** [except (ValueError, IndexError): continue]; the body raises
    nothing else. *)
Definition parse_route (route_str : option string) : list waypoint :=
  if negb (Py.truthy_str route_str) then []
  else
    let parts := Str.split (default EmptyString route_str) in
    fold_left
      (fun coordinates part =>
         match parse_part part with
         | Ok (Some c) => coordinates ++ [c]
         | Ok None => coordinates
         | Raise ValueError | Raise IndexError => coordinates
         | Raise _ => coordinates
         end)
      parts [].

Definition airport (code : option string) : list waypoint :=
  match code with
  | Some c =>
      if Py.truthy_str code then
        match Dict.get c AIRPORT_LOCATIONS with
        | Some loc => [loc]
        | None => []
        end
      else []
  | None => []
  end.

Definition get_full_flight_path (flight : Flight) : list waypoint :=
  airport (departure_airport flight)
    ++ parse_route (route flight)
    ++ airport (arrival_airport flight).

(** The intermediate value [a] of the haversine formula. *)
Definition haversine_a (coord1 coord2 : coord) : R :=
  let '(lat1, lon1) := coord1 in
  let '(lat2, lon2) := coord2 in
  let phi1 := math.radians lat1 in
  let phi2 := math.radians lat2 in
  let delta_phi := math.radians (lat2 - lat1) in
  let delta_lambda := math.radians (lon2 - lon1) in
  (sin (delta_phi / 2) ^ 2
   + cos phi1 * cos phi2 * sin (delta_lambda / 2) ^ 2)%R.

(** From [a] to the distance: [R * 2 * atan2(sqrt(a), sqrt(1 - a))]. *)
Definition km_of_a (a : R) : result R :=
  s1 ← math.sqrt a;
  s2 ← math.sqrt (1 - a);
  let c := (2 * math.atan2 s1 s2)%R in
  Ok (6371 * c)%R.

Definition haversine_distance_km (coord1 coord2 : coord) : result R :=
  km_of_a (haversine_a coord1 coord2).

Definition horizontal_distance_nm (coord1 coord2 : coord) : result R :=
  km ← haversine_distance_km coord1 coord2;
  Ok (km / 1.852)%R.

Definition interpolate_position (start end_ : coord) (fraction : R) : coord :=
  let '(lat1, lon1) := start in
  let '(lat2, lon2) := end_ in
  (lat1 + (lat2 - lat1) * fraction, lon1 + (lon2 - lon1) * fraction)%R.

Definition trajectory : Type := Dict.t Z coord.

(** One turn of [for s in range(steps + 1)]. *)
Definition sample (p1 p2 : coord) (duration_sec current_time : R)
    (time_step_sec : Z) (traj : trajectory) (s : Z) : trajectory :=
  let fraction := (IZR (s * time_step_sec) / duration_sec)%R in
  let fraction := if Rlt_dec 1 fraction then 1%R else fraction in
  let pos := interpolate_position p1 p2 fraction in
  let t_stamp := Py.int (current_time + IZR (s * time_step_sec)) in
  let t_minute := (t_stamp / 60) * 60 in
  Dict.set t_minute pos traj.

(** One turn of [for i in range(len(path) - 1)]; the state is the
    trajectory built so far and [current_time]. *)
Definition segment (speed_nm_per_sec : R) (time_step_sec : Z)
    (seg : coord * coord) (st : trajectory * R) : result (trajectory * R) :=
  let '(p1, p2) := seg in
  let '(traj, current_time) := st in
  dist_nm ← horizontal_distance_nm p1 p2;
  if Req_dec_T dist_nm 0 then Ok st
  else
    let duration_sec := (dist_nm / speed_nm_per_sec)%R in
    if time_step_sec =? 0 then Raise ZeroDivisionError
    else
      let steps := Py.int (duration_sec / IZR time_step_sec) in
      let traj :=
        fold_left (sample p1 p2 duration_sec current_time time_step_sec)
                  (Py.range (steps + 1)) traj in
      Ok (traj, (current_time + duration_sec)%R).

(** The guard [not departure_time or not aircraft_speed or
    aircraft_speed <= 0] holds for [None], for [0] and [0.0], and for a
    negative speed. *)
Definition generate_4d_trajectory (flight : Flight) (path : list coord)
    (time_step_sec : Z) : result trajectory :=
  match departure_time flight, aircraft_speed flight with
  | Some dep, Some speed =>
      if (dep =? 0) || Qeq_bool speed 0 || Qle_bool speed 0 then Ok []
      else
        let current_time := IZR dep in
        let speed_nm_per_sec := (Q2R speed / 3600)%R in
        match path with
        | [] => Ok []
        | _ =>
            st ← Py.for_each (segment speed_nm_per_sec time_step_sec)
                             (segments path) ([], current_time);
            Ok st.1
        end
  | _, _ => Ok []
  end.

Record ConflictRecord : Type := mkConflict {
  flight1 : string;
  flight2 : string;
  horizontal_nm : R;
  vertical_ft : Z;
  reason : string;
(** the minute [t] of the first detection; the source renders it with
    [strftime] *)
start_time_overlap : Z
}.

Definition HORIZ_SEP_NM : R := 5.0%R.
Definition VERT_SEP_FT : Z := 2000.

(** [tuple(sorted((acid1, acid2)))] *)
Definition pair_key (acid1 acid2 : string) : string * string :=
  if String.ltb acid2 acid1 then (acid2, acid1) else (acid1, acid2).

(** Step 1: [flight_trajectories] and [flight_objects]. *)
Definition preprocess (f : Flight)
    (st : Dict.t string trajectory * Dict.t string Flight)
  : result (Dict.t string trajectory * Dict.t string Flight) :=
  let '(flight_trajectories, flight_objects) := st in
  let flight_objects := Dict.set (acid f) f flight_objects in
  let path := get_full_flight_path f in
  match path with
  | [] => Ok (flight_trajectories, flight_objects)
  | _ =>
      traj ← generate_4d_trajectory f (to_coord <$> path) 60;
      match traj with
      | [] => Ok (flight_trajectories, flight_objects)
      | _ => Ok (Dict.set (acid f) traj flight_trajectories, flight_objects)
      end
  end.

(** The inverted map, time -> list of (ACID, position). *)
Definition index_position (acid : string)
    (position_by_time : Dict.t Z (list (string * coord)))
    (entry : Z * coord) : Dict.t Z (list (string * coord)) :=
  let '(t, pos) := entry in
  let present := default [] (Dict.get t position_by_time) in
  Dict.set t (present ++ [(acid, pos)]) position_by_time.

Definition invert (flight_trajectories : Dict.t string trajectory)
  : Dict.t Z (list (string * coord)) :=
  fold_left
    (fun position_by_time '(acid, traj) =>
       fold_left (index_position acid) traj position_by_time)
    flight_trajectories [].

(** The detector's running state: [conflicts] and [active_conflicts]. *)
Definition detection : Type := list ConflictRecord * gset (string * string).

(** The body of the inner loop: the pair of [flight1] at [pos1] with
    the aircraft [a2], at minute [t]. *)
Definition check_pair (flight_objects : Dict.t string Flight) (t : Z)
    (acid1 : string) (pos1 : coord) (flight1 : Flight)
    (a2 : string * coord) (st : detection) : result detection :=
  let '(acid2, pos2) := a2 in
  let '(conflicts, active_conflicts) := st in
  flight2 ← Dict.item acid2 flight_objects;
  let vertically_separated :=
    match altitude flight1, altitude flight2 with
    | Some alt1, Some alt2 => VERT_SEP_FT <=? Z.abs (alt1 - alt2)
    | _, _ => false
    end in
  if vertically_separated then Ok st
  else
    dist_nm ← horizontal_distance_nm pos1 pos2;
    if Rlt_dec dist_nm HORIZ_SEP_NM then
      let key := pair_key acid1 acid2 in
      if decide (key ∈ active_conflicts) then Ok st
      else
        match altitude flight1, altitude flight2 with
        | Some alt1, Some alt2 =>
            Ok (conflicts ++
                  [ {| flight1 := acid1;
                       flight2 := acid2;
                       horizontal_nm := Py.round2 dist_nm;
                       vertical_ft := Z.abs (alt1 - alt2);
                       reason := "Loss-of-separation detected";
                       start_time_overlap := t |} ],
                {[ key ]} ∪ active_conflicts)
        | _, _ => Raise TypeError
        end
    else Ok st.

(** [for i in range(len(l)): ... for j in range(i + 1, len(l)): ...] *)
Fixpoint check_pairs (flight_objects : Dict.t string Flight) (t : Z)
    (aircraft_at_t : list (string * coord)) (st : detection)
  : result detection :=
  match aircraft_at_t with
  | [] => Ok st
  | (acid1, pos1) :: rest =>
      flight1 ← Dict.item acid1 flight_objects;
      st' ← Py.for_each (check_pair flight_objects t acid1 pos1 flight1)
                        rest st;
      check_pairs flight_objects t rest st'
  end.

Definition check_minute (flight_objects : Dict.t string Flight)
    (position_by_time : Dict.t Z (list (string * coord)))
    (t : Z) (st : detection) : result detection :=
  aircraft_at_t ← Dict.item t position_by_time;
  check_pairs flight_objects t aircraft_at_t st.

(** [sorted_flights] only feeds a progress message and is left out. *)
Definition detect_loss_of_separation (flights : list Flight)
  : result (list ConflictRecord) :=
  '(flight_trajectories, flight_objects) ←
    Py.for_each preprocess flights ([], []);
  let position_by_time := invert flight_trajectories in
  let sorted_times := Py.sorted Z.leb (Dict.keys position_by_time) in
  st ← Py.for_each (check_minute flight_objects position_by_time)
                   sorted_times ([], ∅);
  Ok st.1.

End FlightAnalysis.

(** ** airspace_congestion.py *)

Module AirspaceCongestion.

Record PositionSample : Type := mkSample {
  timestamp : Z;
  latitude : R;
  longitude : R;
  sample_acid : string
}.

(** The body of the [try] for one token that contains a slash. *)
Definition parse_part (part : string) : result waypoint :=
  match Str.split_once "/" part with
  | [lat_str; lon_str] =>
      lat_val ← Str.float (Str.drop_last lat_str);
      lat_suffix ← Str.last lat_str;
      let lat_val :=
        if Ascii.eqb (Str.upper lat_suffix) "S" then Qopp lat_val
        else lat_val in
      lon_val ← Str.float (Str.drop_last lon_str);
      lon_suffix ← Str.last lon_str;
      let lon_val :=
        if Ascii.eqb (Str.upper lon_suffix) "W" then Qopp lon_val
        else lon_val in
      Ok (lat_val, lon_val)
  | _ => Raise ValueError
  end.

(** A route of blanks only has no parts, which is the early return of
    [not route_str.strip()]; the [except] clause is the one of
    [flight_analysis]. *)
Definition parse_route (route_str : option string) : list waypoint :=
  if negb (Py.truthy_str route_str) then []
  else
    let parts := Str.split (default EmptyString route_str) in
    fold_left
      (fun waypoints part =>
         if negb (Str.contains "/" part) then waypoints
         else
           match parse_part part with
           | Ok w => waypoints ++ [w]
           | Raise ValueError | Raise IndexError => waypoints
           | Raise _ => waypoints
           end)
      parts [].

(** The intermediate value [a] of the haversine formula. *)
Definition haversine_a (lat1 lon1 lat2 lon2 : R) : R :=
  let lat1_rad := math.radians lat1 in
  let lon1_rad := math.radians lon1 in
  let lat2_rad := math.radians lat2 in
  let lon2_rad := math.radians lon2 in
  let dlat := (lat2_rad - lat1_rad)%R in
  let dlon := (lon2_rad - lon1_rad)%R in
  (sin (dlat / 2) ^ 2
   + cos lat1_rad * cos lat2_rad * sin (dlon / 2) ^ 2)%R.

(** From [a] to the distance: [R * 2 * asin(sqrt(a))]. *)
Definition nm_of_a (a : R) : result R :=
  s ← math.sqrt a;
  h ← math.asin s;
  let c := (2 * h)%R in
  Ok (3440.065 * c)%R.

Definition haversine_distance (lat1 lon1 lat2 lon2 : R) : result R :=
  nm_of_a (haversine_a lat1 lon1 lat2 lon2).

(** One turn of [for j in range(num_samples + 1)]. *)
Definition sample (flight : Flight) (lat1 lon1 lat2 lon2 : R)
    (time_for_segment : R) (num_samples current_time : Z)
    (samples : list PositionSample) (j : Z) : list PositionSample :=
  let t := if 0 <? num_samples then (IZR j / IZR num_samples)%R else 0%R in
  let t := Rmin t 1 in
  let lat := (lat1 + t * (lat2 - lat1))%R in
  let lon := (lon1 + t * (lon2 - lon1))%R in
  let sample_time := current_time + Py.int (t * time_for_segment) in
  samples ++ [ {| timestamp := sample_time;
                  latitude := lat;
                  longitude := lon;
                  sample_acid := acid flight |} ].

(** One turn of [for i in range(len(waypoints) - 1)]; the state is
    [samples] and [current_time], which is [None] when the flight has no
    departure time: the first addition to it raises. *)
Definition segment (flight : Flight) (speed_knots : R)
    (seg : coord * coord) (st : list PositionSample * option Z)
  : result (list PositionSample * option Z) :=
  let '((lat1, lon1), (lat2, lon2)) := seg in
  let '(samples, current_time) := st in
  distance_nm ← haversine_distance lat1 lon1 lat2 lon2;
  let time_for_segment := (distance_nm / speed_knots * 3600)%R in
  if Rle_dec time_for_segment 0 then Ok st
  else
    let num_samples := Z.max 1 (Py.int (time_for_segment / 90)) in
    match current_time with
    | None => Raise TypeError
    | Some now =>
        let samples :=
          fold_left
            (sample flight lat1 lon1 lat2 lon2 time_for_segment
                    num_samples now)
            (Py.range (num_samples + 1)) samples in
        Ok (samples, Some (now + Py.int time_for_segment))
    end.

Definition estimate_trajectory (flight : Flight)
  : result (list PositionSample) :=
  let waypoints := parse_route (route flight) in
  if (length waypoints <? 2)%nat then Ok []
  else
    match aircraft_speed flight with
    | None => Raise TypeError
    | Some speed_knots =>
        if Qle_bool speed_knots 0 then Ok []
        else
          st ← Py.for_each (segment flight (Q2R speed_knots))
                           (segments (to_coord <$> waypoints))
                           ([], departure_time flight);
          Ok st.1
    end.

Definition get_sector (lat lon : R) : Z * Z :=
  (math.floor lat, math.floor lon).

Definition get_time_window (timestamp : Z) : Z :=
  (timestamp / 900) * 900.

(** The keys of [sector_window_flights]:
    [(sector_lat, sector_lon, window_start)]. *)
Definition bucket : Type := Z * Z * Z.

Definition sample_bucket (s : PositionSample) : bucket :=
  let '(sector_lat, sector_lon) := get_sector (latitude s) (longitude s) in
  (sector_lat, sector_lon, get_time_window (timestamp s)).

Record Hotspot : Type := mkHotspot {
  sector_lat : Z;
  sector_lon : Z;
  window_start : Z;
  flight_count : Z;
  flights : gset string
}.

(** [sector_window_flights[key].add(flight.acid)] on a
    [defaultdict(set)]. *)
Definition observe (flight : Flight)
    (sector_window_flights : Dict.t bucket (gset string))
    (s : PositionSample) : Dict.t bucket (gset string) :=
  let key := sample_bucket s in
  let present := default ∅ (Dict.get key sector_window_flights) in
  Dict.set key ({[ acid flight ]} ∪ present) sector_window_flights.

Definition process (flight : Flight)
    (sector_window_flights : Dict.t bucket (gset string))
  : result (Dict.t bucket (gset string)) :=
  samples ← estimate_trajectory flight;
  Ok (fold_left (observe flight) samples sector_window_flights).

Definition find_hotspots
    (sector_window_flights : Dict.t bucket (gset string)) : list Hotspot :=
  fold_left
    (fun hotspots '((sector_lat, sector_lon, window_start), flight_set) =>
       let flight_count := Z.of_nat (size flight_set) in
       if 5 <? flight_count then
         hotspots ++ [ {| sector_lat := sector_lat;
                          sector_lon := sector_lon;
                          window_start := window_start;
                          flight_count := flight_count;
                          flights := flight_set |} ]
       else hotspots)
    sector_window_flights [].

(** The sort key [(window_start, sector_lat, sector_lon)]. *)
Definition sort_key (h : Hotspot) : Z * Z * Z :=
  (window_start h, sector_lat h, sector_lon h).

(** Tuple comparison [k1 <= k2]. *)
Definition key_leb (k1 k2 : Z * Z * Z) : bool :=
  let '(a1, b1, c1) := k1 in
  let '(a2, b2, c2) := k2 in
  (a1 <? a2) || (a1 =? a2) && ((b1 <? b2) || (b1 =? b2) && (c1 <=? c2)).

Definition detect_congestion (flights : list Flight)
  : result (list Hotspot) :=
  sector_window_flights ← Py.for_each process flights [];
  let hotspots := find_hotspots sector_window_flights in
  Ok (Py.sorted (fun x y => key_leb (sort_key x) (sort_key y)) hotspots).

(** A line feed. *)
Definition nl : string := String (ascii_of_nat 10) EmptyString.

Definition lat_bound (sector_lat : Z) : string :=
  if 0 <=? sector_lat then
    Py.str sector_lat +:+ "–" +:+ Py.str (sector_lat + 1) +:+ "N"
  else
    Py.str (Z.abs (sector_lat + 1)) +:+ "–" +:+ Py.str (Z.abs sector_lat) +:+ "S".

Definition lon_bound (sector_lon : Z) : string :=
  if sector_lon <? 0 then
    Py.str (Z.abs sector_lon) +:+ "–" +:+ Py.str (Z.abs (sector_lon + 1)) +:+ "W"
  else
    Py.str sector_lon +:+ "–" +:+ Py.str (sector_lon + 1) +:+ "E".

Definition risk (flight_count : Z) : string :=
  if 10 <? flight_count then "Critical: Severe controller overload"
  else if 7 <? flight_count then "High: Controller workload saturation"
  else "Moderate: Controller workload saturation".

(** The text is the UTF-8 encoding of the one that the source builds;
    [None] is the exception of [datetime.fromtimestamp]. *)
Definition format_hotspot_output (hotspot : Hotspot) : option string :=
  let sector_lat := sector_lat hotspot in
  let sector_lon := sector_lon hotspot in
  let window_start := window_start hotspot in
  let flight_count := flight_count hotspot in
  let lat_bound := lat_bound sector_lat in
  let lon_bound := lon_bound sector_lon in
  start_dt ← datetime.hh_mm window_start;
  end_dt ← datetime.hh_mm (window_start + 900);
  let time_str := start_dt +:+ "–" +:+ end_dt +:+ " UTC" in
  let risk := risk flight_count in
  Some ("🔥 Airspace congestion detected" +:+ nl
        +:+ "Sector (" +:+ lat_bound +:+ ", " +:+ lon_bound +:+ ")" +:+ nl
        +:+ "Time window: " +:+ time_str +:+ nl
        +:+ "Flights: " +:+ Py.str flight_count +:+ nl
        +:+ "Risk: " +:+ risk).

(** One turn of [for acid in flight_acids]; the state is
    [cargo_flights] and [passenger_flights]. *)
Definition classify (flight_lookup : Dict.t string Flight)
    (st : list Flight * list Flight) (acid : string)
  : list Flight * list Flight :=
  let '(cargo_flights, passenger_flights) := st in
  match Dict.get acid flight_lookup with
  | None => st
  | Some flight =>
      if is_cargo flight then (cargo_flights ++ [flight], passenger_flights)
      else (cargo_flights, passenger_flights ++ [flight])
  end.

(** [hotspot.get('flights', set())] is a [set], whose iteration order
    Python leaves open, and the function reads nothing else of the
    hotspot: it is embedded over [flight_acids], the elements of that
    set in the order in which the loop meets them.
    [sort(key=lambda f: f.passengers, reverse=True)] is a stable sort. *)
Definition suggest_prioritization (flight_acids : list string)
    (flight_lookup : Dict.t string Flight) : string :=
  let '(cargo_flights, passenger_flights) :=
    fold_left (classify flight_lookup) flight_acids ([], []) in
  match cargo_flights with
  | [] =>
      "💡 Optimization suggestion" +:+ nl
      +:+ "Only passenger flights involved. Consider minor delays for lower-priority routes."
  | cargo_to_delay :: _ =>
      match
        Py.sorted (fun f g => passengers g <=? passengers f) passenger_flights
      with
      | top_passenger_flight :: _ =>
          let passenger_count := passengers top_passenger_flight in
          "💡 Optimization suggestion" +:+ nl
          +:+ "Delay cargo flight " +:+ acid cargo_to_delay
          +:+ " instead of passenger flight " +:+ acid top_passenger_flight
          +:+ " (" +:+ Py.str passenger_count +:+ " passengers)."
      | [] =>
          "💡 Optimization suggestion" +:+ nl
          +:+ "Consider delaying cargo flight " +:+ acid cargo_to_delay
          +:+ " to reduce congestion."
      end
  end.

End AirspaceCongestion.

(** ** Vocabulary of the statements *)

(** The central angle that both distance functions compute from the
    intermediate value [a], and the angle between two coordinates. *)
Definition angle_of_a (a : R) : R :=
  (2 * math.atan2 (sqrt a) (sqrt (1 - a)))%R.

Definition central_angle (c1 c2 : coord) : R :=
  angle_of_a (FlightAnalysis.haversine_a c1 c2).



(** The sampling of one segment in the words of the specification:
    [steps = max(1, floor(duration / cadence))] and, for [s] in
    [0..=steps], the fraction [min(1, s * cadence / duration)], the
    interpolated position and the time
    [segment_start_time + round(fraction * duration)]. *)
Definition specified_samples (cadence : R) (p1 p2 : coord)
    (segment_start_time : Z) (duration : R) : list (Z * coord) :=
  let steps := Z.max 1 (math.floor (duration / cadence)) in
  (fun s =>
     let fraction := Rmin 1 (IZR s * cadence / duration) in
     (segment_start_time + Py.round (fraction * duration),
      FlightAnalysis.interpolate_position p1 p2 fraction))
    <$> Py.range (steps + 1).

(** A flight record to evaluate the functions on. *)
Definition a_flight (name : string) (route_str : option string)
    (alt : option Z) (dep : option Z) (speed : option Q) : Flight :=
  {| acid := name;
     plane_type := Some "Airbus A320";
     route := route_str;
     altitude := alt;
     departure_airport := None;
     arrival_airport := None;
     departure_time := dep;
     aircraft_speed := speed;
     passengers := 150;
     is_cargo := false |}.

(** The sample that [estimate_trajectory] takes at [fraction] of a
    segment flown in [time_for_segment] seconds from [now]. *)
Definition interpolated_sample (flight : Flight) (lat1 lon1 lat2 lon2 : R)
    (time_for_segment : R) (now : Z) (fraction : R)
  : AirspaceCongestion.PositionSample :=
  {| AirspaceCongestion.timestamp := now + Py.int (fraction * time_for_segment);
     AirspaceCongestion.latitude := (lat1 + fraction * (lat2 - lat1))%R;
     AirspaceCongestion.longitude := (lon1 + fraction * (lon2 - lon1))%R;
     AirspaceCongestion.sample_acid := acid flight |}.

(** The samples of a flight; none when [estimate_trajectory] raises. *)
Definition samples_of (f : Flight) : list AirspaceCongestion.PositionSample :=
  match AirspaceCongestion.estimate_trajectory f with
  | Ok samples => samples
  | Raise _ => []
  end.

(** The flight has a sample in the (sector, window) bucket. *)
Definition visits (f : Flight) (k : AirspaceCongestion.bucket) : Prop :=
  Exists (fun s => AirspaceCongestion.sample_bucket s = k) (samples_of f).

#[global] Instance visits_dec f k : Decision (visits f k).
Proof. unfold visits. apply _. Defined.

(** The distinct flight identifiers observed in a bucket. *)
Definition observed (fs : list Flight) (k : AirspaceCongestion.bucket)
  : gset string :=
  list_to_set (acid <$> filter (fun f => visits f k) fs).

Definition hotspot_bucket (h : AirspaceCongestion.Hotspot)
  : AirspaceCongestion.bucket :=
  (AirspaceCongestion.sector_lat h, AirspaceCongestion.sector_lon h,
   AirspaceCongestion.window_start h).

Definition hotspot_of (k : AirspaceCongestion.bucket) (ids : gset string)
  : AirspaceCongestion.Hotspot :=
  {| AirspaceCongestion.sector_lat := k.1.1;
     AirspaceCongestion.sector_lon := k.1.2;
     AirspaceCongestion.window_start := k.2;
     AirspaceCongestion.flight_count := Z.of_nat (size ids);
     AirspaceCongestion.flights := ids |}.

(** The set a [defaultdict(set)] holds at a key. *)
Definition bucket_content (d : Dict.t AirspaceCongestion.bucket (gset string))
    (k : AirspaceCongestion.bucket) : gset string :=
  default ∅ (Dict.get k d).


(** The flight carries the values its dataclass declares: a departure
    time and a speed. *)
Definition has_schedule (f : Flight) : Prop :=
  is_Some (departure_time f) /\ is_Some (aircraft_speed f).

(** The hotspot that one entry of [sector_window_flights] gives, if any. *)
Definition hotspot_entry (e : AirspaceCongestion.bucket * gset string)
  : option AirspaceCongestion.Hotspot :=
  if 5 <? Z.of_nat (size e.2) then Some (hotspot_of e.1 e.2) else None.

(** The comparison that [hotspots.sort] makes. *)
Definition hotspot_leb (x y : AirspaceCongestion.Hotspot) : bool :=
  AirspaceCongestion.key_leb (AirspaceCongestion.sort_key x)
                             (AirspaceCongestion.sort_key y).

(** Flights along the route of the module's documentation. *)
Definition documented_route : string := "49.97N/110.935W 50.12N/111.2W".

Definition on_documented_route (name : string) : Flight :=
  a_flight name (Some documented_route) (Some 35000) (Some 1700000000)
           (Some (inject_Z 450)).

Definition six_flights : list Flight :=
  on_documented_route <$> ["F1"; "F2"; "F3"; "F4"; "F5"; "F6"].


(** The aircraft that the trajectories place at minute [t], in the order
    of [flight_trajectories]. *)
Definition occupants (flight_trajectories : Dict.t string FlightAnalysis.trajectory)
    (t : Z) : list (string * coord) :=
  omap (fun e : string * FlightAnalysis.trajectory =>
          (fun pos => (e.1, pos)) <$> Dict.get t e.2)
       flight_trajectories.

(** The list a time bucket of [position_by_time] holds. *)
Definition aircraft_at (position_by_time : Dict.t Z (list (string * coord)))
    (t : Z) : list (string * coord) :=
  default [] (Dict.get t position_by_time).

(** The unordered pair of a record, and two records for one pair. *)
Definition record_key (r : FlightAnalysis.ConflictRecord) : string * string :=
  FlightAnalysis.pair_key (FlightAnalysis.flight1 r) (FlightAnalysis.flight2 r).


(** Both altitudes are known and differ by 2000 ft or more. *)
Definition vertically_separated (f1 f2 : Flight) : Prop :=
  exists alt1 alt2,
    altitude f1 = Some alt1 /\ altitude f2 = Some alt2 /\
    FlightAnalysis.VERT_SEP_FT <= Z.abs (alt1 - alt2).

#[global] Instance vertically_separated_dec f1 f2 :
  Decision (vertically_separated f1 f2).
Proof.
  unfold vertically_separated.
  destruct (altitude f1) as [alt1 |]; [| right; intros (? & ? & ? & _); done].
  destruct (altitude f2) as [alt2 |];
    [| right; intros (? & ? & _ & ? & _); done].
  destruct (decide (FlightAnalysis.VERT_SEP_FT <= Z.abs (alt1 - alt2)))
    as [Hle | Hlt].
  - left. by exists alt1, alt2.
  - right. intros (? & ? & [= <-] & [= <-] & ?). done.
Defined.

(** The reporting branch of [check_pair]: what happens to a pair that is
    closer than [HORIZ_SEP_NM] at minute [t]. *)
Definition report (t : Z) (acid1 acid2 : string) (flight1 flight2 : Flight)
    (dist_nm : R) (st : FlightAnalysis.detection)
  : result FlightAnalysis.detection :=
  let key := FlightAnalysis.pair_key acid1 acid2 in
  if decide (key ∈ st.2) then Ok st
  else
    match altitude flight1, altitude flight2 with
    | Some alt1, Some alt2 =>
        Ok (st.1 ++
              [ {| FlightAnalysis.flight1 := acid1;
                   FlightAnalysis.flight2 := acid2;
                   FlightAnalysis.horizontal_nm := Py.round2 dist_nm;
                   FlightAnalysis.vertical_ft := Z.abs (alt1 - alt2);
                   FlightAnalysis.reason := "Loss-of-separation detected";
                   FlightAnalysis.start_time_overlap := t |} ],
            {[ key ]} ∪ st.2)
    | _, _ => Raise TypeError
    end.

(** The path of a flight, as [detect_loss_of_separation] hands it to
    [generate_4d_trajectory]. *)
Definition flight_path (f : Flight) : list coord :=
  to_coord <$> FlightAnalysis.get_full_flight_path f.

(** Every record has its pair in [active_conflicts], and no two records
    have the same pair. *)
Definition reported_once (st : FlightAnalysis.detection) : Prop :=
  NoDup (record_key <$> st.1) /\ forall r, r ∈ st.1 -> record_key r ∈ st.2.

(** Every time bucket of the index holds somebody. *)
Definition inhabited (position_by_time : Dict.t Z (list (string * coord)))
  : Prop :=
  forall t l, Dict.get t position_by_time = Some l -> l <> [].

(** What step 1 of [detect_loss_of_separation] keeps true of
    [flight_trajectories] and [flight_objects] over the flights [fs]. *)
Definition registered (fs : list Flight)
    (st : Dict.t string FlightAnalysis.trajectory * Dict.t string Flight)
  : Prop :=
  NoDup (Dict.keys st.1) /\
  (forall a traj,
     Dict.get a st.1 = Some traj ->
     NoDup (Dict.keys traj) /\ traj <> [] /\
     exists f, f ∈ fs /\ acid f = a /\
       FlightAnalysis.generate_4d_trajectory f (flight_path f) 60 = Ok traj) /\
  (forall a, a ∈ Dict.keys st.1 -> is_Some (Dict.get a st.2)) /\
  (forall a f, Dict.get a st.2 = Some f -> f ∈ fs /\ acid f = a).

(** The horizontal distance of two trajectories at a minute they share,
    the minutes at which it is below 5 nm, in ascending order, and the
    record for such a minute. *)
Definition separation_at (traj1 traj2 : FlightAnalysis.trajectory) (t : Z)
  : option R :=
  pos1 ← Dict.get t traj1;
  pos2 ← Dict.get t traj2;
  Some (6371 * central_angle pos1 pos2 / 1.852)%R.

Definition close_at (traj1 traj2 : FlightAnalysis.trajectory) (t : Z) : Prop :=
  match separation_at traj1 traj2 t with
  | Some dist_nm => (dist_nm < 5)%R
  | None => False
  end.

#[global] Instance close_at_dec traj1 traj2 t : Decision (close_at traj1 traj2 t).
Proof.
  unfold close_at. destruct (separation_at traj1 traj2 t) as [d |].
  - apply Rlt_dec.
  - right. tauto.
Defined.

Definition conflict_minutes (traj1 traj2 : FlightAnalysis.trajectory)
  : list Z :=
  filter (close_at traj1 traj2) (Py.sorted Z.leb (Dict.keys traj1)).


(** ** Vocabulary of the further properties *)

(** *** Loading *)



Definition is_dict (value : FlightLoader.json) : Prop :=
  match value with FlightLoader.JDict _ => True | _ => False end.

#[global] Instance is_dict_dec value : Decision (is_dict value).
Proof. destruct value; cbn; apply _. Defined.


(** A text field as the analysis modules read it: a [str] or [None]. *)
Definition text (value : FlightLoader.json) : option (option string) :=
  match value with
  | FlightLoader.JStr s => Some (Some s)
  | FlightLoader.JNull => Some None
  | _ => None
  end.

(** A loaded flight as the analysis modules read it, when its identifier
    is a [str] and its other text fields are [str] or [None]. *)
Definition typed (o : FlightLoader.Flight) : option Flight :=
  match FlightLoader.acid o with
  | FlightLoader.JStr name =>
      plane ← text (FlightLoader.plane_type o);
      way ← text (FlightLoader.route o);
      departure ← text (FlightLoader.departure_airport o);
      arrival ← text (FlightLoader.arrival_airport o);
      Some {| acid := name;
              plane_type := plane;
              route := way;
              altitude := Some (FlightLoader.altitude o);
              departure_airport := departure;
              arrival_airport := arrival;
              departure_time := Some (FlightLoader.departure_time o);
              aircraft_speed := Some (FlightLoader.aircraft_speed o);
              passengers := FlightLoader.passengers o;
              is_cargo := FlightLoader.is_cargo o |}
  | _ => None
  end.


(** *** Validation *)

(** The plane type is in the list of the category. *)
Definition listed (plane category : string) : Prop :=
  match Dict.get category FlightAnalysis.AIRCRAFT_CATEGORIES with
  | Some types => plane ∈ types
  | None => False
  end.

(** The plane types of [AIRCRAFT_CATEGORIES], each with its category. *)
Definition classified : list (string * string) :=
  '(category, types) ← FlightAnalysis.AIRCRAFT_CATEGORIES;
  (fun plane => (plane, category)) <$> types.

(** [lo <= x <= hi], as the validation compares a speed with its limits. *)
Definition within (lo hi : Z) (x : Q) : Prop :=
  (inject_Z lo <= x)%Q /\ (x <= inject_Z hi)%Q.

#[global] Instance listed_dec plane category : Decision (listed plane category).
Proof.
  unfold listed.
  destruct (Dict.get category FlightAnalysis.AIRCRAFT_CATEGORIES); apply _.
Defined.

(** A flight of a given plane type, altitude and speed. *)
Definition a_plane (name plane : string) (alt : Z) (speed : Q) : Flight :=
  {| acid := name;
     plane_type := Some plane;
     route := None;
     altitude := Some alt;
     departure_airport := None;
     arrival_airport := None;
     departure_time := None;
     aircraft_speed := Some speed;
     passengers := 0;
     is_cargo := false |}.

(** *** Routes *)

(** The letter that ends a coordinate, in upper case. *)
Definition hemisphere (c_str : string) : option ascii :=
  match Str.last c_str with
  | Ok c => Some (Str.upper c)
  | Raise _ => None
  end.

(** A token with one slash at most, in which no latitude ends in [W] and
    no longitude in [S]. *)
Definition plain_token (part : string) : Prop :=
  match Str.split_on "/" part with
  | [_] => True
  | [lat_str; lon_str] =>
      hemisphere lat_str <> Some "W"%char /\ hemisphere lon_str <> Some "S"%char
  | _ => False
  end.

#[global] Instance plain_token_dec part : Decision (plain_token part).
Proof.
  unfold plain_token.
  destruct (Str.split_on "/" part) as [| ? [| ? [| ? ?]]]; apply _.
Defined.

(** *** Congestion *)

(** The sample is inside the sector and the window of the hotspot. *)
Definition inside (h : AirspaceCongestion.Hotspot)
    (s : AirspaceCongestion.PositionSample) : Prop :=
  (IZR (AirspaceCongestion.sector_lat h) <= AirspaceCongestion.latitude s
   < IZR (AirspaceCongestion.sector_lat h) + 1)%R /\
  (IZR (AirspaceCongestion.sector_lon h) <= AirspaceCongestion.longitude s
   < IZR (AirspaceCongestion.sector_lon h) + 1)%R /\
  AirspaceCongestion.window_start h <= AirspaceCongestion.timestamp s
  < AirspaceCongestion.window_start h + 900.


(** The flights that a hotspot involves, in the order in which its
    identifiers come, with those of them that carry cargo and those that
    carry passengers. *)
Definition involved (flight_acids : list string)
    (flight_lookup : Dict.t string Flight) : list Flight :=
  omap (fun acid => Dict.get acid flight_lookup) flight_acids.

Definition cargo_involved (flight_acids : list string)
    (flight_lookup : Dict.t string Flight) : list Flight :=
  filter (fun f => is_cargo f = true) (involved flight_acids flight_lookup).

Definition passengers_involved (flight_acids : list string)
    (flight_lookup : Dict.t string Flight) : list Flight :=
  filter (fun f => is_cargo f = false) (involved flight_acids flight_lookup).

(** The three texts of [suggest_prioritization]. *)
Definition only_passengers_text : string :=
  "💡 Optimization suggestion" +:+ AirspaceCongestion.nl
  +:+ "Only passenger flights involved. Consider minor delays for lower-priority routes.".

Definition delay_instead_text (cargo passenger : Flight) : string :=
  "💡 Optimization suggestion" +:+ AirspaceCongestion.nl
  +:+ "Delay cargo flight " +:+ acid cargo
  +:+ " instead of passenger flight " +:+ acid passenger
  +:+ " (" +:+ Py.str (passengers passenger) +:+ " passengers).".

Definition delay_cargo_text (cargo : Flight) : string :=
  "💡 Optimization suggestion" +:+ AirspaceCongestion.nl
  +:+ "Consider delaying cargo flight " +:+ acid cargo
  +:+ " to reduce congestion.".

(** A flight of a hotspot: its identifier, whether it carries cargo and
    how many passengers. *)
Definition a_load (name : string) (cargo : bool) (seats : Z) : Flight :=
  {| acid := name;
     plane_type := None;
     route := None;
     altitude := None;
     departure_airport := None;
     arrival_airport := None;
     departure_time := None;
     aircraft_speed := None;
     passengers := seats;
     is_cargo := cargo |}.

(** A time of day as [strftime("%H:%M")] writes it. *)
Definition clock (hour minute : Z) : string :=
  datetime.two_digits hour +:+ ":" +:+ datetime.two_digits minute.

(** *** Separation *)

(** What every record of minute [t] is like. *)
Definition sound_record (t : Z) (r : FlightAnalysis.ConflictRecord) : Prop :=
  FlightAnalysis.flight1 r <> FlightAnalysis.flight2 r /\
  0 <= FlightAnalysis.vertical_ft r < FlightAnalysis.VERT_SEP_FT /\
  (0 <= FlightAnalysis.horizontal_nm r <= FlightAnalysis.HORIZ_SEP_NM)%R /\
  FlightAnalysis.reason r = "Loss-of-separation detected" /\
  FlightAnalysis.start_time_overlap r = t.


(** *** From the file to the detectors *)


(** *** Which conflicts are reported *)

(** The record that the detector writes at minute [t] for the aircraft
    [a1] at [pos1] and [a2] at [pos2], of altitudes [alt1] and [alt2]. *)
Definition record_at (t : Z) (a1 a2 : string) (pos1 pos2 : coord)
    (alt1 alt2 : Z) : FlightAnalysis.ConflictRecord :=
  {| FlightAnalysis.flight1 := a1;
     FlightAnalysis.flight2 := a2;
     FlightAnalysis.horizontal_nm :=
       Py.round2 (6371 * central_angle pos1 pos2 / 1.852)%R;
     FlightAnalysis.vertical_ft := Z.abs (alt1 - alt2);
     FlightAnalysis.reason := "Loss-of-separation detected";
     FlightAnalysis.start_time_overlap := t |}.

(** [r] is the record of two of the aircraft [l] of minute [t] that are
    less than 5 nm and less than 2000 ft apart. *)
Definition recorded (flight_objects : Dict.t string Flight)
    (l : list (string * coord)) (t : Z) (r : FlightAnalysis.ConflictRecord)
  : Prop :=
  exists a1 a2 pos1 pos2 f1 f2 alt1 alt2,
    (a1, pos1) ∈ l /\ (a2, pos2) ∈ l /\ a1 <> a2 /\
    Dict.get a1 flight_objects = Some f1 /\
    Dict.get a2 flight_objects = Some f2 /\
    altitude f1 = Some alt1 /\ altitude f2 = Some alt2 /\
    Z.abs (alt1 - alt2) < FlightAnalysis.VERT_SEP_FT /\
    (6371 * central_angle pos1 pos2 / 1.852 < 5)%R /\
    r = record_at t a1 a2 pos1 pos2 alt1 alt2.

(** The pair has a record, and every pair of [active_conflicts] has
    one. *)
Definition has_record (k : string * string) (st : FlightAnalysis.detection)
  : Prop :=
  exists r, r ∈ st.1 /\ record_key r = k.

Definition active_recorded (st : FlightAnalysis.detection) : Prop :=
  forall k, k ∈ st.2 -> has_record k st.

(** What the turns of the loops at minute [t] do to the state: they add
    records of pairs in conflict, and keep a record for every active
    pair. *)
Definition advances (flight_objects : Dict.t string Flight)
    (l : list (string * coord)) (t : Z)
    (st st' : FlightAnalysis.detection) : Prop :=
  (active_recorded st -> active_recorded st') /\
  exists new, st'.1 = st.1 ++ new /\ Forall (recorded flight_objects l t) new.

(** The two flights are in conflict at minute [t]: both trajectories
    have the minute, at less than 5 nm from each other, and the altitudes
    do not separate the flights. *)
Definition in_conflict (f g : Flight) (t : Z) : Prop :=
  exists traj_f traj_g,
    FlightAnalysis.generate_4d_trajectory f (flight_path f) 60 = Ok traj_f /\
    FlightAnalysis.generate_4d_trajectory g (flight_path g) 60 = Ok traj_g /\
    close_at traj_f traj_g t /\
    ~ vertically_separated f g.

Section Runtime.

(** ** The runtime: loops, dictionaries, sorting *)

Section ForEach.
Context {A S : Type} (body : A -> S -> result S).

Lemma for_each_app xs ys st :
  Py.for_each body (xs ++ ys) st
  = st' ← Py.for_each body xs st; Py.for_each body ys st'.
Proof.
  revert st. induction xs as [| x xs IH]; intros st; [reflexivity |].
  cbn. destruct (body x st) as [st' | e]; cbn; [apply IH | reflexivity].
Qed.

(** A property kept by every turn is kept by the loop. *)
Lemma for_each_invariant (P : S -> Prop) xs :
  (forall x st st', x ∈ xs -> P st -> body x st = Ok st' -> P st') ->
  forall st st', P st -> Py.for_each body xs st = Ok st' -> P st'.
Proof.
  induction xs as [| x xs IH]; intros Hstep st st' HP Hrun; cbn in Hrun.
  - congruence.
  - destruct (body x st) as [st1 | e] eqn:Hb; cbn in Hrun; [| discriminate].
    eapply IH; [| | exact Hrun].
    + intros y s s' Hy. apply Hstep. by right.
    + eapply Hstep; [by left | exact HP | exact Hb].
Qed.

(** Turns that leave the state alone leave it alone together. *)
Lemma for_each_unchanged xs st :
  (forall x, x ∈ xs -> body x st = Ok st) -> Py.for_each body xs st = Ok st.
Proof.
  induction xs as [| x xs IH]; intros Hstep; [reflexivity |].
  cbn. rewrite Hstep by (by left). cbn. apply IH.
  intros y Hy. apply Hstep. by right.
Qed.

(** The loop fails only with an exception of one of its turns. *)
Lemma for_each_raises (Q : exn -> Prop) xs :
  (forall x st e, x ∈ xs -> body x st = Raise e -> Q e) ->
  forall st e, Py.for_each body xs st = Raise e -> Q e.
Proof.
  induction xs as [| x xs IH]; intros Hstep st e Hrun; cbn in Hrun.
  - discriminate.
  - destruct (body x st) as [st1 | e1] eqn:Hb; cbn in Hrun.
    + eapply IH; [| exact Hrun]. intros y s e' Hy. apply Hstep. by right.
    + injection Hrun as <-. eapply Hstep; [by left | exact Hb].
Qed.
End ForEach.

Lemma range_succ n : 0 <= n -> Py.range (n + 1) = Py.range n ++ [n].
Proof.
  intros Hn. unfold Py.range.
  replace (Z.to_nat (n + 1)) with (S (Z.to_nat n)) by lia.
  rewrite seq_S, map_app. cbn. by rewrite Z2Nat.id.
Qed.

Lemma range_nonpos n : n <= 0 -> Py.range n = [].
Proof. intros Hn. unfold Py.range. by replace (Z.to_nat n) with O by lia. Qed.

Lemma range_first n : 0 < n -> exists rest, Py.range n = 0 :: rest.
Proof.
  intros Hn. unfold Py.range.
  destruct (Z.to_nat n) as [| m] eqn:Hm; [lia |]. cbn. eauto.
Qed.

Lemma elem_of_range n j : j ∈ Py.range n <-> 0 <= j < n.
Proof.
  unfold Py.range. rewrite list_elem_of_In, in_map_iff. split.
  - intros (k & <- & Hk). apply in_seq in Hk. lia.
  - intros Hj. exists (Z.to_nat j). split; [lia |]. apply in_seq. lia.
Qed.


Section DictFacts.
Context {K V : Type} `{EqDecision K}.
Implicit Types (d : Dict.t K V) (k : K) (v : V).

Lemma get_set_eq k v d : Dict.get k (Dict.set k v d) = Some v.
Proof.
  induction d as [| [k' v'] d IH]; cbn.
  - by rewrite decide_True.
  - destruct (decide (k = k')) as [-> | Hne]; cbn.
    + by rewrite decide_True.
    + by rewrite decide_False.
Qed.

Lemma get_set_ne k k' v d :
  k <> k' -> Dict.get k' (Dict.set k v d) = Dict.get k' d.
Proof.
  intros Hne. induction d as [| [k1 v1] d IH]; cbn.
  - by rewrite decide_False.
  - destruct (decide (k = k1)) as [-> | Hne1]; cbn.
    + by rewrite !decide_False.
    + destruct (decide (k' = k1)); [done | exact IH].
Qed.

Lemma get_None k d : Dict.get k d = None <-> k ∉ Dict.keys d.
Proof.
  induction d as [| [k' v'] d IH]; cbn.
  - split; [intros _; apply not_elem_of_nil | done].
  - rewrite not_elem_of_cons. destruct (decide (k = k')) as [-> | Hne].
    + split; [done | intros [? _]; done].
    + rewrite IH. tauto.
Qed.

Lemma get_Some_elem k v d : Dict.get k d = Some v -> (k, v) ∈ d.
Proof.
  induction d as [| [k' v'] d IH]; cbn; [done |].
  destruct (decide (k = k')) as [-> | Hne].
  - intros [= ->]. by left.
  - intros Hg. right. by apply IH.
Qed.

Lemma elem_get_Some k v d :
  NoDup (Dict.keys d) -> (k, v) ∈ d -> Dict.get k d = Some v.
Proof.
  induction d as [| [k' v'] d IH]; cbn; intros Hnd Hin.
  - by apply elem_of_nil in Hin.
  - apply NoDup_cons in Hnd as [Hk' Hnd].
    apply elem_of_cons in Hin as [[= -> ->] | Hin].
    + by rewrite decide_True.
    + rewrite decide_False; [by apply IH |].
      intros ->. apply Hk'. apply list_elem_of_fmap. by exists (k', v).
Qed.

Lemma keys_set k v d :
  Dict.keys (Dict.set k v d)
  = match Dict.get k d with
    | Some _ => Dict.keys d
    | None => Dict.keys d ++ [k]
    end.
Proof.
  unfold Dict.keys. induction d as [| [k' v'] d IH]; cbn; [done |].
  destruct (decide (k = k')) as [-> | Hne]; cbn; [done |].
  rewrite IH. by destruct (Dict.get k d).
Qed.

Lemma NoDup_keys_set k v d :
  NoDup (Dict.keys d) -> NoDup (Dict.keys (Dict.set k v d)).
Proof.
  intros Hnd. rewrite keys_set. destruct (Dict.get k d) eqn:Hg; [done |].
  apply NoDup_app. split_and!; [done | | apply NoDup_singleton].
  intros x Hx Hx'. apply list_elem_of_singleton in Hx' as ->.
  by apply get_None in Hg.
Qed.

Lemma elem_of_keys_set k k' v d :
  k' ∈ Dict.keys (Dict.set k v d) <-> k' = k \/ k' ∈ Dict.keys d.
Proof.
  rewrite keys_set. destruct (Dict.get k d) eqn:Hg.
  - split; [tauto |]. intros [-> | ?]; [| done].
    destruct (decide (k ∈ Dict.keys d)) as [? | Hn]; [done |].
    apply get_None in Hn. congruence.
  - rewrite elem_of_app, list_elem_of_singleton. tauto.
Qed.

Lemma set_nonempty k v d : Dict.set k v d <> [].
Proof. destruct d as [| [k' v'] d]; cbn; [done |]. by destruct (decide _). Qed.
End DictFacts.

Section SortedFacts.
Context {A : Type} (leb : A -> A -> bool).
Hypothesis leb_total : forall x y, leb x y = true \/ leb y x = true.
Hypothesis leb_trans :
  forall x y z, leb x y = true -> leb y z = true -> leb x z = true.

Lemma insert_Permutation x l : Py.insert leb x l ≡ₚ x :: l.
Proof.
  induction l as [| y l IH]; cbn; [done |].
  destruct (leb x y); [done |]. rewrite IH. apply Permutation_swap.
Qed.

Lemma sorted_Permutation l : Py.sorted leb l ≡ₚ l.
Proof.
  induction l as [| x l IH]; cbn; [done |].
  unfold Py.sorted in *. cbn. by rewrite insert_Permutation, IH.
Qed.

Lemma insert_StronglySorted x l :
  StronglySorted (fun a b => leb a b = true) l ->
  StronglySorted (fun a b => leb a b = true) (Py.insert leb x l).
Proof.
  induction 1 as [| y l Hs IH Hall]; cbn.
  - repeat constructor.
  - destruct (leb x y) eqn:Hxy.
    + constructor; [by constructor |]. constructor; [done |].
      eapply Forall_impl; [exact Hall |]. intros z Hz. by eapply leb_trans.
    + constructor; [exact IH |].
      rewrite insert_Permutation. constructor; [| done].
      destruct (leb_total x y); congruence.
Qed.

Lemma sorted_StronglySorted l :
  StronglySorted (fun a b => leb a b = true) (Py.sorted leb l).
Proof.
  induction l as [| x l IH]; cbn; [constructor |].
  by apply insert_StronglySorted.
Qed.
End SortedFacts.

(** Two sorted lists with the same elements are the same list, as soon
    as elements that compare equal both ways are equal. *)
Lemma StronglySorted_Permutation_eq {A} (leb : A -> A -> bool) (l1 l2 : list A) :
  (forall x y, x ∈ l1 -> y ∈ l1 -> leb x y = true -> leb y x = true -> x = y) ->
  StronglySorted (fun a b => leb a b = true) l1 ->
  StronglySorted (fun a b => leb a b = true) l2 ->
  l1 ≡ₚ l2 -> l1 = l2.
Proof.
  revert l2. induction l1 as [| x l1 IH]; intros l2 Hanti Hs1 Hs2 Hp.
  - by apply Permutation_nil_l in Hp.
  - destruct l2 as [| y l2]; [by apply Permutation_nil_r in Hp |].
    apply StronglySorted_inv in Hs1 as [Hs1 Hx].
    apply StronglySorted_inv in Hs2 as [Hs2 Hy].
    assert (x = y) as ->.
    { assert (Hyin : y ∈ x :: l1) by (rewrite Hp; by left).
      assert (Hxin : x ∈ y :: l2) by (rewrite <- Hp; by left).
      apply elem_of_cons in Hyin as [-> | Hyin]; [done |].
      apply elem_of_cons in Hxin as [-> | Hxin]; [done |].
      rewrite Forall_forall in Hx, Hy.
      apply Hanti; [by left | by right | by apply Hx | by apply Hy]. }
    f_equal. apply IH; [| done | done | by apply Permutation_cons_inv in Hp].
    intros a b Ha Hb. apply Hanti; by right.
Qed.

Lemma for_each_total {A S} (body : A -> S -> result S) xs :
  (forall x st, x ∈ xs -> exists st', body x st = Ok st') ->
  forall st, exists st', Py.for_each body xs st = Ok st'.
Proof.
  induction xs as [| x xs IH]; intros Hstep st; cbn; [eauto |].
  destruct (Hstep x st) as [st1 ->]; [by left |]. cbn.
  apply IH. intros y s Hy. apply Hstep. by right.
Qed.

(** *** Conversions of floats to integers *)

Lemma Int_part_IZR z : Int_part (IZR z) = z.
Proof. symmetry. apply Int_part_spec. lra. Qed.

Lemma Int_part_bounds x : (IZR (Int_part x) <= x < IZR (Int_part x) + 1)%R.
Proof.
  pose proof (base_Int_part x) as [H1 H2]. lra.
Qed.

Lemma Int_part_unique x z : (IZR z <= x < IZR z + 1)%R -> Int_part x = z.
Proof. intros H. symmetry. apply Int_part_spec. lra. Qed.

Lemma int_IZR z : Py.int (IZR z) = z.
Proof.
  unfold Py.int. destruct (Rle_dec 0 (IZR z)); [apply Int_part_IZR |].
  rewrite <- opp_IZR, Int_part_IZR. lia.
Qed.

Lemma int_of_nonneg x z : (0 <= x)%R -> (IZR z <= x < IZR z + 1)%R -> Py.int x = z.
Proof.
  intros H0 H. unfold Py.int. destruct (Rle_dec 0 x); [| lra].
  by apply Int_part_unique.
Qed.

Lemma int_nonneg x : (0 <= x)%R -> 0 <= Py.int x.
Proof.
  intros H0. unfold Py.int. destruct (Rle_dec 0 x); [| lra].
  pose proof (Int_part_bounds x) as [_ Hub].
  apply Z.lt_succ_r, lt_IZR. rewrite succ_IZR.
  eapply Rle_lt_trans; [exact H0 | exact Hub].
Qed.

Lemma int_add_IZR x z : (0 <= x)%R -> 0 <= z -> Py.int (x + IZR z) = Py.int x + z.
Proof.
  intros Hx Hz. pose proof (IZR_le _ _ Hz) as HzR.
  apply int_of_nonneg; [lra |].
  unfold Py.int. destruct (Rle_dec 0 x); [| lra].
  pose proof (Int_part_bounds x). rewrite plus_IZR. lra.
Qed.

(** *** Unfolding equations *)

Lemma bind_Ok {A B} (a : A) (k : A -> result B) : (Ok a ≫= k) = k a.
Proof. reflexivity. Qed.

Lemma bind_Raise {A B} (e : exn) (k : A -> result B) : (Raise e ≫= k) = Raise e.
Proof. reflexivity. Qed.

Lemma bind_Ok_inv {A B} (m : result A) (k : A -> result B) b :
  (m ≫= k) = Ok b -> exists a, m = Ok a /\ k a = Ok b.
Proof. destruct m as [a | e]; [eauto | discriminate]. Qed.

Lemma for_each_cons {A S} (body : A -> S -> result S) x xs st :
  Py.for_each body (x :: xs) st = st' ← body x st; Py.for_each body xs st'.
Proof. reflexivity. Qed.

Lemma for_each_nil {A S} (body : A -> S -> result S) st :
  Py.for_each body [] st = Ok st.
Proof. reflexivity. Qed.

Lemma segments_cons {A} (p1 p2 : A) path :
  segments (p1 :: p2 :: path) = (p1, p2) :: segments (p2 :: path).
Proof. reflexivity. Qed.

Lemma for_each_singleton {A S} (body : A -> S -> result S) x st :
  Py.for_each body [x] st = body x st.
Proof. cbn. by destruct (body x st). Qed.

End Runtime.

Section Geodesy.
Import FlightAnalysis.

#[local] Open Scope R_scope.

Lemma sin_sq_bound x : 0 <= sin x ^ 2 <= 1.
Proof.
  pose proof (SIN_bound x) as [H1 H2]. split; nra.
Qed.

Lemma hav_range (x p1 p2 u : R) :
  p2 - p1 = 2 * x -> 0 <= u <= 1 ->
  0 <= sin x ^ 2 + cos p1 * cos p2 * u <= 1.
Proof.
  intros Hx Hu.
  assert (Hs : sin x ^ 2 = (1 - cos (p2 - p1)) / 2).
  { rewrite Hx, cos_2a_sin. lra. }
  pose proof (cos_minus p2 p1) as Hm.
  pose proof (cos_plus p2 p1) as Hp.
  pose proof (COS_bound (p2 - p1)) as [? ?].
  pose proof (COS_bound (p2 + p1)) as [? ?].
  rewrite Hs. split; nra.
Qed.


Lemma radians_sub a b : math.radians (a - b) = math.radians a - math.radians b.
Proof. unfold math.radians. lra. Qed.

Lemma haversine_a_range c1 c2 : 0 <= FlightAnalysis.haversine_a c1 c2 <= 1.
Proof.
  destruct c1 as [lat1 lon1], c2 as [lat2 lon2]. unfold FlightAnalysis.haversine_a.
  apply hav_range.
  - rewrite radians_sub. lra.
  - apply sin_sq_bound.
Qed.

Lemma haversine_a_agree lat1 lon1 lat2 lon2 :
  AirspaceCongestion.haversine_a lat1 lon1 lat2 lon2
  = FlightAnalysis.haversine_a (lat1, lon1) (lat2, lon2).
Proof.
  unfold AirspaceCongestion.haversine_a, FlightAnalysis.haversine_a.
  rewrite !radians_sub. reflexivity.
Qed.

Lemma sqrt_result x : 0 <= x -> math.sqrt x = Ok (sqrt x).
Proof. intros H. unfold math.sqrt. destruct (Rlt_dec x 0); [lra | reflexivity]. Qed.


Lemma km_of_a_result a :
  0 <= a <= 1 -> km_of_a a = Ok (6371 * angle_of_a a).
Proof.
  intros [H0 H1]. unfold km_of_a.
  rewrite (sqrt_result a) by lra. cbn.
  rewrite (sqrt_result (1 - a)) by lra. reflexivity.
Qed.

Lemma sqrt_le_one a : 0 <= a <= 1 -> 0 <= sqrt a <= 1.
Proof.
  intros [H0 H1]. split; [apply sqrt_pos |].
  rewrite <- sqrt_1. apply sqrt_le_1; lra.
Qed.

Lemma asin_result x : -1 <= x <= 1 -> math.asin x = Ok (asin x).
Proof.
  intros [H0 H1]. unfold math.asin.
  destruct (Rlt_dec x (-1)); [lra |]. destruct (Rlt_dec 1 x); [lra | reflexivity].
Qed.

Lemma asin_sqrt_atan2 a : 0 <= a <= 1 -> 2 * asin (sqrt a) = angle_of_a a.
Proof.
  intros [H0 H1]. unfold angle_of_a. f_equal.
  destruct (Req_dec a 1) as [-> | Hne].
  - replace (1 - 1) with 0 by lra. rewrite sqrt_1, sqrt_0, asin_1.
    unfold math.atan2.
    destruct (Rlt_dec 0 0); [lra |]. destruct (Rlt_dec 0 0); [lra |].
    destruct (Rlt_dec 0 1); [reflexivity | lra].
  - assert (Hlt : a < 1) by lra.
    assert (Hs : 0 < sqrt (1 - a)) by (apply sqrt_lt_R0; lra).
    assert (Hsa : sqrt a < 1).
    { rewrite <- sqrt_1. apply sqrt_lt_1; lra. }
    pose proof (sqrt_pos a).
    rewrite asin_atan by lra.
    unfold math.atan2. destruct (Rlt_dec 0 (sqrt (1 - a))); [| lra].
    rewrite Rsqr_sqrt by lra. reflexivity.
Qed.

Lemma nm_of_a_result a :
  0 <= a <= 1 -> AirspaceCongestion.nm_of_a a = Ok (3440.065 * angle_of_a a).
Proof.
  intros Ha. unfold AirspaceCongestion.nm_of_a.
  rewrite (sqrt_result a) by lra. cbn.
  pose proof (sqrt_le_one a Ha).
  rewrite asin_result by lra. cbn. rewrite asin_sqrt_atan2 by assumption.
  reflexivity.
Qed.

Lemma atan2_first_quadrant y x :
  0 <= y -> 0 <= x -> 0 <= math.atan2 y x <= PI / 2.
Proof.
  intros Hy Hx. pose proof PI_RGT_0. unfold math.atan2.
  destruct (Rlt_dec 0 x) as [Hpos | Hnpos].
  - pose proof (atan_bound (y / x)) as [_ Hub].
    assert (0 <= y / x) as [Hlt | <-].
    { apply Rmult_le_pos; [lra |]. left. apply Rinv_0_lt_compat. lra. }
    + pose proof (atan_increasing _ _ Hlt). rewrite atan_0 in *. lra.
    + rewrite atan_0. lra.
  - destruct (Rlt_dec x 0); [lra |].
    destruct (Rlt_dec 0 y); [lra |]. destruct (Rlt_dec y 0); lra.
Qed.

Lemma atan2_pos y x : 0 < y -> 0 <= x -> 0 < math.atan2 y x.
Proof.
  intros Hy Hx. pose proof PI_RGT_0. unfold math.atan2.
  destruct (Rlt_dec 0 x) as [Hpos | Hnpos].
  - assert (Hlt : 0 < y / x).
    { apply Rmult_lt_0_compat; [lra |]. apply Rinv_0_lt_compat. lra. }
    pose proof (atan_increasing _ _ Hlt). rewrite atan_0 in *. lra.
  - destruct (Rlt_dec x 0); [lra |]. destruct (Rlt_dec 0 y); lra.
Qed.

Lemma atan2_zero x : 0 < x -> math.atan2 0 x = 0.
Proof.
  intros Hx. unfold math.atan2. destruct (Rlt_dec 0 x); [| lra].
  replace (0 / x) with 0 by (unfold Rdiv; lra). apply atan_0.
Qed.

Lemma angle_of_a_bounds a : 0 <= a <= 1 -> 0 <= angle_of_a a <= PI.
Proof.
  intros Ha. unfold angle_of_a.
  pose proof (atan2_first_quadrant (sqrt a) (sqrt (1 - a))
                (sqrt_pos _) (sqrt_pos _)).
  lra.
Qed.

Lemma angle_of_a_zero : angle_of_a 0 = 0.
Proof.
  unfold angle_of_a. replace (1 - 0) with 1 by lra.
  rewrite sqrt_0, sqrt_1, atan2_zero; lra.
Qed.

Lemma angle_of_a_pos a : 0 < a -> 0 < angle_of_a a.
Proof.
  intros Ha. unfold angle_of_a.
  assert (0 < sqrt a) by (apply sqrt_lt_R0; lra).
  pose proof (atan2_pos (sqrt a) (sqrt (1 - a)) H (sqrt_pos _)). lra.
Qed.

Lemma haversine_distance_km_result c1 c2 :
  haversine_distance_km c1 c2 = Ok (6371 * central_angle c1 c2).
Proof. apply km_of_a_result, haversine_a_range. Qed.

Lemma horizontal_distance_nm_result c1 c2 :
  horizontal_distance_nm c1 c2 = Ok (6371 * central_angle c1 c2 / 1.852).
Proof.
  unfold horizontal_distance_nm. rewrite haversine_distance_km_result.
  reflexivity.
Qed.

Lemma haversine_distance_result lat1 lon1 lat2 lon2 :
  AirspaceCongestion.haversine_distance lat1 lon1 lat2 lon2
  = Ok (3440.065 * central_angle (lat1, lon1) (lat2, lon2)).
Proof.
  unfold AirspaceCongestion.haversine_distance. rewrite haversine_a_agree.
  apply nm_of_a_result, haversine_a_range.
Qed.

Lemma central_angle_bounds c1 c2 : 0 <= central_angle c1 c2 <= PI.
Proof. apply angle_of_a_bounds, haversine_a_range. Qed.

Lemma haversine_a_self c : FlightAnalysis.haversine_a c c = 0.
Proof.
  destruct c as [lat lon]. unfold FlightAnalysis.haversine_a, math.radians.
  replace ((lat - lat) * (PI / 180) / 2) with 0 by lra.
  replace ((lon - lon) * (PI / 180) / 2) with 0 by lra.
  rewrite sin_0. lra.
Qed.

Lemma central_angle_self c : central_angle c c = 0.
Proof. unfold central_angle. rewrite haversine_a_self. apply angle_of_a_zero. Qed.

Lemma horizontal_distance_nm_self c : horizontal_distance_nm c c = Ok 0.
Proof.
  rewrite horizontal_distance_nm_result, central_angle_self. f_equal. lra.
Qed.




(** *** The two distance functions against each other *)






(** *** Domain errors *)





(** Two coordinates at different latitudes are apart. *)
Lemma central_angle_latitudes lat1 lon1 lat2 lon2 :
  -90 <= lat1 <= 90 -> -90 <= lat2 <= 90 -> lat1 <> lat2 ->
  0 < central_angle (lat1, lon1) (lat2, lon2).
Proof.
  intros H1 H2 Hne. pose proof PI_RGT_0 as Hpi.
  apply angle_of_a_pos. unfold FlightAnalysis.haversine_a.
  set (x := math.radians (lat2 - lat1) / 2).
  assert (Hx : - (PI / 2) <= x <= PI / 2 /\ x <> 0).
  { unfold x, math.radians. split; [split; nra |]. intros H0. apply Hne. nra. }
  assert (Hs : sin x <> 0).
  { destruct Hx as [[Hl Hu] H0]. destruct (Rlt_dec 0 x).
    - pose proof (sin_gt_0 x). lra.
    - pose proof (sin_gt_0 (- x)) as Hn. rewrite sin_neg in Hn. lra. }
  assert (0 < sin x ^ 2) by nra.
  assert (0 <= cos (math.radians lat1))
    by (apply cos_ge_0; unfold math.radians; nra).
  assert (0 <= cos (math.radians lat2))
    by (apply cos_ge_0; unfold math.radians; nra).
  pose proof (sin_sq_bound (math.radians (lon2 - lon1) / 2)) as [? _].
  assert (0 <= cos (math.radians lat1) * cos (math.radians lat2)
               * sin (math.radians (lon2 - lon1) / 2) ^ 2).
  { apply Rmult_le_pos; [apply Rmult_le_pos |]; done. }
  lra.
Qed.

End Geodesy.

Section Routes.

(** ** Route parsing *)

(** The route of the module's documentation, in both parsers. *)
Example parse_route_documented :
  AirspaceCongestion.parse_route (Some "49.97N/110.935W 50.12N/111.2W")
  = [((4997 # 100)%Q, (-22187 # 200)%Q); ((1253 # 25)%Q, (-556 # 5)%Q)] /\
  FlightAnalysis.parse_route (Some "49.97N/110.935W 50.12N/111.2W")
  = [((4997 # 100)%Q, (-22187 # 200)%Q); ((1253 # 25)%Q, (-556 # 5)%Q)].
Proof. split; vm_compute; reflexivity. Qed.

(** Tokens without a slash, with a number that does not parse or with
    too many slashes are skipped by both parsers. *)
Example parse_route_skips :
  AirspaceCongestion.parse_route (Some "DIRECT 1x2N/3E 10s/20w /5E 1N/2E/3E 7N/")
  = [((-10 # 1)%Q, (-20 # 1)%Q)] /\
  FlightAnalysis.parse_route (Some "DIRECT 1x2N/3E 10s/20w /5E 1N/2E/3E 7N/")
  = [((-10 # 1)%Q, (-20 # 1)%Q)] /\
  AirspaceCongestion.parse_route None = [] /\
  FlightAnalysis.parse_route None = [].
Proof. repeat split; vm_compute; reflexivity. Qed.

(** A known departure airport opens the path; an unknown arrival code
    is left out. *)
Example full_path_with_airports :
  FlightAnalysis.get_full_flight_path
    {| acid := "ACA101";
       plane_type := None;
       route := Some "49.97N/110.935W";
       altitude := None;
       departure_airport := Some "CYYZ";
       arrival_airport := Some "ZZZZ";
       departure_time := None;
       aircraft_speed := None;
       passengers := 0;
       is_cargo := false |}
  = [(43.68, -79.63)%Q; ((4997 # 100)%Q, (-22187 # 200)%Q)].
Proof. vm_compute. reflexivity. Qed.

(** The bodies of the two [try] blocks raise nothing that the [except]
    clause lets through. *)
Lemma float_raises s e : Str.float s = Raise e -> e = ValueError.
Proof.
  unfold Str.float.
  destruct (match s with
            | String "-"%char r => (true, r)
            | String "+"%char r => (false, r)
            | _ => (false, s)
            end) as [negative body].
  destruct (Str.read_digits body 0 0) as [[ip n1] rest].
  destruct rest as [| c frac].
  - destruct n1; [congruence | done].
  - destruct (Ascii.eqb_spec c "."%char) as [-> | Hc].
    + destruct (Str.read_digits frac ip 0) as [[v n2] rest'].
      destruct rest'; [| congruence].
      destruct (n1 + n2)%nat; [congruence | done].
    + destruct c as [[] [] [] [] [] [] [] []]; try congruence; done.
Qed.

Lemma last_raises s e : Str.last s = Raise e -> e = IndexError.
Proof.
  induction s as [| c s IH]; cbn; [congruence |].
  destruct s; [done | exact IH].
Qed.

Lemma parse_coord_raises c_str e :
  FlightAnalysis.parse_coord c_str = Raise e ->
  e = ValueError \/ e = IndexError.
Proof.
  unfold FlightAnalysis.parse_coord.
  destruct (Str.float _) as [val | e1] eqn:Hf.
  - destruct (Str.last c_str) as [c | e2] eqn:Hl.
    + cbn. by destruct (_ || _).
    + cbn. intros [= <-]. right. by eapply last_raises.
  - cbn. intros [= <-]. left. by eapply float_raises.
Qed.

Lemma flight_analysis_part_raises part e :
  FlightAnalysis.parse_part part = Raise e ->
  e = ValueError \/ e = IndexError.
Proof.
  unfold FlightAnalysis.parse_part. destruct (negb _); [done |].
  destruct (Str.split_on "/" part) as [| lat_str [| lon_str [| ? ?]]];
    try (intros [= <-]; by left).
  destruct (FlightAnalysis.parse_coord lat_str) as [lat | e1] eqn:H1.
  - destruct (FlightAnalysis.parse_coord lon_str) as [lon | e2] eqn:H2; [done |].
    cbn. intros [= <-]. by eapply parse_coord_raises.
  - cbn. intros [= <-]. by eapply parse_coord_raises.
Qed.

Lemma airspace_part_raises part e :
  AirspaceCongestion.parse_part part = Raise e ->
  e = ValueError \/ e = IndexError.
Proof.
  unfold AirspaceCongestion.parse_part.
  destruct (Str.split_once "/" part) as [| lat_str [| lon_str [| ? ?]]];
    try (intros [= <-]; by left).
  destruct (Str.float (Str.drop_last lat_str)) as [v1 | e1] eqn:F1;
    [| cbn; intros [= <-]; left; by eapply float_raises].
  destruct (Str.last lat_str) as [c1 | e1] eqn:L1;
    [| cbn; intros [= <-]; right; by eapply last_raises].
  destruct (Str.float (Str.drop_last lon_str)) as [v2 | e2] eqn:F2;
    [| cbn; intros [= <-]; left; by eapply float_raises].
  destruct (Str.last lon_str) as [c2 | e2] eqn:L2;
    [| cbn; intros [= <-]; right; by eapply last_raises].
  done.
Qed.

(** In [airspace_congestion] the latitude changes sign for a final [S]
    or [s] only, the longitude for a final [W] or [w] only. *)
Lemma airspace_part_signs part lat lon :
  AirspaceCongestion.parse_part part = Ok (lat, lon) ->
  exists lat_str lon_str v_lat v_lon c_lat c_lon,
    Str.split_once "/" part = [lat_str; lon_str] /\
    Str.float (Str.drop_last lat_str) = Ok v_lat /\
    Str.last lat_str = Ok c_lat /\
    Str.float (Str.drop_last lon_str) = Ok v_lon /\
    Str.last lon_str = Ok c_lon /\
    lat = (if Ascii.eqb (Str.upper c_lat) "S" then Qopp v_lat else v_lat) /\
    lon = (if Ascii.eqb (Str.upper c_lon) "W" then Qopp v_lon else v_lon).
Proof.
  unfold AirspaceCongestion.parse_part.
  destruct (Str.split_once "/" part) as [| lat_str [| lon_str [| ? ?]]] eqn:Hs;
    try done.
  destruct (Str.float (Str.drop_last lat_str)) as [v1 | e1] eqn:F1; [| done].
  destruct (Str.last lat_str) as [c1 | e1] eqn:L1; [| done].
  destruct (Str.float (Str.drop_last lon_str)) as [v2 | e2] eqn:F2; [| done].
  destruct (Str.last lon_str) as [c2 | e2] eqn:L2; [| done].
  rewrite !bind_Ok. intros [= <- <-].
  exists lat_str, lon_str, v1, v2, c1, c2. split_and!; done.
Qed.

(** In [flight_analysis] either half changes sign for a final [S], [s],
    [W] or [w]. *)
Lemma parse_coord_sign c_str q :
  FlightAnalysis.parse_coord c_str = Ok q ->
  exists val c,
    Str.float (Str.drop_last c_str) = Ok val /\ Str.last c_str = Ok c /\
    q = (if (Ascii.eqb (Str.upper c) "S" || Ascii.eqb (Str.upper c) "W")%bool
         then Qopp val else val).
Proof.
  unfold FlightAnalysis.parse_coord.
  destruct (Str.float _) as [val | e1] eqn:Hf; [| done].
  destruct (Str.last c_str) as [c | e2] eqn:Hl; [| done].
  rewrite !bind_Ok. intros Hq. exists val, c. split_and!; [done | done |].
  destruct (_ || _); by injection Hq.
Qed.

(** Claim C8 at the failing input: for a latitude that ends in [W] and a
    longitude that ends in [S], [flight_analysis.parse_route] negates
    both, where [airspace_congestion.parse_route] keeps them North and
    East. *)
Theorem parse_route_wrong_hemisphere :
  FlightAnalysis.parse_route (Some "10W/20S") = [((-10 # 1)%Q, (-20 # 1)%Q)] /\
  AirspaceCongestion.parse_route (Some "10W/20S") = [((10 # 1)%Q, (20 # 1)%Q)].
Proof. split; vm_compute; reflexivity. Qed.

End Routes.

Section Trajectories.
Import FlightAnalysis.

#[local] Open Scope R_scope.

(** ** Trajectory reconstruction in [flight_analysis] *)



(** The distance in nautical miles that [horizontal_distance_nm]
    returns. *)
Lemma horizontal_distance_nm_nonneg c1 c2 d :
  FlightAnalysis.horizontal_distance_nm c1 c2 = Ok d -> 0 <= d.
Proof.
  rewrite horizontal_distance_nm_result. intros [= <-].
  pose proof (central_angle_bounds c1 c2). lra.
Qed.

Section Segment.
Variables (speed_nm_per_sec : R) (p1 p2 : coord).
Variables (traj : FlightAnalysis.trajectory) (current_time : R).
Hypothesis speed_pos : 0 < speed_nm_per_sec.

Let dist_nm := 6371 * central_angle p1 p2 / 1.852.
Let duration_sec := dist_nm / speed_nm_per_sec.
Let steps := Py.int (duration_sec / 60).

Lemma segment_zero_length :
  central_angle p1 p2 = 0 ->
  FlightAnalysis.segment speed_nm_per_sec 60 (p1, p2) (traj, current_time)
  = Ok (traj, current_time).
Proof.
  intros H0. unfold FlightAnalysis.segment.
  rewrite horizontal_distance_nm_result, H0. cbn.
  destruct (Req_dec_T _ 0) as [_ | Hne]; [done | lra].
Qed.

Lemma segment_result :
  0 < central_angle p1 p2 ->
  FlightAnalysis.segment speed_nm_per_sec 60 (p1, p2) (traj, current_time)
  = Ok (fold_left (FlightAnalysis.sample p1 p2 duration_sec current_time 60)
                  (Py.range (steps + 1)) traj,
        current_time + duration_sec).
Proof.
  intros Hpos. unfold FlightAnalysis.segment.
  rewrite horizontal_distance_nm_result. cbn.
  destruct (Req_dec_T _ 0) as [H0 | Hne]; [lra | done].
Qed.

Lemma duration_pos : 0 < central_angle p1 p2 -> 0 < duration_sec.
Proof.
  intros Hpos. unfold duration_sec, dist_nm.
  apply Rdiv_lt_0_compat; lra.
Qed.

Lemma steps_nonneg : 0 < central_angle p1 p2 -> (0 <= steps)%Z.
Proof.
  intros Hpos. apply int_nonneg. pose proof (duration_pos Hpos). lra.
Qed.
End Segment.

Lemma sample_fraction p1 p2 duration current_time traj s :
  FlightAnalysis.sample p1 p2 duration current_time 60 traj s
  = Dict.set (Py.int (current_time + IZR (s * 60)) / 60 * 60)%Z
      (FlightAnalysis.interpolate_position p1 p2
         (Rmin 1 (IZR (s * 60) / duration)))
      traj.
Proof.
  unfold FlightAnalysis.sample. do 2 f_equal. unfold Rmin.
  destruct (Rlt_dec 1 _), (Rle_dec 1 _); try done; lra.
Qed.

Lemma fold_sample_NoDup p1 p2 duration current_time step ss traj :
  NoDup (Dict.keys traj) ->
  NoDup (Dict.keys
           (fold_left (FlightAnalysis.sample p1 p2 duration current_time step)
                      ss traj)).
Proof.
  revert traj. induction ss as [| s ss IH]; intros traj Hnd; [done |].
  cbn. apply IH. unfold FlightAnalysis.sample. by apply NoDup_keys_set.
Qed.

Lemma fold_sample_nonempty p1 p2 duration current_time step ss traj :
  ss <> [] \/ traj <> [] ->
  fold_left (FlightAnalysis.sample p1 p2 duration current_time step) ss traj
  <> [].
Proof.
  revert traj. induction ss as [| s ss IH]; intros traj Hne.
  - cbn. by destruct Hne.
  - cbn. apply IH. right. unfold FlightAnalysis.sample. apply set_nonempty.
Qed.

Lemma segment_total speed seg st :
  exists st', FlightAnalysis.segment speed 60 seg st = Ok st'.
Proof.
  destruct seg as [p1 p2], st as [traj ct]. unfold FlightAnalysis.segment.
  rewrite horizontal_distance_nm_result. cbn.
  destruct (Req_dec_T _ 0); eauto.
Qed.

Lemma segment_NoDup speed seg st st' :
  FlightAnalysis.segment speed 60 seg st = Ok st' ->
  NoDup (Dict.keys st.1) -> NoDup (Dict.keys st'.1).
Proof.
  destruct seg as [p1 p2], st as [traj ct]. unfold FlightAnalysis.segment.
  rewrite horizontal_distance_nm_result. cbn.
  destruct (Req_dec_T _ 0); intros [= <-]; cbn; [done |].
  apply fold_sample_NoDup.
Qed.

Lemma segment_keeps_nonempty speed seg st st' :
  FlightAnalysis.segment speed 60 seg st = Ok st' -> st.1 <> [] -> st'.1 <> [].
Proof.
  destruct seg as [p1 p2], st as [traj ct]. unfold FlightAnalysis.segment.
  rewrite horizontal_distance_nm_result. cbn.
  destruct (Req_dec_T _ 0); intros [= <-]; cbn; [done |].
  intros Hne. apply fold_sample_nonempty. by right.
Qed.

Lemma speed_guard (v : Q) : (0 < v)%Q -> Qeq_bool v 0 || Qle_bool v 0 = false.
Proof.
  intros Hv. apply orb_false_intro.
  - apply not_true_iff_false. intros He. apply Qeq_bool_iff in He.
    rewrite He in Hv. by apply Qlt_irrefl in Hv.
  - apply not_true_iff_false. intros Hle. apply Qle_bool_iff in Hle.
    by apply Qle_not_lt in Hle.
Qed.

Lemma speed_guard_inv (v : Q) : Qeq_bool v 0 || Qle_bool v 0 = false -> (0 < v)%Q.
Proof.
  intros H. apply orb_false_elim in H as [_ Hle].
  apply Qnot_le_lt. intros Hl. apply Qle_bool_iff in Hl. congruence.
Qed.

Lemma Q2R_pos (v : Q) : (0 < v)%Q -> 0 < Q2R v.
Proof. intros Hv. apply Qlt_Rlt in Hv. by rewrite RMicromega.Q2R_0 in Hv. Qed.

Section Generate.
Variables (flight : Flight) (dep : Z) (speed : Q).
Hypothesis Hdep : departure_time flight = Some dep.
Hypothesis Hdep0 : dep <> 0%Z.
Hypothesis Hspeed : aircraft_speed flight = Some speed.
Hypothesis Hspeed0 : (0 < speed)%Q.

Lemma generate_simulated p path :
  FlightAnalysis.generate_4d_trajectory flight (p :: path) 60
  = st ← Py.for_each (FlightAnalysis.segment (Q2R speed / 3600) 60)
                     (segments (p :: path)) ([], IZR dep);
    Ok st.1.
Proof.
  unfold FlightAnalysis.generate_4d_trajectory. rewrite Hdep, Hspeed.
  apply Z.eqb_neq in Hdep0 as ->. cbn [orb].
  by rewrite (speed_guard _ Hspeed0).
Qed.

Lemma generate_nonempty p1 p2 path :
  0 < central_angle p1 p2 ->
  exists traj,
    FlightAnalysis.generate_4d_trajectory flight (p1 :: p2 :: path) 60
    = Ok traj /\ traj <> [].
Proof.
  intros Hpos. rewrite generate_simulated.
  pose proof (Q2R_pos _ Hspeed0) as Hv.
  assert (Hv' : 0 < Q2R speed / 3600) by lra.
  rewrite segments_cons, for_each_cons, segment_result, bind_Ok by done.
  set (st1 := (fold_left _ _ _, _)).
  destruct (for_each_total (FlightAnalysis.segment (Q2R speed / 3600) 60)
              (segments (p2 :: path))
              (fun x st _ => segment_total _ x st)
              st1)
    as [st' Hst'].
  rewrite Hst', bind_Ok. eexists. split; [done |].
  eapply (for_each_invariant _ (fun st => st.1 <> [])); [| | exact Hst'].
  - intros x st st'' _ Hne Hseg. by eapply segment_keeps_nonempty.
  - unfold st1. cbn. apply fold_sample_nonempty. left.
    pose proof (steps_nonneg (Q2R speed / 3600) p1 p2 Hv' Hpos) as Hs.
    destruct (range_first (Py.int (6371 * central_angle p1 p2 / 1.852
                                   / (Q2R speed / 3600) / 60) + 1))
      as [rest ->]; [lia | done].
Qed.
End Generate.

Lemma generate_total flight path :
  exists traj, FlightAnalysis.generate_4d_trajectory flight path 60 = Ok traj.
Proof.
  unfold FlightAnalysis.generate_4d_trajectory.
  destruct (departure_time flight) as [dep |]; [| eauto].
  destruct (aircraft_speed flight) as [speed |]; [| eauto].
  destruct (_ || _); [eauto |]. destruct path as [| p path]; [eauto |].
  destruct (for_each_total (FlightAnalysis.segment (Q2R speed / 3600) 60)
              (segments (p :: path)) (fun x st _ => segment_total _ x st)
              ([], IZR dep)) as [st' ->].
  rewrite bind_Ok. eauto.
Qed.

Lemma generate_NoDup flight path traj :
  FlightAnalysis.generate_4d_trajectory flight path 60 = Ok traj ->
  NoDup (Dict.keys traj).
Proof.
  unfold FlightAnalysis.generate_4d_trajectory.
  destruct (departure_time flight) as [dep |];
    [| intros [= <-]; apply NoDup_nil_2].
  destruct (aircraft_speed flight) as [speed |];
    [| intros [= <-]; apply NoDup_nil_2].
  destruct (_ || _); [intros [= <-]; apply NoDup_nil_2 |].
  destruct path as [| p path]; [intros [= <-]; apply NoDup_nil_2 |].
  intros Hrun. apply bind_Ok_inv in Hrun as (st & Hst & [= <-]).
  eapply (for_each_invariant _ (fun st => NoDup (Dict.keys st.1)));
    [| | exact Hst].
  - intros x s s' _ Hnd Hseg. by eapply segment_NoDup.
  - apply NoDup_nil_2.
Qed.

(** The trajectory only reads the departure time and the speed of the
    flight. *)
Lemma generate_same_inputs f g path :
  departure_time f = departure_time g ->
  aircraft_speed f = aircraft_speed g ->
  FlightAnalysis.generate_4d_trajectory f path 60
  = FlightAnalysis.generate_4d_trajectory g path 60.
Proof.
  intros Hd Hs. unfold FlightAnalysis.generate_4d_trajectory.
  by rewrite Hd, Hs.
Qed.

Lemma generate_without_departure flight path step :
  departure_time flight = None \/ departure_time flight = Some 0%Z ->
  FlightAnalysis.generate_4d_trajectory flight path step = Ok [].
Proof.
  intros [Hd | Hd]; unfold FlightAnalysis.generate_4d_trajectory; rewrite Hd.
  - done.
  - by destruct (aircraft_speed flight).
Qed.

Lemma generate_empty_path flight step :
  FlightAnalysis.generate_4d_trajectory flight [] step = Ok [].
Proof.
  unfold FlightAnalysis.generate_4d_trajectory.
  destruct (departure_time flight), (aircraft_speed flight); try done.
  by destruct (_ || _).
Qed.




End Trajectories.

Section Sampling.
Import AirspaceCongestion.

#[local] Open Scope R_scope.

(** ** Trajectory reconstruction in [airspace_congestion] *)


Lemma sample_interpolated flight lat1 lon1 lat2 lon2 tfs n now samples j :
  (0 < n)%Z -> (0 <= j <= n)%Z ->
  sample flight lat1 lon1 lat2 lon2 tfs n now samples j
  = samples ++ [interpolated_sample flight lat1 lon1 lat2 lon2 tfs now
                  (IZR j / IZR n)].
Proof.
  intros Hn Hj. unfold sample, interpolated_sample.
  apply Z.ltb_lt in Hn as Hn'. rewrite Hn'.
  rewrite Rmin_left; [done |].
  pose proof (IZR_lt _ _ Hn) as HnR. destruct Hj as [_ Hj].
  apply IZR_le in Hj.
  apply Rmult_le_reg_r with (IZR n); [lra |].
  unfold Rdiv. rewrite Rmult_assoc, Rinv_l by lra. lra.
Qed.

Lemma fold_sample_interpolated flight lat1 lon1 lat2 lon2 tfs n now js samples :
  (0 < n)%Z -> Forall (fun j => 0 <= j <= n)%Z js ->
  fold_left (sample flight lat1 lon1 lat2 lon2 tfs n now) js samples
  = samples ++ ((fun j => interpolated_sample flight lat1 lon1 lat2 lon2 tfs now
                            (IZR j / IZR n)) <$> js).
Proof.
  intros Hn. revert samples. induction js as [| j js IH]; intros samples Hjs.
  - cbn. by rewrite app_nil_r.
  - apply Forall_cons in Hjs as [Hj Hjs]. cbn [fold_left].
    rewrite sample_interpolated, IH by done. by rewrite <- app_assoc.
Qed.

Lemma range_bounds n : Forall (fun j => 0 <= j <= n)%Z (Py.range (n + 1)).
Proof. apply Forall_forall. intros j Hj. apply elem_of_range in Hj. lia. Qed.

Section Segment.
Variables (flight : Flight) (speed_knots : R) (lat1 lon1 lat2 lon2 : R).
Variable samples : list PositionSample.
Hypothesis speed_pos : 0 < speed_knots.

Let distance_nm := 3440.065 * central_angle (lat1, lon1) (lat2, lon2).
Let time_for_segment := distance_nm / speed_knots * 3600.
Let num_samples := Z.max 1 (Py.int (time_for_segment / 90)).

Lemma time_for_segment_pos :
  0 < central_angle (lat1, lon1) (lat2, lon2) -> 0 < time_for_segment.
Proof.
  intros Hpos. unfold time_for_segment, distance_nm.
  apply Rmult_lt_0_compat; [| lra]. apply Rdiv_lt_0_compat; lra.
Qed.

Lemma time_for_segment_zero :
  central_angle (lat1, lon1) (lat2, lon2) = 0 -> time_for_segment = 0.
Proof.
  intros H0. unfold time_for_segment, distance_nm. rewrite H0.
  unfold Rdiv. lra.
Qed.

Lemma ac_segment_zero_length current_time :
  central_angle (lat1, lon1) (lat2, lon2) = 0 ->
  segment flight speed_knots ((lat1, lon1), (lat2, lon2))
          (samples, current_time)
  = Ok (samples, current_time).
Proof.
  intros H0. unfold segment. rewrite haversine_distance_result, bind_Ok.
  pose proof (time_for_segment_zero H0) as Hz.
  unfold time_for_segment, distance_nm in Hz. rewrite Hz.
  destruct (Rle_dec 0 0); [done | lra].
Qed.

Lemma ac_segment_result now :
  0 < central_angle (lat1, lon1) (lat2, lon2) ->
  segment flight speed_knots ((lat1, lon1), (lat2, lon2))
          (samples, Some now)
  = Ok (samples
          ++ ((fun j => interpolated_sample flight lat1 lon1 lat2 lon2
                          time_for_segment now (IZR j / IZR num_samples))
                <$> Py.range (num_samples + 1)),
        Some (now + Py.int time_for_segment)%Z).
Proof.
  intros Hpos. unfold segment. rewrite haversine_distance_result, bind_Ok.
  pose proof (time_for_segment_pos Hpos) as Ht.
  unfold time_for_segment, distance_nm in Ht.
  destruct (Rle_dec _ 0); [lra |].
  rewrite fold_sample_interpolated; [done | lia | apply range_bounds].
Qed.

Lemma ac_segment_no_departure :
  0 < central_angle (lat1, lon1) (lat2, lon2) ->
  segment flight speed_knots ((lat1, lon1), (lat2, lon2)) (samples, None)
  = Raise TypeError.
Proof.
  intros Hpos. unfold segment. rewrite haversine_distance_result, bind_Ok.
  pose proof (time_for_segment_pos Hpos) as Ht.
  unfold time_for_segment, distance_nm in Ht.
  destruct (Rle_dec _ 0); [lra | done].
Qed.
End Segment.

Lemma central_angle_cases c1 c2 : central_angle c1 c2 = 0 \/ 0 < central_angle c1 c2.
Proof. pose proof (central_angle_bounds c1 c2). lra. Qed.


(** Once the clock is set, a segment only appends samples. *)
Lemma ac_segment_appends flight v seg samples now :
  0 < v ->
  exists new now',
    segment flight v seg (samples, Some now) = Ok (samples ++ new, Some now').
Proof.
  intros Hv. destruct seg as [[lat1 lon1] [lat2 lon2]].
  destruct (central_angle_cases (lat1, lon1) (lat2, lon2)) as [H0 | Hpos].
  - exists [], now. rewrite ac_segment_zero_length by done. by rewrite app_nil_r.
  - rewrite ac_segment_result by done. eauto.
Qed.

Lemma ac_segments_append flight v segs samples now :
  0 < v ->
  exists new now',
    Py.for_each (segment flight v) segs (samples, Some now)
    = Ok (samples ++ new, Some now').
Proof.
  intros Hv. revert samples now.
  induction segs as [| seg segs IH]; intros samples now.
  - exists [], now. cbn. by rewrite app_nil_r.
  - destruct (ac_segment_appends flight v seg samples now Hv)
      as (new1 & now1 & Hseg).
    destruct (IH (samples ++ new1) now1) as (new2 & now2 & Hrest).
    exists (new1 ++ new2), now2.
    rewrite for_each_cons, Hseg, bind_Ok, Hrest. by rewrite <- app_assoc.
Qed.

Lemma speed_positive (v : Q) : Qle_bool v 0 = false -> 0 < Q2R v.
Proof.
  intros H. apply Q2R_pos. apply Qnot_le_lt. intros Hle.
  apply Qle_bool_iff in Hle. congruence.
Qed.


Lemma estimate_total flight :
  is_Some (departure_time flight) -> is_Some (aircraft_speed flight) ->
  exists samples, estimate_trajectory flight = Ok samples.
Proof.
  intros [dep Hdep] [v Hv]. unfold estimate_trajectory.
  destruct (_ <? _)%nat; [eauto |]. rewrite Hv, Hdep.
  destruct (Qle_bool v 0) eqn:Hle; [eauto |].
  apply speed_positive in Hle.
  destruct (ac_segments_append flight (Q2R v)
              (segments (to_coord <$> parse_route (route flight))) [] dep Hle)
    as (new & now' & ->).
  rewrite bind_Ok. eauto.
Qed.

(** The first sample of a flight is its first waypoint at the departure
    time, when the first leg has a length. *)
Lemma estimate_first_sample flight w1 w2 rest dep v :
  parse_route (route flight) = w1 :: w2 :: rest ->
  departure_time flight = Some dep ->
  aircraft_speed flight = Some v -> (0 < v)%Q ->
  0 < central_angle (to_coord w1) (to_coord w2) ->
  exists more,
    estimate_trajectory flight
    = Ok ({| timestamp := dep;
             latitude := Q2R w1.1;
             longitude := Q2R w1.2;
             sample_acid := acid flight |} :: more).
Proof.
  intros Hroute Hdep Hv Hv0 Hpos. unfold estimate_trajectory.
  rewrite Hroute, Hdep, Hv. cbn [length Nat.ltb Nat.leb].
  assert (Hle : Qle_bool v 0 = false).
  { apply not_true_iff_false. intros Hle. apply Qle_bool_iff in Hle.
    by apply Qle_not_lt in Hle. }
  rewrite Hle. pose proof (Q2R_pos _ Hv0) as HvR.
  cbn [fmap list_fmap]. rewrite segments_cons, for_each_cons.
  change (to_coord w1, to_coord w2)
    with ((Q2R w1.1, Q2R w1.2), (Q2R w2.1, Q2R w2.2)).
  rewrite ac_segment_result by done. rewrite bind_Ok.
  set (n := Z.max 1 _). set (tfs := _ / Q2R v * 3600).
  destruct (range_first (n + 1)) as [js ->]; [lia |].
  cbn [fmap list_fmap app].
  match goal with
  | |- context [Py.for_each ?b ?l (?s :: ?ss, Some ?t)] =>
      destruct (ac_segments_append flight (Q2R v) l (s :: ss) t HvR)
        as (new & now' & ->)
  end.
  rewrite bind_Ok. cbn [fst app]. eexists. f_equal. f_equal.
  unfold interpolated_sample. f_equal.
  - replace (0 / IZR n * tfs) with 0 by (unfold Rdiv; lra).
    change 0 with (IZR 0). rewrite int_IZR. lia.
  - unfold Rdiv. lra.
  - unfold Rdiv. lra.
Qed.




(** The sampling that the specification words stops short of the end
    point when the duration is not a multiple of the cadence: for a
    segment of 100 s at a cadence of 90 s its second and last sample is
    at nine tenths of the way. *)
Example specified_samples_stop_short :
  specified_samples 90 (0, 0) (0, 1) 0 100
  = [(0%Z, (0, 0)); (90%Z, (0, 0.9))].
Proof.
  unfold specified_samples.
  assert (Hfl : math.floor (100 / 90) = 1%Z).
  { apply Int_part_unique. lra. }
  rewrite Hfl. change (Py.range (Z.max 1 1 + 1)) with [0%Z; 1%Z].
  cbn [fmap list_fmap].
  assert (Hround : forall z, Py.round (IZR z) = z).
  { intros z. unfold Py.round. rewrite Int_part_IZR.
    destruct (Rlt_dec (IZR z - IZR z) (1 / 2)); [done | lra]. }
  f_equal; [| f_equal]; f_equal.
  - rewrite Rmin_right by lra.
    replace (0 * 90 / 100 * 100) with (IZR 0) by lra. by rewrite Hround.
  - rewrite Rmin_right by lra. cbn. f_equal; lra.
  - rewrite Rmin_right by lra.
    replace (1 * 90 / 100 * 100) with (IZR 90) by lra. by rewrite Hround.
  - rewrite Rmin_right by lra. cbn. f_equal; lra.
Qed.

End Sampling.

Section Congestion.
Import AirspaceCongestion.

(** ** Congestion detection *)


Lemma observe_content flight d s k :
  bucket_content (observe flight d s) k
  = if decide (sample_bucket s = k)
    then {[ acid flight ]} ∪ bucket_content d k
    else bucket_content d k.
Proof.
  unfold observe, bucket_content. destruct (decide (sample_bucket s = k)) as [<- | Hne].
  - by rewrite get_set_eq.
  - by rewrite get_set_ne.
Qed.

Lemma fold_observe_content flight samples d k :
  bucket_content (fold_left (observe flight) samples d) k
  = (if decide (Exists (fun s => sample_bucket s = k) samples)
     then {[ acid flight ]} else ∅) ∪ bucket_content d k.
Proof.
  revert d. induction samples as [| s samples IH]; intros d; cbn [fold_left].
  - destruct (decide (Exists _ [])) as [He | _]; [| set_solver].
    by apply Exists_nil in He.
  - rewrite IH, observe_content.
    destruct (decide (Exists _ (s :: samples))) as [Hc | Hc];
      destruct (decide (sample_bucket s = k)) as [Hk | Hk];
      destruct (decide (Exists _ samples)) as [He | He];
      try set_solver;
      try (apply Exists_cons in Hc as [? | ?]; done);
      exfalso; apply Hc;
      first [by apply Exists_cons_hd | by apply Exists_cons_tl].
Qed.

Lemma fold_observe_NoDup flight samples d :
  NoDup (Dict.keys d) -> NoDup (Dict.keys (fold_left (observe flight) samples d)).
Proof.
  revert d. induction samples as [| s samples IH]; intros d Hnd; [done |].
  cbn [fold_left]. apply IH. unfold observe. by apply NoDup_keys_set.
Qed.

Lemma samples_of_Ok flight samples :
  estimate_trajectory flight = Ok samples -> samples_of flight = samples.
Proof. unfold samples_of. by intros ->. Qed.

Lemma process_content flight d d' k :
  process flight d = Ok d' ->
  bucket_content d' k
  = (if decide (visits flight k) then {[ acid flight ]} else ∅)
      ∪ bucket_content d k.
Proof.
  unfold process. intros Hp. apply bind_Ok_inv in Hp as (samples & Hs & [= <-]).
  rewrite fold_observe_content. pose proof (samples_of_Ok _ _ Hs) as Hso.
  destruct (decide (visits flight k)) as [Hv | Hv];
    destruct (decide (Exists _ samples)) as [He | He]; try done;
    exfalso; unfold visits in Hv; rewrite Hso in Hv; done.
Qed.

Lemma process_NoDup flight d d' :
  process flight d = Ok d' -> NoDup (Dict.keys d) -> NoDup (Dict.keys d').
Proof.
  unfold process. intros Hp. apply bind_Ok_inv in Hp as (samples & Hs & [= <-]).
  apply fold_observe_NoDup.
Qed.

Lemma observed_cons f fs k :
  observed (f :: fs) k
  = (if decide (visits f k) then {[ acid f ]} else ∅) ∪ observed fs k.
Proof.
  unfold observed. rewrite filter_cons.
  destruct (decide (visits f k)); [| set_solver].
  by rewrite fmap_cons, list_to_set_cons.
Qed.

Lemma elem_of_observed a fs k :
  a ∈ observed fs k <-> exists f, f ∈ fs /\ visits f k /\ acid f = a.
Proof.
  unfold observed. rewrite elem_of_list_to_set, list_elem_of_fmap.
  split.
  - intros (f & -> & Hf). apply list_elem_of_filter in Hf as [? ?]. eauto.
  - intros (f & Hf & Hv & <-). exists f. split; [done |].
    by apply list_elem_of_filter.
Qed.

Lemma aggregate_content fs d d' k :
  Py.for_each process fs d = Ok d' ->
  bucket_content d' k = observed fs k ∪ bucket_content d k.
Proof.
  revert d. induction fs as [| f fs IH]; intros d Hrun.
  - cbn in Hrun. injection Hrun as <-. unfold observed. set_solver.
  - rewrite for_each_cons in Hrun.
    apply bind_Ok_inv in Hrun as (d1 & Hp & Hrest).
    rewrite (IH _ Hrest), (process_content _ _ _ _ Hp), observed_cons.
    set_solver.
Qed.

Lemma aggregate_NoDup fs d d' :
  Py.for_each process fs d = Ok d' ->
  NoDup (Dict.keys d) -> NoDup (Dict.keys d').
Proof.
  intros Hrun Hnd.
  eapply (for_each_invariant _ (fun d => NoDup (Dict.keys d)));
    [| exact Hnd | exact Hrun].
  intros f s s' _ Hs Hp. by eapply process_NoDup.
Qed.

(** The aggregation succeeds exactly when every trajectory does. *)
Lemma aggregate_Ok fs d :
  (exists d', Py.for_each process fs d = Ok d')
  <-> Forall (fun f => exists samples, estimate_trajectory f = Ok samples) fs.
Proof.
  revert d. induction fs as [| f fs IH]; intros d.
  - split; [by constructor | cbn; eauto].
  - rewrite for_each_cons, Forall_cons. split.
    + intros [d' Hrun]. apply bind_Ok_inv in Hrun as (d1 & Hp & Hrest).
      unfold process in Hp. apply bind_Ok_inv in Hp as (samples & Hs & _).
      split; [eauto |]. apply (IH d1). eauto.
    + intros [[samples Hs] Hfs].
      assert (Hp : process f d = Ok (fold_left (observe f) samples d))
        by (unfold process; by rewrite Hs).
      rewrite Hp, bind_Ok. by apply IH.
Qed.


Lemma fold_left_collect {A B} (g : A -> option B) (f : list B -> A -> list B) l acc :
  (forall acc x, f acc x = match g x with Some y => acc ++ [y] | None => acc end) ->
  fold_left f l acc = acc ++ omap g l.
Proof.
  intros Hf. revert acc. induction l as [| x l IH]; intros acc; cbn.
  - by rewrite app_nil_r.
  - rewrite IH, Hf. destruct (g x); [by rewrite <- app_assoc | done].
Qed.

Lemma find_hotspots_entries d : find_hotspots d = omap hotspot_entry d.
Proof.
  unfold find_hotspots.
  rewrite (fold_left_collect hotspot_entry); [done |].
  intros acc [[[a b] c] ids]. unfold hotspot_entry. cbn.
  by destruct (5 <? _).
Qed.

Lemma hotspot_entry_bucket e h : hotspot_entry e = Some h -> hotspot_bucket h = e.1.
Proof.
  unfold hotspot_entry. destruct (5 <? _); [| done]. intros [= <-].
  by destruct e as [[[a b] c] ids].
Qed.

Lemma find_hotspots_buckets d h :
  h ∈ find_hotspots d -> hotspot_bucket h ∈ Dict.keys d.
Proof.
  rewrite find_hotspots_entries, list_elem_of_omap. intros (e & He & Hh).
  rewrite (hotspot_entry_bucket _ _ Hh). apply list_elem_of_fmap. eauto.
Qed.

Lemma find_hotspots_cons e d :
  find_hotspots (e :: d)
  = match hotspot_entry e with
    | Some h => h :: find_hotspots d
    | None => find_hotspots d
    end.
Proof. rewrite !find_hotspots_entries. cbn. by destruct (hotspot_entry e). Qed.


Lemma filter_none {A} (P : A -> Prop) `{forall x, Decision (P x)} (l : list A) :
  (forall x, x ∈ l -> ~ P x) -> filter P l = [].
Proof.
  induction l as [| x l IH]; intros Hl; [done |].
  rewrite filter_cons, decide_False by (apply Hl; by left).
  apply IH. intros y Hy. apply Hl. by right.
Qed.

(** What [find_hotspots] holds for one bucket. *)
Lemma find_hotspots_bucket d k :
  NoDup (Dict.keys d) ->
  filter (fun h => hotspot_bucket h = k) (find_hotspots d)
  = if decide (5 < size (bucket_content d k))%nat
    then [hotspot_of k (bucket_content d k)] else [].
Proof.
  induction d as [| [k' ids] d IH]; intros Hnd.
  - rewrite find_hotspots_entries. cbn. unfold bucket_content. cbn.
    rewrite size_empty. by rewrite decide_False by lia.
  - apply NoDup_cons in Hnd as [Hk' Hnd]. rewrite find_hotspots_cons.
    destruct (decide (k = k')) as [-> | Hne].
    + assert (Hrest : filter (fun h => hotspot_bucket h = k') (find_hotspots d)
                      = []).
      { apply filter_none. intros h Hh Hb.
        apply find_hotspots_buckets in Hh. by rewrite Hb in Hh. }
      assert (Hc : bucket_content ((k', ids) :: d) k' = ids).
      { unfold bucket_content. cbn. by rewrite decide_True. }
      rewrite Hc. unfold hotspot_entry. cbn [fst snd].
      destruct (5 <? Z.of_nat (size ids)) eqn:Hsz.
      * apply Z.ltb_lt in Hsz. rewrite decide_True by lia.
        rewrite filter_cons, decide_True, Hrest; [done |].
        by destruct k' as [[a b] c].
      * apply Z.ltb_ge in Hsz. by rewrite decide_False by lia.
    + assert (Hc : bucket_content ((k', ids) :: d) k = bucket_content d k).
      { unfold bucket_content. cbn. by rewrite decide_False. }
      rewrite Hc, <- (IH Hnd).
      destruct (hotspot_entry (k', ids)) as [h |] eqn:Hh; [| done].
      rewrite filter_cons, decide_False; [done |].
      rewrite (hotspot_entry_bucket _ _ Hh). cbn. congruence.
Qed.

(** *** The order of the result *)








Lemma detect_congestion_inv fs hs :
  detect_congestion fs = Ok hs ->
  exists d,
    Py.for_each process fs [] = Ok d /\ NoDup (Dict.keys d) /\
    (forall k, bucket_content d k = observed fs k) /\
    hs = Py.sorted hotspot_leb (find_hotspots d).
Proof.
  unfold detect_congestion. intros Hrun.
  apply bind_Ok_inv in Hrun as (d & Hd & [= <-]).
  exists d. split_and!; [done | | | done].
  - eapply aggregate_NoDup; [exact Hd | constructor].
  - intros k. rewrite (aggregate_content _ _ _ _ Hd).
    change (bucket_content [] k) with (∅ : gset string). set_solver.
Qed.

Lemma detect_congestion_bucket fs hs k :
  detect_congestion fs = Ok hs ->
  filter (fun h => hotspot_bucket h = k) hs
  = if decide (5 < size (observed fs k))%nat
    then [hotspot_of k (observed fs k)] else [].
Proof.
  intros Hrun. apply detect_congestion_inv in Hrun as (d & _ & Hnd & Hc & ->).
  rewrite <- Hc, <- (find_hotspots_bucket d k Hnd).
  set (found := filter _ (find_hotspots d)).
  assert (Hp : filter (fun h => hotspot_bucket h = k)
                 (Py.sorted hotspot_leb (find_hotspots d)) ≡ₚ found).
  { unfold found. by rewrite sorted_Permutation. }
  assert (Hshort : found = [] \/ exists h, found = [h]).
  { unfold found. rewrite find_hotspots_bucket by done.
    destruct (decide _); eauto. }
  destruct Hshort as [Hf | [h Hf]]; rewrite Hf in *.
  - by apply Permutation_nil_r.
  - by apply Permutation_singleton_r.
Qed.

Lemma detect_congestion_member fs hs h :
  detect_congestion fs = Ok hs ->
  h ∈ hs <->
  (5 < size (observed fs (hotspot_bucket h)))%nat /\
  h = hotspot_of (hotspot_bucket h) (observed fs (hotspot_bucket h)).
Proof.
  intros Hrun.
  pose proof (detect_congestion_bucket fs hs (hotspot_bucket h) Hrun) as Hb.
  split.
  - intros Hin.
    assert (Hin' : h ∈ filter (fun h' => hotspot_bucket h' = hotspot_bucket h) hs)
      by (by apply list_elem_of_filter).
    rewrite Hb in Hin'. destruct (decide _); [| by apply elem_of_nil in Hin'].
    by apply list_elem_of_singleton in Hin'.
  - intros [Hsz Hh]. rewrite decide_True in Hb by done.
    assert (Hin' : h ∈ filter (fun h' => hotspot_bucket h' = hotspot_bucket h) hs).
    { rewrite Hb, <- Hh. by apply list_elem_of_singleton. }
    by apply list_elem_of_filter in Hin' as [_ ?].
Qed.




(** *** The threshold *)

Lemma visits_estimated f k :
  visits f k -> exists samples, estimate_trajectory f = Ok samples.
Proof.
  unfold visits, samples_of.
  destruct (estimate_trajectory f) as [samples | e]; [eauto |].
  intros He. by apply Exists_nil in He.
Qed.

Lemma detect_congestion_total fs :
  Forall (fun f => exists samples, estimate_trajectory f = Ok samples) fs ->
  exists hs, detect_congestion fs = Ok hs.
Proof.
  intros Hfs. apply (aggregate_Ok fs []) in Hfs as [d Hd].
  unfold detect_congestion. rewrite Hd, bind_Ok. eauto.
Qed.

Lemma has_schedule_estimated f :
  has_schedule f -> exists samples, estimate_trajectory f = Ok samples.
Proof. intros [? ?]. by apply estimate_total. Qed.

Lemma observed_all fs k :
  Forall (fun f => visits f k) fs -> observed fs k = list_to_set (acid <$> fs).
Proof.
  intros Hall. unfold observed. f_equal. f_equal.
  induction Hall as [| f fs Hf Hfs IH]; [done |].
  by rewrite filter_cons, decide_True, IH.
Qed.



#[local] Open Scope R_scope.

Lemma documented_route_parsed name :
  parse_route (route (on_documented_route name))
  = [((4997 # 100)%Q, (-22187 # 200)%Q); ((1253 # 25)%Q, (-556 # 5)%Q)].
Proof. vm_compute. reflexivity. Qed.

Lemma Q2R_make n d : Q2R (n # d) = IZR n / IZR (Z.pos d).
Proof. reflexivity. Qed.

Lemma on_documented_route_visits name :
  visits (on_documented_route name) (49, -111, 1699999200)%Z.
Proof.
  destruct (estimate_first_sample (on_documented_route name)
              ((4997 # 100)%Q, (-22187 # 200)%Q)
              ((1253 # 25)%Q, (-556 # 5)%Q) [] 1700000000 (inject_Z 450))
    as [more Hest].
  - apply documented_route_parsed.
  - reflexivity.
  - reflexivity.
  - reflexivity.
  - unfold to_coord. cbn [fst snd]. rewrite !Q2R_make.
    apply central_angle_latitudes; lra.
  - unfold visits. rewrite (samples_of_Ok _ _ Hest). apply Exists_cons_hd.
    unfold sample_bucket, get_sector, get_time_window, math.floor.
    cbn [latitude longitude timestamp fst snd]. rewrite !Q2R_make.
    rewrite (Int_part_unique _ 49) by lra.
    rewrite (Int_part_unique _ (-111)) by lra.
    reflexivity.
Qed.

Lemma on_documented_route_schedule name : has_schedule (on_documented_route name).
Proof. split; eexists; reflexivity. Qed.


(** *** Independence from the input order *)







End Congestion.

Section Separation.
Import FlightAnalysis.

(** ** Loss-of-separation detection *)


(** *** The decision for one pair *)

Lemma item_Some {K V} `{EqDecision K} (k : K) (d : Dict.t K V) v :
  Dict.get k d = Some v -> Dict.item k d = Ok v.
Proof. unfold Dict.item. by intros ->. Qed.

Lemma check_pair_decision flight_objects t acid1 pos1 flight1 acid2 pos2 flight2 st :
  Dict.get acid2 flight_objects = Some flight2 ->
  check_pair flight_objects t acid1 pos1 flight1 (acid2, pos2) st
  = if decide (vertically_separated flight1 flight2) then Ok st
    else if Rlt_dec (6371 * central_angle pos1 pos2 / 1.852) 5
         then report t acid1 acid2 flight1 flight2
                (6371 * central_angle pos1 pos2 / 1.852) st
         else Ok st.
Proof.
  intros Hf2. destruct st as [conflicts active]. unfold check_pair.
  rewrite (item_Some _ _ _ Hf2), bind_Ok.
  destruct (decide (vertically_separated flight1 flight2)) as [Hv | Hv].
  - destruct Hv as (alt1 & alt2 & -> & -> & Hle).
    apply Z.leb_le in Hle. by rewrite Hle.
  - assert (Hnot : match altitude flight1, altitude flight2 with
                   | Some alt1, Some alt2 => VERT_SEP_FT <=? Z.abs (alt1 - alt2)
                   | _, _ => false
                   end = false).
    { destruct (altitude flight1) as [alt1 |] eqn:H1; [| done].
      destruct (altitude flight2) as [alt2 |] eqn:H2; [| done].
      apply Z.leb_gt. destruct (Z.le_gt_cases VERT_SEP_FT (Z.abs (alt1 - alt2)));
        [| done].
      exfalso. apply Hv. by exists alt1, alt2. }
    rewrite Hnot, horizontal_distance_nm_result, bind_Ok.
    unfold HORIZ_SEP_NM. replace 5.0%R with 5%R by lra.
    destruct (Rlt_dec _ 5); [| done].
    unfold report. cbn [fst snd]. destruct (decide _); [done |].
    by destruct (altitude flight1), (altitude flight2).
Qed.

(** *** One report per pair *)

Lemma pair_key_sym a b : pair_key a b = pair_key b a.
Proof.
  unfold pair_key, String.ltb.
  pose proof (String.compare_antisym a b) as Hanti.
  destruct (String.compare a b) eqn:Hab, (String.compare b a) eqn:Hba;
    cbn in Hanti; try discriminate; try done.
  apply String.compare_eq_iff in Hab. by subst.
Qed.


Lemma report_once t acid1 acid2 f1 f2 dist st st' :
  report t acid1 acid2 f1 f2 dist st = Ok st' ->
  reported_once st -> reported_once st'.
Proof.
  unfold report. destruct st as [conflicts active]. cbn [fst snd].
  destruct (decide _) as [Hin | Hnin]; [by intros [= <-] |].
  destruct (altitude f1) as [alt1 |]; [| done].
  destruct (altitude f2) as [alt2 |]; [| done].
  intros [= <-] [Hnd Hsub]. cbn [fst snd] in *. split; cbn [fst snd].
  - rewrite fmap_app. apply NoDup_app. split_and!; [done | | apply NoDup_singleton].
    intros k Hk Hk'. apply list_elem_of_singleton in Hk' as ->.
    apply list_elem_of_fmap in Hk as (r & Hr & Hin). apply Hnin.
    unfold record_key in Hr. cbn in Hr. rewrite Hr. by apply Hsub.
  - intros r Hr. apply elem_of_app in Hr as [Hr | Hr].
    + apply elem_of_union_r. by apply Hsub.
    + apply list_elem_of_singleton in Hr as ->. apply elem_of_union_l.
      by apply elem_of_singleton.
Qed.

Lemma check_pair_once fo t acid1 pos1 f1 a2 st st' :
  check_pair fo t acid1 pos1 f1 a2 st = Ok st' ->
  reported_once st -> reported_once st'.
Proof.
  destruct a2 as [acid2 pos2].
  destruct (Dict.get acid2 fo) as [f2 |] eqn:Hf2.
  - rewrite (check_pair_decision _ _ _ _ _ _ _ _ _ Hf2).
    destruct (decide _); [by intros [= <-] |].
    destruct (Rlt_dec _ _); [apply report_once | by intros [= <-]].
  - unfold check_pair, Dict.item. destruct st. by rewrite Hf2.
Qed.

Lemma check_pairs_once fo t l st st' :
  check_pairs fo t l st = Ok st' -> reported_once st -> reported_once st'.
Proof.
  revert st. induction l as [| [acid1 pos1] l IH]; intros st Hrun Hst.
  - cbn in Hrun. by injection Hrun as <-.
  - cbn [check_pairs] in Hrun.
    apply bind_Ok_inv in Hrun as (f1 & _ & Hrun).
    apply bind_Ok_inv in Hrun as (st1 & Hinner & Hrest).
    eapply IH; [exact Hrest |].
    eapply (for_each_invariant _ reported_once); [| exact Hst | exact Hinner].
    intros a2 s s' _ Hs Hc. by eapply check_pair_once.
Qed.

Lemma detect_once fs rs :
  detect_loss_of_separation fs = Ok rs -> NoDup (record_key <$> rs).
Proof.
  unfold detect_loss_of_separation. intros Hrun.
  apply bind_Ok_inv in Hrun as ([ft fo] & _ & Hrun).
  apply bind_Ok_inv in Hrun as (st & Hloop & [= <-]).
  eapply (for_each_invariant _ reported_once) in Hloop as [Hnd _]; [done | |].
  - intros t s s' _ Hs Hm. unfold check_minute in Hm.
    apply bind_Ok_inv in Hm as (l & _ & Hm). by eapply check_pairs_once.
  - split; [constructor |]. intros r Hr. by apply elem_of_nil in Hr.
Qed.


(** *** The inverted index *)

Lemma index_position_at acid pbt t' pos t :
  aircraft_at (index_position acid pbt (t', pos)) t
  = if decide (t = t') then aircraft_at pbt t ++ [(acid, pos)]
    else aircraft_at pbt t.
Proof.
  unfold index_position, aircraft_at.
  destruct (decide (t = t')) as [-> | Hne].
  - by rewrite get_set_eq.
  - by rewrite get_set_ne.
Qed.

Lemma index_trajectory_at acid traj pbt t :
  NoDup (Dict.keys traj) ->
  aircraft_at (fold_left (index_position acid) traj pbt) t
  = aircraft_at pbt t
      ++ match Dict.get t traj with Some pos => [(acid, pos)] | None => [] end.
Proof.
  revert pbt. induction traj as [| [t' pos] traj IH]; intros pbt Hnd.
  - cbn. by rewrite app_nil_r.
  - apply NoDup_cons in Hnd as [Ht' Hnd]. cbn [fst] in Ht'.
    cbn [fold_left Dict.get].
    rewrite IH, index_position_at by done.
    destruct (decide (t = t')) as [-> | Hne]; [| done].
    apply get_None in Ht'. rewrite Ht'. by rewrite app_nil_r.
Qed.

Lemma occupants_cons acid traj ft t :
  occupants ((acid, traj) :: ft) t
  = match Dict.get t traj with Some pos => [(acid, pos)] | None => [] end
      ++ occupants ft t.
Proof. unfold occupants. cbn. by destruct (Dict.get t traj). Qed.

Lemma invert_from_at ft pbt t :
  Forall (fun e => NoDup (Dict.keys e.2)) ft ->
  aircraft_at
    (fold_left (fun position_by_time '(acid, traj) =>
                  fold_left (index_position acid) traj position_by_time)
               ft pbt) t
  = aircraft_at pbt t ++ occupants ft t.
Proof.
  revert pbt. induction ft as [| [acid traj] ft IH]; intros pbt Hft.
  - cbn. by rewrite app_nil_r.
  - apply Forall_cons in Hft as [Hnd Hft]. cbn [fold_left].
    rewrite IH, index_trajectory_at, occupants_cons by done.
    by rewrite app_assoc.
Qed.

Lemma invert_at ft t :
  Forall (fun e => NoDup (Dict.keys e.2)) ft ->
  aircraft_at (invert ft) t = occupants ft t.
Proof. intros Hft. unfold invert. by rewrite invert_from_at. Qed.

Lemma index_position_inhabited acid pbt e :
  inhabited pbt -> inhabited (index_position acid pbt e).
Proof.
  destruct e as [t' pos]. intros Hin t l. unfold index_position.
  destruct (decide (t = t')) as [-> | Hne].
  - rewrite get_set_eq. intros [= <-]. by destruct (default [] _).
  - rewrite get_set_ne by done. apply Hin.
Qed.

Lemma invert_inhabited ft : inhabited (invert ft).
Proof.
  unfold invert.
  assert (Hgen : forall pbt, inhabited pbt ->
            inhabited (fold_left
                         (fun position_by_time '(acid, traj) =>
                            fold_left (index_position acid) traj position_by_time)
                         ft pbt)).
  { induction ft as [| [acid traj] ft IH]; intros pbt Hin; [done |].
    cbn [fold_left]. apply IH. clear IH. revert pbt Hin.
    induction traj as [| e traj IHt]; intros pbt Hin; [done |].
    cbn [fold_left]. apply IHt. by apply index_position_inhabited. }
  apply Hgen. intros t l. done.
Qed.

Lemma invert_item ft t :
  Forall (fun e => NoDup (Dict.keys e.2)) ft ->
  t ∈ Dict.keys (invert ft) ->
  Dict.item t (invert ft) = Ok (occupants ft t) /\ occupants ft t <> [].
Proof.
  intros Hft Ht. rewrite <- (invert_at ft t Hft). unfold aircraft_at, Dict.item.
  destruct (Dict.get t (invert ft)) as [l |] eqn:Hg.
  - split; [done |]. cbn. by eapply invert_inhabited.
  - apply get_None in Hg. done.
Qed.

Lemma invert_keys ft t :
  Forall (fun e => NoDup (Dict.keys e.2)) ft ->
  occupants ft t <> [] -> t ∈ Dict.keys (invert ft).
Proof.
  intros Hft Hocc. destruct (decide (t ∈ Dict.keys (invert ft))) as [? | Hn]; [done |].
  apply get_None in Hn. exfalso. apply Hocc.
  rewrite <- (invert_at ft t Hft). unfold aircraft_at. by rewrite Hn.
Qed.

Lemma invert_NoDup ft : NoDup (Dict.keys (invert ft)).
Proof.
  unfold invert.
  assert (Hgen : forall pbt, NoDup (Dict.keys pbt) ->
            NoDup (Dict.keys
                     (fold_left
                        (fun position_by_time '(acid, traj) =>
                           fold_left (index_position acid) traj position_by_time)
                        ft pbt))).
  { induction ft as [| [acid traj] ft IH]; intros pbt Hnd; [done |].
    cbn [fold_left]. apply IH. clear IH. revert pbt Hnd.
    induction traj as [| [t pos] traj IHt]; intros pbt Hnd; [done |].
    cbn [fold_left]. apply IHt. unfold index_position.
    by apply NoDup_keys_set. }
  apply Hgen. constructor.
Qed.

(** The occupants of a minute come from distinct trajectories. *)
Lemma occupants_acids ft t :
  fst <$> occupants ft t `sublist_of` Dict.keys ft.
Proof.
  induction ft as [| [acid traj] ft IH]; [done |].
  rewrite occupants_cons. unfold Dict.keys in *. cbn [fmap list_fmap fst].
  destruct (Dict.get t traj); cbn.
  - by apply sublist_skip.
  - by apply sublist_cons.
Qed.

(** *** Step 1: the trajectories *)

Lemma preprocess_result f ft fo :
  exists traj,
    generate_4d_trajectory f (flight_path f) 60 = Ok traj /\
    preprocess f (ft, fo)
    = Ok (match traj with [] => ft | _ => Dict.set (acid f) traj ft end,
          Dict.set (acid f) f fo).
Proof.
  unfold preprocess, flight_path.
  destruct (get_full_flight_path f) as [| w path] eqn:Hpath.
  - exists []. split; [apply generate_empty_path | done].
  - destruct (generate_total f (to_coord <$> w :: path)) as [traj Htraj].
    exists traj. split; [done |]. rewrite Htraj, bind_Ok. by destruct traj.
Qed.

Lemma keys_elem_get {K V} `{EqDecision K} (k : K) (d : Dict.t K V) :
  k ∈ Dict.keys d <-> is_Some (Dict.get k d).
Proof.
  rewrite <- not_eq_None_Some, get_None.
  destruct (decide (k ∈ Dict.keys d)); tauto.
Qed.

Lemma preprocess_registered fs f st st' :
  f ∈ fs -> preprocess f st = Ok st' -> registered fs st -> registered fs st'.
Proof.
  destruct st as [ft fo]. intros Hf Hrun (Hnd & Htraj & Hobj & Hfo).
  destruct (preprocess_result f ft fo) as (traj & Hgen & Hres).
  rewrite Hres in Hrun. injection Hrun as <-. cbn [fst snd] in *.
  assert (Hfo' : forall a g, Dict.get a (Dict.set (acid f) f fo) = Some g ->
                   g ∈ fs /\ acid g = a).
  { intros a g. destruct (decide (acid f = a)) as [<- | Hne].
    - rewrite get_set_eq. by intros [= <-].
    - rewrite get_set_ne by done. apply Hfo. }
  assert (Hobj' : forall a, a ∈ Dict.keys ft ->
                    is_Some (Dict.get a (Dict.set (acid f) f fo))).
  { intros a Ha. destruct (decide (acid f = a)) as [<- | Hne].
    - rewrite get_set_eq. eauto.
    - rewrite get_set_ne by done. by apply Hobj. }
  destruct traj as [| e traj].
  - split_and!; done.
  - split_and!; cbn [fst snd]; [by apply NoDup_keys_set | | | done].
    + intros a traj'. destruct (decide (acid f = a)) as [<- | Hne].
      * rewrite get_set_eq. intros [= <-].
        split_and!; [by eapply generate_NoDup | done | eauto].
      * rewrite get_set_ne by done. apply Htraj.
    + intros a Ha. apply elem_of_keys_set in Ha as [-> | Ha]; [| by apply Hobj'].
      rewrite get_set_eq. eauto.
Qed.

Lemma preprocess_all fs :
  exists ft fo,
    Py.for_each preprocess fs ([], []) = Ok (ft, fo) /\ registered fs (ft, fo).
Proof.
  destruct (for_each_total preprocess fs) with (st := (@nil (string * trajectory), @nil (string * Flight)))
    as [[ft fo] Hrun].
  { intros f [ft fo] _. destruct (preprocess_result f ft fo) as (traj & _ & ->).
    eauto. }
  exists ft, fo. split; [done |].
  eapply (for_each_invariant _ (registered fs)); [| | exact Hrun].
  - intros f st st' Hf Hst Hp. by eapply preprocess_registered.
  - split_and!; cbn; [constructor | done | | done].
    intros a Ha. by apply elem_of_nil in Ha.
Qed.

Lemma registered_trajectories fs ft fo :
  registered fs (ft, fo) -> Forall (fun e => NoDup (Dict.keys e.2)) ft.
Proof.
  intros (Hnd & Htraj & _). apply Forall_forall. intros [a traj] Hin.
  apply (elem_get_Some _ _ _ Hnd) in Hin. by apply Htraj in Hin as [? _].
Qed.

(** The detector, after step 1. *)
Lemma detect_steps fs :
  exists ft fo,
    registered fs (ft, fo) /\
    Py.for_each preprocess fs ([], []) = Ok (ft, fo) /\
    detect_loss_of_separation fs
    = st ← Py.for_each (check_minute fo (invert ft))
                       (Py.sorted Z.leb (Dict.keys (invert ft))) ([], ∅);
      Ok st.1.
Proof.
  destruct (preprocess_all fs) as (ft & fo & Hrun & Hreg).
  exists ft, fo. split; [done |]. split; [done |].
  unfold detect_loss_of_separation. by rewrite Hrun, bind_Ok.
Qed.

Lemma Z_leb_total x y : (x <=? y) = true \/ (y <=? x) = true.
Proof. destruct (Z.leb_spec x y), (Z.leb_spec y x); auto; lia. Qed.

Lemma sorted_times_ascending (l : list Z) :
  StronglySorted (fun a b => (a <=? b) = true) (Py.sorted Z.leb l).
Proof.
  apply sorted_StronglySorted; [apply Z_leb_total |].
  intros x y z Hxy Hyz. apply Z.leb_le in Hxy, Hyz. apply Z.leb_le. lia.
Qed.

Lemma sorted_times_keys ft t :
  t ∈ Py.sorted Z.leb (Dict.keys (invert ft)) <-> t ∈ Dict.keys (invert ft).
Proof. by rewrite sorted_Permutation. Qed.

Lemma check_minute_occupants fs ft fo t st :
  registered fs (ft, fo) ->
  t ∈ Dict.keys (invert ft) ->
  check_minute fo (invert ft) t st = check_pairs fo t (occupants ft t) st.
Proof.
  intros Hreg Ht. unfold check_minute.
  destruct (invert_item ft t (registered_trajectories _ _ _ Hreg) Ht) as [-> _].
  by rewrite bind_Ok.
Qed.

(** *** Vertical separation *)

Lemma vertically_separated_sym f g :
  vertically_separated f g -> vertically_separated g f.
Proof.
  intros (a & b & Ha & Hb & Hle). exists b, a. split_and!; [done | done |].
  unfold VERT_SEP_FT in *. lia.
Qed.


Lemma occupants_registered fs ft fo t :
  registered fs (ft, fo) ->
  NoDup (fst <$> occupants ft t) /\
  (forall a, a ∈ fst <$> occupants ft t ->
             a ∈ Dict.keys ft /\ is_Some (Dict.get a fo)).
Proof.
  intros (Hnd & _ & Hobj & _). cbn [fst snd] in *.
  pose proof (occupants_acids ft t) as Hsub. split.
  - by eapply sublist_NoDup.
  - intros a Ha. assert (a ∈ Dict.keys ft) by (by eapply elem_of_sublist).
    split; [done |]. by apply Hobj.
Qed.


(** *** Two flights *)

Lemma StronglySorted_filter {A} (R : A -> A -> Prop) (P : A -> Prop)
    `{forall x, Decision (P x)} (l : list A) :
  StronglySorted R l -> StronglySorted R (filter P l).
Proof.
  induction 1 as [| x l Hs IH Hall]; [constructor |].
  rewrite filter_cons. destruct (decide (P x)); [| done].
  constructor; [done |]. apply Forall_forall. intros y Hy.
  apply list_elem_of_filter in Hy as [_ Hy].
  rewrite Forall_forall in Hall. by apply Hall.
Qed.

Section TwoFlights.
Variables (f1 f2 : Flight) (traj1 traj2 : trajectory).
Hypothesis Hacid : acid f1 <> acid f2.
Hypothesis Hgen1 : generate_4d_trajectory f1 (flight_path f1) 60 = Ok traj1.
Hypothesis Hgen2 : generate_4d_trajectory f2 (flight_path f2) 60 = Ok traj2.
Hypothesis Hclose : ~ vertically_separated f1 f2.

Let ft : Dict.t string trajectory :=
  match traj1 with [] => [] | _ => [(acid f1, traj1)] end
    ++ match traj2 with [] => [] | _ => [(acid f2, traj2)] end.
Let fo : Dict.t string Flight := [(acid f1, f1); (acid f2, f2)].

Lemma two_preprocess :
  Py.for_each preprocess [f1; f2] ([], []) = Ok (ft, fo).
Proof.
  rewrite for_each_cons.
  destruct (preprocess_result f1 [] []) as (t1 & Hg1 & ->).
  rewrite Hgen1 in Hg1. injection Hg1 as <-. rewrite bind_Ok, for_each_cons.
  destruct (preprocess_result f2
              (match traj1 with [] => [] | _ => Dict.set (acid f1) traj1 [] end)
              (Dict.set (acid f1) f1 [])) as (t2 & Hg2 & ->).
  rewrite Hgen2 in Hg2. injection Hg2 as <-. rewrite bind_Ok, for_each_nil.
  unfold ft, fo. f_equal. f_equal.
  - destruct traj1 as [| e1 r1], traj2 as [| e2 r2]; cbn [Dict.set app]; try done.
    by rewrite decide_False by done.
  - cbn [Dict.set]. by rewrite decide_False by done.
Qed.

Lemma two_registered : registered [f1; f2] (ft, fo).
Proof.
  destruct (preprocess_all [f1; f2]) as (ft' & fo' & Hrun & Hreg).
  rewrite two_preprocess in Hrun. by injection Hrun as <- <-.
Qed.

Lemma two_occupants t :
  occupants ft t
  = match Dict.get t traj1 with Some pos => [(acid f1, pos)] | None => [] end
      ++ match Dict.get t traj2 with Some pos => [(acid f2, pos)] | None => [] end.
Proof.
  assert (Hone : forall (traj : trajectory) a rest,
            occupants (match traj with [] => [] | _ => [(a, traj)] end ++ rest) t
            = match Dict.get t traj with Some pos => [(a, pos)] | None => [] end
                ++ occupants rest t).
  { intros traj a rest. destruct traj as [| e r]; [done |].
    apply occupants_cons. }
  unfold ft. rewrite Hone.
  rewrite <- (app_nil_r (match traj2 with [] => [] | _ => _ end)), Hone.
  by rewrite app_nil_r.
Qed.

Lemma two_minute t st :
  t ∈ Dict.keys (invert ft) ->
  check_minute fo (invert ft) t st
  = if decide (close_at traj1 traj2 t)
    then report t (acid f1) (acid f2) f1 f2
           (default 0%R (separation_at traj1 traj2 t)) st
    else Ok st.
Proof.
  intros Ht. rewrite (check_minute_occupants [f1; f2])
    by (done || apply two_registered).
  assert (H1 : Dict.get (acid f1) fo = Some f1).
  { unfold fo. cbn. by rewrite decide_True. }
  assert (H2 : Dict.get (acid f2) fo = Some f2).
  { unfold fo. cbn. rewrite decide_False by done. by rewrite decide_True. }
  rewrite two_occupants.
  assert (Hsep : separation_at traj1 traj2 t
                 = match Dict.get t traj1, Dict.get t traj2 with
                   | Some pos1, Some pos2 =>
                       Some (6371 * central_angle pos1 pos2 / 1.852)%R
                   | _, _ => None
                   end).
  { unfold separation_at. by destruct (Dict.get t traj1), (Dict.get t traj2). }
  destruct (decide (close_at traj1 traj2 t)) as [Hc | Hc];
    unfold close_at in Hc; rewrite Hsep in *;
    destruct (Dict.get t traj1) as [pos1 |], (Dict.get t traj2) as [pos2 |];
    try done; cbn [app check_pairs default];
    rewrite ?(item_Some _ _ _ H1), ?(item_Some _ _ _ H2), ?bind_Ok,
      ?for_each_singleton, ?for_each_nil, ?bind_Ok; try done.
  - rewrite (check_pair_decision _ _ _ _ _ _ _ _ _ H2).
    rewrite decide_False by done.
    destruct (Rlt_dec _ 5) as [Hd | Hd]; [| done].
    by destruct (report _ _ _ _ _ _ _) as [st' | e].
  - rewrite (check_pair_decision _ _ _ _ _ _ _ _ _ H2).
    rewrite decide_False by done.
    by destruct (Rlt_dec _ 5) as [Hd | Hd].
Qed.

Lemma two_loop times :
  (forall t, t ∈ times -> t ∈ Dict.keys (invert ft)) ->
  Py.for_each (check_minute fo (invert ft)) times ([], ∅)
  = match filter (close_at traj1 traj2) times with
    | [] => Ok ([], ∅)
    | t :: _ =>
        report t (acid f1) (acid f2) f1 f2
               (default 0%R (separation_at traj1 traj2 t)) ([], ∅)
    end.
Proof.
  induction times as [| t times IH]; intros Hkeys; [done |].
  rewrite for_each_cons, two_minute by (apply Hkeys; by left).
  rewrite filter_cons. destruct (decide (close_at traj1 traj2 t)) as [Hc | Hc].
  - destruct (report t _ _ _ _ _ _) as [st1 | e] eqn:Hfirst; [| done].
    rewrite bind_Ok. apply for_each_unchanged. intros t' Ht'.
    rewrite two_minute by (apply Hkeys; by right).
    destruct (decide _); [| done].
    unfold report in *. cbn [fst snd] in Hfirst.
    rewrite decide_False in Hfirst by set_solver.
    destruct (altitude f1), (altitude f2); try done.
    injection Hfirst as <-. cbn [fst snd]. rewrite decide_True; [done |].
    set_solver.
  - rewrite bind_Ok. apply IH. intros t' Ht'. apply Hkeys. by right.
Qed.

Lemma two_conflict_minutes :
  filter (close_at traj1 traj2) (Py.sorted Z.leb (Dict.keys (invert ft)))
  = conflict_minutes traj1 traj2.
Proof.
  pose proof (registered_trajectories _ _ _ two_registered) as Hnd.
  unfold conflict_minutes. apply (StronglySorted_Permutation_eq Z.leb).
  - intros x y _ _ Hxy Hyx. apply Z.leb_le in Hxy, Hyx. lia.
  - apply StronglySorted_filter, sorted_times_ascending.
  - apply StronglySorted_filter, sorted_times_ascending.
  - apply NoDup_Permutation.
    + apply NoDup_filter. rewrite sorted_Permutation. apply invert_NoDup.
    + apply NoDup_filter. rewrite sorted_Permutation.
      by eapply generate_NoDup.
    + intros t. rewrite !list_elem_of_filter, !sorted_Permutation.
      split; intros [Hc _]; (split; [done |]).
      * unfold close_at, separation_at in Hc. apply keys_elem_get.
        destruct (Dict.get t traj1); [eauto | done].
      * apply invert_keys; [done |]. rewrite two_occupants.
        unfold close_at, separation_at in Hc.
        destruct (Dict.get t traj1); [done | done].
Qed.

Lemma two_flights_run :
  detect_loss_of_separation [f1; f2]
  = st ← match conflict_minutes traj1 traj2 with
         | [] => Ok ([], ∅)
         | t :: _ =>
             report t (acid f1) (acid f2) f1 f2
                    (default 0%R (separation_at traj1 traj2 t)) ([], ∅)
         end;
    Ok st.1.
Proof.
  unfold detect_loss_of_separation. rewrite two_preprocess, bind_Ok.
  rewrite two_loop by (intros t Ht; by apply sorted_times_keys in Ht).
  by rewrite two_conflict_minutes.
Qed.


(** With an altitude missing the run completes, empty-handed, only
    when the flights never share a minute within 5 nm of each other;
    at the first such minute it raises. *)
Lemma two_flights_missing_altitude :
  altitude f1 = None \/ altitude f2 = None ->
  detect_loss_of_separation [f1; f2]
  = match conflict_minutes traj1 traj2 with
    | [] => Ok []
    | _ :: _ => Raise TypeError
    end.
Proof.
  intros Hnone. rewrite two_flights_run.
  destruct (conflict_minutes traj1 traj2) as [| t ts]; [done |].
  unfold report. cbn [fst snd]. rewrite decide_False by set_solver.
  destruct Hnone as [-> | ->]; [done |]. by destruct (altitude f1).
Qed.
End TwoFlights.



(** *** Two flights on one trajectory *)

Section IdenticalTrajectories.
Variables (f1 f2 : Flight) (traj : trajectory).
Hypothesis Hacid : acid f1 <> acid f2.
Hypothesis Hgen1 : generate_4d_trajectory f1 (flight_path f1) 60 = Ok traj.
Hypothesis Hgen2 : generate_4d_trajectory f2 (flight_path f2) 60 = Ok traj.
Hypothesis Htraj : traj <> [].
Hypothesis Hclose : ~ vertically_separated f1 f2.

Let ft : Dict.t string trajectory := [(acid f1, traj); (acid f2, traj)].
Let fo : Dict.t string Flight := [(acid f1, f1); (acid f2, f2)].

Lemma identical_preprocess :
  Py.for_each preprocess [f1; f2] ([], []) = Ok (ft, fo).
Proof.
  rewrite for_each_cons.
  destruct (preprocess_result f1 [] []) as (traj1 & Hg1 & ->).
  rewrite Hgen1 in Hg1. injection Hg1 as <-. rewrite bind_Ok, for_each_cons.
  destruct (preprocess_result f2
              (match traj with [] => [] | _ => Dict.set (acid f1) traj [] end)
              (Dict.set (acid f1) f1 [])) as (traj2 & Hg2 & ->).
  rewrite Hgen2 in Hg2. injection Hg2 as <-. rewrite bind_Ok, for_each_nil.
  destruct traj as [| e rest]; [done |]. cbn [Dict.set].
  rewrite !decide_False by done. done.
Qed.

Lemma identical_registered : registered [f1; f2] (ft, fo).
Proof.
  destruct (preprocess_all [f1; f2]) as (ft' & fo' & Hrun & Hreg).
  rewrite identical_preprocess in Hrun. by injection Hrun as <- <-.
Qed.

Lemma identical_occupants t :
  occupants ft t
  = match Dict.get t traj with
    | Some pos => [(acid f1, pos); (acid f2, pos)]
    | None => []
    end.
Proof.
  unfold ft. rewrite !occupants_cons. unfold occupants. cbn.
  by destruct (Dict.get t traj).
Qed.

Lemma identical_times t :
  t ∈ Dict.keys (invert ft) <-> t ∈ Dict.keys traj.
Proof.
  pose proof (registered_trajectories _ _ _ identical_registered) as Hnd.
  split.
  - intros Ht. destruct (invert_item ft t Hnd Ht) as [_ Hocc].
    rewrite identical_occupants in Hocc.
    apply keys_elem_get. by destruct (Dict.get t traj).
  - intros Ht. apply invert_keys; [done |]. rewrite identical_occupants.
    apply keys_elem_get in Ht as [pos ->]. done.
Qed.

Lemma identical_minute t st :
  t ∈ Dict.keys (invert ft) ->
  check_minute fo (invert ft) t st
  = report t (acid f1) (acid f2) f1 f2 0 st.
Proof.
  intros Ht. rewrite (check_minute_occupants [f1; f2])
    by (done || apply identical_registered).
  apply identical_times, keys_elem_get in Ht as [pos Hpos].
  rewrite identical_occupants, Hpos. cbn [check_pairs].
  assert (H1 : Dict.get (acid f1) fo = Some f1).
  { unfold fo. cbn. by rewrite decide_True. }
  assert (H2 : Dict.get (acid f2) fo = Some f2).
  { unfold fo. cbn. rewrite decide_False by done. by rewrite decide_True. }
  rewrite (item_Some _ _ _ H1), bind_Ok, for_each_singleton.
  rewrite (check_pair_decision _ _ _ _ _ _ _ _ _ H2).
  rewrite decide_False by done. rewrite central_angle_self.
  replace (6371 * 0 / 1.852)%R with 0%R by lra.
  destruct (Rlt_dec 0 5) as [_ | Hn]; [| lra].
  destruct (report _ _ _ _ _ _ _) as [st' | e]; [| done].
  rewrite !bind_Ok. by rewrite (item_Some _ _ _ H2).
Qed.

Lemma identical_detection :
  exists t0 ts,
    Py.sorted Z.leb (Dict.keys traj) = t0 :: ts /\
    detect_loss_of_separation [f1; f2]
    = st ← report t0 (acid f1) (acid f2) f1 f2 0 ([], ∅); Ok st.1.
Proof.
  unfold detect_loss_of_separation. rewrite identical_preprocess, bind_Ok.
  assert (Hsame : Py.sorted Z.leb (Dict.keys (invert ft))
                  = Py.sorted Z.leb (Dict.keys traj)).
  { apply (StronglySorted_Permutation_eq Z.leb).
    - intros x y _ _ Hxy Hyx. apply Z.leb_le in Hxy, Hyx. lia.
    - apply sorted_times_ascending.
    - apply sorted_times_ascending.
    - rewrite !sorted_Permutation. apply NoDup_Permutation.
      + apply invert_NoDup.
      + by eapply generate_NoDup.
      + apply identical_times. }
  destruct (Py.sorted Z.leb (Dict.keys traj)) as [| t0 ts] eqn:Hsorted.
  { exfalso. apply (f_equal length) in Hsorted.
    rewrite (Permutation_length (sorted_Permutation Z.leb _)) in Hsorted.
    unfold Dict.keys in Hsorted. rewrite length_fmap in Hsorted.
    by destruct traj. }
  exists t0, ts. split; [done |]. rewrite Hsame, for_each_cons.
  assert (Hkeys : forall t, t ∈ t0 :: ts -> t ∈ Dict.keys (invert ft)).
  { intros t Ht. rewrite <- Hsame in Ht. by apply sorted_times_keys in Ht. }
  rewrite identical_minute by (apply Hkeys; by left).
  destruct (report t0 _ _ _ _ _ _) as [st1 | e] eqn:Hfirst; [| done].
  rewrite !bind_Ok. rewrite for_each_unchanged; [done |].
  intros t Ht. rewrite identical_minute by (apply Hkeys; by right).
  unfold report in *. cbn [fst snd] in Hfirst.
  rewrite decide_False in Hfirst by set_solver.
  destruct (altitude f1), (altitude f2); try done.
  injection Hfirst as <-. cbn [fst snd]. rewrite decide_True; [done |].
  set_solver.
Qed.
End IdenticalTrajectories.

(** *** When every altitude is known, the detector returns *)

Lemma report_total t acid1 acid2 f1 f2 dist st :
  is_Some (altitude f1) -> is_Some (altitude f2) ->
  exists st', report t acid1 acid2 f1 f2 dist st = Ok st'.
Proof.
  intros [alt1 H1] [alt2 H2]. unfold report. rewrite H1, H2.
  destruct (decide _); eauto.
Qed.

Lemma check_pairs_total fo t l st :
  (forall a, a ∈ fst <$> l ->
             exists f, Dict.get a fo = Some f /\ is_Some (altitude f)) ->
  exists st', check_pairs fo t l st = Ok st'.
Proof.
  revert st. induction l as [| [acid1 pos1] l IH]; intros st Hl; [cbn; eauto |].
  rewrite fmap_cons in Hl. cbn [fst] in Hl.
  destruct (Hl acid1) as (f1 & Hf1 & Halt1); [by left |].
  cbn [check_pairs]. rewrite (item_Some _ _ _ Hf1), bind_Ok.
  destruct (for_each_total (check_pair fo t acid1 pos1 f1) l) with (st := st)
    as [st1 Hst1].
  { intros [acid2 pos2] s Hin.
    destruct (Hl acid2) as (f2 & Hf2 & Halt2).
    { right. apply list_elem_of_fmap. by exists (acid2, pos2). }
    rewrite (check_pair_decision _ _ _ _ _ _ _ _ _ Hf2).
    destruct (decide _); [eauto |].
    destruct (Rlt_dec _ _); [by apply report_total | eauto]. }
  rewrite Hst1, bind_Ok. apply IH. intros a Ha. apply Hl. by right.
Qed.

Lemma detect_total fs :
  Forall (fun f => is_Some (altitude f)) fs ->
  exists rs, detect_loss_of_separation fs = Ok rs.
Proof.
  intros Halt. destruct (detect_steps fs) as (ft & fo & Hreg & _ & ->).
  destruct (for_each_total (check_minute fo (invert ft))
              (Py.sorted Z.leb (Dict.keys (invert ft))))
    with (st := (@nil ConflictRecord, (∅ : gset (string * string))))
    as [st Hst].
  { intros t s Ht. apply sorted_times_keys in Ht.
    rewrite (check_minute_occupants fs) by done.
    apply check_pairs_total. intros a Ha.
    destruct (occupants_registered fs ft fo t Hreg) as [_ Hocc].
    destruct (Hocc a Ha) as [_ [f Hf]]. exists f. split; [done |].
    destruct Hreg as (_ & _ & _ & Hfo). apply Hfo in Hf as [Hf _].
    rewrite Forall_forall in Halt. by apply Halt. }
  rewrite Hst, bind_Ok. eauto.
Qed.

(** *** The only exception of the detector *)

Lemma report_raises t acid1 acid2 f1 f2 dist st e :
  report t acid1 acid2 f1 f2 dist st = Raise e ->
  e = TypeError /\ (altitude f1 = None \/ altitude f2 = None).
Proof.
  unfold report. destruct (decide _); [done |].
  destruct (altitude f1), (altitude f2); try done; intros [= <-]; auto.
Qed.

Lemma check_pairs_raises fo t l st e :
  (forall a, a ∈ fst <$> l -> is_Some (Dict.get a fo)) ->
  check_pairs fo t l st = Raise e -> e = TypeError.
Proof.
  revert st. induction l as [| [acid1 pos1] l IH]; intros st Hl; [done |].
  rewrite fmap_cons in Hl. cbn [fst] in Hl.
  destruct (Hl acid1) as [f1 Hf1]; [by left |].
  cbn [check_pairs]. rewrite (item_Some _ _ _ Hf1), bind_Ok.
  destruct (Py.for_each _ l st) as [st1 | e1] eqn:Hinner.
  - rewrite bind_Ok. apply IH. intros a Ha. apply Hl. by right.
  - rewrite bind_Raise. intros [= <-].
    eapply (for_each_raises _ (fun e => e = TypeError)); [| exact Hinner].
    intros [acid2 pos2] s e' Hin.
    destruct (Hl acid2) as [f2 Hf2].
    { right. apply list_elem_of_fmap. by exists (acid2, pos2). }
    rewrite (check_pair_decision _ _ _ _ _ _ _ _ _ Hf2).
    destruct (decide _); [done |]. destruct (Rlt_dec _ _); [| done].
    intros Hr. by apply report_raises in Hr as [-> _].
Qed.

(** The detector fails with a [TypeError] only, and only when some
    flight has no altitude. *)
Lemma detect_raises fs e :
  detect_loss_of_separation fs = Raise e ->
  e = TypeError /\ exists f, f ∈ fs /\ altitude f = None.
Proof.
  intros Hrun. split.
  - destruct (detect_steps fs) as (ft & fo & Hreg & _ & Hdet).
    rewrite Hdet in Hrun.
    destruct (Py.for_each _ _ _) as [st | e1] eqn:Hloop; [done |].
    rewrite bind_Raise in Hrun. injection Hrun as <-.
    eapply (for_each_raises _ (fun e => e = TypeError)); [| exact Hloop].
    intros t s e' Ht. apply sorted_times_keys in Ht.
    rewrite (check_minute_occupants fs) by done.
    apply check_pairs_raises. intros a Ha.
    destruct (occupants_registered fs ft fo t Hreg) as [_ Hocc].
    by apply Hocc.
  - destruct (decide (Exists (fun f => altitude f = None) fs)) as [Hex | Hn].
    + apply Exists_exists in Hex as (f & Hf & Hnone). eauto.
    + destruct (detect_total fs) as [rs Hrs]; [| congruence].
      apply Forall_forall. intros f Hf.
      destruct (altitude f) eqn:Halt; [eauto |].
      exfalso. apply Hn. apply Exists_exists. eauto.
Qed.


Lemma documented_path name alt dep speed :
  flight_path (a_flight name (Some documented_route) alt dep speed)
  = [to_coord ((4997 # 100)%Q, (-22187 # 200)%Q);
     to_coord ((1253 # 25)%Q, (-556 # 5)%Q)].
Proof.
  unfold flight_path.
  assert (Hpath : get_full_flight_path
                    (a_flight name (Some documented_route) alt dep speed)
                  = [((4997 # 100)%Q, (-22187 # 200)%Q);
                     ((1253 # 25)%Q, (-556 # 5)%Q)])
    by (vm_compute; reflexivity).
  by rewrite Hpath.
Qed.

Lemma documented_leg :
  (0 < central_angle (to_coord ((4997 # 100)%Q, (-22187 # 200)%Q))
                     (to_coord ((1253 # 25)%Q, (-556 # 5)%Q)))%R.
Proof.
  unfold to_coord. cbn [fst snd]. unfold Q2R. cbn [Qnum Qden].
  apply central_angle_latitudes; lra.
Qed.

Lemma documented_trajectory name alt :
  exists traj,
    generate_4d_trajectory
      (a_flight name (Some documented_route) alt (Some 1700000000)
                (Some (inject_Z 450)))
      (flight_path (a_flight name (Some documented_route) alt
                             (Some 1700000000) (Some (inject_Z 450)))) 60
    = Ok traj /\ traj <> [].
Proof.
  rewrite documented_path.
  eapply generate_nonempty; [reflexivity | done | reflexivity | done |].
  apply documented_leg.
Qed.



(** Claim C2 at the failing input: two flights along one route at the
    same time, the first without an altitude.  The vertical test is
    skipped, the horizontal distance is 0, and building the record
    subtracts the missing altitude: the run ends in a [TypeError]. *)
Theorem missing_altitude_type_error :
  detect_loss_of_separation
    [ a_flight "F1" (Some documented_route) None (Some 1700000000)
               (Some (inject_Z 450));
      a_flight "F2" (Some documented_route) (Some 35000) (Some 1700000000)
               (Some (inject_Z 450)) ]
  = Raise TypeError.
Proof.
  destruct (documented_trajectory "F1" None) as (traj & Hgen & Hne).
  set (f1 := a_flight "F1" (Some documented_route) None (Some 1700000000)
                      (Some (inject_Z 450))) in *.
  set (f2 := a_flight "F2" (Some documented_route) (Some 35000)
                      (Some 1700000000) (Some (inject_Z 450))).
  assert (Hacid : acid f1 <> acid f2) by done.
  assert (Hgen2 : generate_4d_trajectory f2 (flight_path f2) 60 = Ok traj).
  { rewrite <- Hgen. unfold f1, f2. rewrite !documented_path.
    by apply generate_same_inputs. }
  assert (Hclose : ~ vertically_separated f1 f2).
  { intros (a1 & a2 & H1 & _). discriminate. }
  destruct (identical_detection f1 f2 traj Hacid Hgen Hgen2 Hne Hclose)
    as (t0 & ts & _ & Hrun).
  rewrite Hrun. unfold report. cbn [fst snd].
  rewrite decide_False by set_solver. done.
Qed.

(** *** Which flights can appear in a record *)

Section Mentions.
Variable P : string -> Prop.

Let named (st : detection) : Prop :=
  Forall (fun r => P (flight1 r) /\ P (flight2 r)) st.1.

Lemma report_mentions t acid1 acid2 f1 f2 dist st st' :
  P acid1 -> P acid2 ->
  report t acid1 acid2 f1 f2 dist st = Ok st' -> named st -> named st'.
Proof.
  intros H1 H2. unfold report, named. destruct (decide _); [by intros [= <-] |].
  destruct (altitude f1), (altitude f2); try done.
  intros [= <-] Hst. cbn [fst]. apply Forall_app. split; [done |].
  by repeat constructor.
Qed.

Lemma check_pair_mentions fo t acid1 pos1 f1 a2 st st' :
  P acid1 -> P a2.1 ->
  check_pair fo t acid1 pos1 f1 a2 st = Ok st' -> named st -> named st'.
Proof.
  destruct a2 as [acid2 pos2]. intros H1 H2.
  destruct (Dict.get acid2 fo) as [f2 |] eqn:Hf2.
  - rewrite (check_pair_decision _ _ _ _ _ _ _ _ _ Hf2).
    destruct (decide _); [by intros [= <-] |].
    destruct (Rlt_dec _ _); [by apply report_mentions | by intros [= <-]].
  - unfold check_pair, Dict.item. destruct st. by rewrite Hf2.
Qed.

Lemma check_pairs_mentions fo t l st st' :
  Forall (fun a => P a.1) l ->
  check_pairs fo t l st = Ok st' -> named st -> named st'.
Proof.
  revert st. induction l as [| [acid1 pos1] l IH]; intros st Hl Hrun Hst.
  - cbn in Hrun. by injection Hrun as <-.
  - apply Forall_cons in Hl as [H1 Hl]. cbn [check_pairs] in Hrun.
    apply bind_Ok_inv in Hrun as (f1 & _ & Hrun).
    apply bind_Ok_inv in Hrun as (st1 & Hinner & Hrest).
    eapply IH; [done | exact Hrest |].
    eapply (for_each_invariant _ named); [| exact Hst | exact Hinner].
    intros a2 s s' Ha2 Hs Hc. rewrite Forall_forall in Hl.
    eapply check_pair_mentions; [exact H1 | by apply Hl | exact Hc | done].
Qed.
End Mentions.

(** Both flights of a record have a non-empty trajectory. *)
Lemma detect_mentions fs rs r :
  detect_loss_of_separation fs = Ok rs -> r ∈ rs ->
  forall a, a = flight1 r \/ a = flight2 r ->
  exists f traj,
    f ∈ fs /\ acid f = a /\
    generate_4d_trajectory f (flight_path f) 60 = Ok traj /\ traj <> [].
Proof.
  intros Hrun Hr. destruct (detect_steps fs) as (ft & fo & Hreg & _ & Hdet).
  rewrite Hdet in Hrun. apply bind_Ok_inv in Hrun as (st & Hloop & [= <-]).
  set (P := fun a : string => a ∈ Dict.keys ft).
  assert (Hnamed : Forall (fun r => P (flight1 r) /\ P (flight2 r)) st.1).
  { eapply (for_each_invariant _
              (fun st => Forall (fun r => P (flight1 r) /\ P (flight2 r)) st.1));
      [| | exact Hloop]; [| by constructor].
    intros t s s' Ht Hs Hm. apply sorted_times_keys in Ht.
    rewrite (check_minute_occupants fs) in Hm by done.
    eapply (check_pairs_mentions P); [| exact Hm | exact Hs].
    apply Forall_forall. intros [a pos] Hin.
    destruct (occupants_registered fs ft fo t Hreg) as [_ Hocc].
    apply Hocc. apply list_elem_of_fmap. by exists (a, pos). }
  rewrite Forall_forall in Hnamed. specialize (Hnamed r Hr) as [H1 H2].
  intros a Ha.
  assert (HPa : P a) by (by destruct Ha as [-> | ->]).
  apply keys_elem_get in HPa as [traj Htraj].
  destruct Hreg as (_ & Hft & _). apply Hft in Htraj as (_ & Hne & f & ? & ? & ?).
  by exists f, traj.
Qed.

Lemma NoDup_acid_inj (fs : list Flight) f g :
  NoDup (acid <$> fs) -> f ∈ fs -> g ∈ fs -> acid f = acid g -> f = g.
Proof.
  intros Hnd Hf Hg Heq.
  apply list_elem_of_lookup in Hf as [i Hi], Hg as [j Hj].
  assert (i = j).
  { eapply NoDup_lookup; [exact Hnd | |].
    - rewrite list_lookup_fmap, Hi. reflexivity.
    - rewrite list_lookup_fmap, Hj. cbn. by rewrite Heq. }
  subst. congruence.
Qed.

(** Claim C10.  A flight whose departure time is [None] or 0 gets the
    empty trajectory from [generate_4d_trajectory], whatever its path and
    speed; step 1 registers no trajectory for it and raises nothing; and
    among flights with distinct identifiers no record names it. *)
Theorem no_departure_time_excluded (f : Flight) :
  departure_time f = None \/ departure_time f = Some 0 ->
  (forall path step, generate_4d_trajectory f path step = Ok []) /\
  (forall ft fo, preprocess f (ft, fo) = Ok (ft, Dict.set (acid f) f fo)) /\
  (forall fs rs r,
     NoDup (acid <$> fs) -> f ∈ fs ->
     detect_loss_of_separation fs = Ok rs -> r ∈ rs ->
     flight1 r <> acid f /\ flight2 r <> acid f).
Proof.
  intros Hdep. split_and!.
  - intros path step. by apply generate_without_departure.
  - intros ft fo. destruct (preprocess_result f ft fo) as (traj & Hgen & ->).
    rewrite generate_without_departure in Hgen by done. by injection Hgen as <-.
  - intros fs rs r Hnd Hf Hrun Hr.
    assert (Hno : forall a, a = flight1 r \/ a = flight2 r -> a <> acid f).
    { intros a Ha Heq.
      destruct (detect_mentions fs rs r Hrun Hr a Ha)
        as (g & traj & Hg & Hacid & Hgen & Hne).
      assert (g = f) as -> by (eapply NoDup_acid_inj; [done.. | congruence]).
      rewrite generate_without_departure in Hgen by done.
      by injection Hgen as <-. }
    split; apply Hno; auto.
Qed.

(** The statement holds of a flight along the documented route, at
    450 kt, with departure time 0. *)
Lemma no_departure_time_excluded_witness :
  let f := a_flight "F0" (Some documented_route) (Some 35000) (Some 0)
                    (Some (inject_Z 450)) in
  departure_time f = Some 0 /\
  aircraft_speed f = Some (inject_Z 450) /\
  (exists p1 p2, flight_path f = [p1; p2] /\ (0 < central_angle p1 p2)%R) /\
  generate_4d_trajectory f (flight_path f) 60 = Ok [] /\
  preprocess f ([], []) = Ok ([], [("F0", f)]).
Proof.
  intros f.
  destruct (no_departure_time_excluded f (or_intror eq_refl))
    as (Hgen & Hpre & _).
  split_and!; [done | done | | apply Hgen | apply Hpre].
  eexists _, _. split; [apply documented_path | apply documented_leg].
Defined.

End Separation.

Section Loading.

(** ** Loading flights *)

Lemma str_int_raises s e : Str.int s = Raise e -> e = ValueError.
Proof.
  unfold Str.int.
  match goal with
  | |- context [let '(negative, body) := ?p in _] => destruct p as [negative body]
  end.
  destruct (Str.read_int _ _ _); congruence.
Qed.

Lemma loader_int_raises x e :
  FlightLoader.int x = Raise e -> e = ValueError \/ e = TypeError.
Proof.
  destruct x; cbn; try congruence; try (intros [= <-]; auto).
  intros H. left. by eapply str_int_raises.
Qed.

Lemma loader_float_raises x e :
  FlightLoader.float x = Raise e -> e = ValueError \/ e = TypeError.
Proof.
  destruct x; cbn; try congruence; try (intros [= <-]; auto).
  intros H. left. by eapply float_raises.
Qed.



Lemma get_present key default data value :
  Dict.get key data = Some value -> FlightLoader.get key default data = value.
Proof. unfold FlightLoader.get. by intros ->. Qed.

Lemma get_missing key default data :
  Dict.get key data = None -> FlightLoader.get key default data = default.
Proof. unfold FlightLoader.get. by intros ->. Qed.

(** [from_dict] on a dict lets no exception through. *)
Lemma convert_raises data e :
  FlightLoader.convert data = Raise e -> e = ValueError \/ e = TypeError.
Proof.
  unfold FlightLoader.convert. destruct (negb _); [done |].
  destruct (FlightLoader.int (FlightLoader.get "altitude" _ _)) eqn:H1;
    [| intros [= <-]; by eapply loader_int_raises].
  destruct (FlightLoader.int (FlightLoader.get "departure time" _ _)) eqn:H2;
    [| intros [= <-]; by eapply loader_int_raises].
  destruct (FlightLoader.float _) eqn:H3;
    [| intros [= <-]; by eapply loader_float_raises].
  destruct (FlightLoader.int (FlightLoader.get "passengers" _ _)) eqn:H4;
    [| intros [= <-]; by eapply loader_int_raises].
  done.
Qed.

Lemma from_dict_dict data :
  FlightLoader.from_dict (FlightLoader.JDict data)
  = inr (match FlightLoader.convert data with
         | Ok flight => flight
         | Raise _ => None
         end).
Proof.
  unfold FlightLoader.from_dict.
  destruct (FlightLoader.convert data) as [flight | e] eqn:Hc; [done |].
  by destruct (convert_raises _ _ Hc) as [-> | ->].
Qed.




(** The fields of an accepted record. *)
Lemma from_dict_fields data flight :
  FlightLoader.from_dict (FlightLoader.JDict data) = inr (Some flight) ->
  FlightLoader.bool (FlightLoader.get "ACID" FlightLoader.JNull data) = true /\
  FlightLoader.int (FlightLoader.get "altitude" (FlightLoader.JInt 0) data)
  = Ok (FlightLoader.altitude flight) /\
  FlightLoader.int (FlightLoader.get "departure time" (FlightLoader.JInt 0) data)
  = Ok (FlightLoader.departure_time flight) /\
  FlightLoader.float
    (FlightLoader.get "aircraft speed" (FlightLoader.JFloat 0%Q) data)
  = Ok (FlightLoader.aircraft_speed flight) /\
  FlightLoader.int (FlightLoader.get "passengers" (FlightLoader.JInt 0) data)
  = Ok (FlightLoader.passengers flight) /\
  FlightLoader.acid flight
  = FlightLoader.get "ACID" (FlightLoader.JStr "Unknown") data /\
  FlightLoader.plane_type flight
  = FlightLoader.get "Plane type" (FlightLoader.JStr "Unknown") data /\
  FlightLoader.route flight
  = FlightLoader.get "route" (FlightLoader.JStr "") data /\
  FlightLoader.departure_airport flight
  = FlightLoader.get "departure airport" (FlightLoader.JStr "Unknown") data /\
  FlightLoader.arrival_airport flight
  = FlightLoader.get "arrival airport" (FlightLoader.JStr "Unknown") data /\
  FlightLoader.is_cargo flight
  = FlightLoader.bool
      (FlightLoader.get "is_cargo" (FlightLoader.JBool false) data).
Proof.
  rewrite from_dict_dict. intros Hc.
  destruct (FlightLoader.convert data) as [r | e] eqn:Hconv; [| done].
  injection Hc as ->. unfold FlightLoader.convert in Hconv.
  destruct (negb _) eqn:Hacid; [done |]. apply negb_false_iff in Hacid.
  apply bind_Ok_inv in Hconv as (alt & Halt & Hconv).
  apply bind_Ok_inv in Hconv as (dep & Hdep & Hconv).
  apply bind_Ok_inv in Hconv as (speed & Hspeed & Hconv).
  apply bind_Ok_inv in Hconv as (pax & Hpax & [= <-]). cbn.
  by split_and!.
Qed.

(** A record that [from_dict] accepts has a truthy [ACID], stored as it
    is, and every other key that is missing gets its default: the text
    ["Unknown"] (the empty text for the route), 0 for the numbers and
    [False] for [is_cargo]. *)
Theorem missing_fields_default
    (data : Dict.t string FlightLoader.json) (flight : FlightLoader.Flight) :
  FlightLoader.from_dict (FlightLoader.JDict data) = inr (Some flight) ->
  Dict.get "ACID" data = Some (FlightLoader.acid flight) /\
  FlightLoader.bool (FlightLoader.acid flight) = true /\
  (Dict.get "Plane type" data = None ->
   FlightLoader.plane_type flight = FlightLoader.JStr "Unknown") /\
  (Dict.get "route" data = None ->
   FlightLoader.route flight = FlightLoader.JStr "") /\
  (Dict.get "altitude" data = None -> FlightLoader.altitude flight = 0) /\
  (Dict.get "departure airport" data = None ->
   FlightLoader.departure_airport flight = FlightLoader.JStr "Unknown") /\
  (Dict.get "arrival airport" data = None ->
   FlightLoader.arrival_airport flight = FlightLoader.JStr "Unknown") /\
  (Dict.get "departure time" data = None ->
   FlightLoader.departure_time flight = 0) /\
  (Dict.get "aircraft speed" data = None ->
   FlightLoader.aircraft_speed flight = 0%Q) /\
  (Dict.get "passengers" data = None -> FlightLoader.passengers flight = 0) /\
  (Dict.get "is_cargo" data = None -> FlightLoader.is_cargo flight = false).
Proof.
  intros Hfrom.
  destruct (from_dict_fields _ _ Hfrom)
    as (Hacid & Halt & Hdep & Hspeed & Hpax & -> & -> & -> & -> & -> & ->).
  assert (Hid : exists v, Dict.get "ACID" data = Some v).
  { destruct (Dict.get "ACID" data) as [v |] eqn:Hv; [eauto |].
    by rewrite (get_missing _ _ _ Hv) in Hacid. }
  destruct Hid as [v Hv].
  assert (Hg : forall default, FlightLoader.get "ACID" default data = v)
    by (intros; by apply get_present).
  rewrite !Hg in *.
  split_and!; [done | done | ..]; intros Hmiss;
    rewrite (get_missing _ _ _ Hmiss) in *; try done; cbn in *; congruence.
Qed.

(** The statement holds of a record that has an [ACID] and nothing
    else. *)
Lemma missing_fields_default_witness :
  exists flight,
    FlightLoader.from_dict
      (FlightLoader.JDict [("ACID", FlightLoader.JStr "ACA101")])
    = inr (Some flight) /\
    FlightLoader.plane_type flight = FlightLoader.JStr "Unknown" /\
    FlightLoader.altitude flight = 0 /\
    FlightLoader.is_cargo flight = false.
Proof.
  eexists. split; [reflexivity |].
  destruct (missing_fields_default
              [("ACID", FlightLoader.JStr "ACA101")] _ eq_refl)
    as (_ & _ & Hplane & _ & Halt & _ & _ & _ & _ & _ & Hcargo).
  split_and!; [by apply Hplane | by apply Halt | by apply Hcargo].
Defined.





End Loading.

Section Validation.
Import FlightAnalysis.

(** ** Validation of a flight against the operational limits *)


Lemma listed_classified plane category :
  listed plane category <-> (plane, category) ∈ classified.
Proof.
  unfold listed, classified, AIRCRAFT_CATEGORIES. cbn.
  repeat (destruct (decide (category = _)) as [-> | ?]);
    try (split; [intros H; set_solver | intros H; set_solver]).
Qed.

Lemma classified_category plane category :
  (plane, category) ∈ classified ->
  get_aircraft_category (Some plane) = category.
Proof.
  unfold classified, AIRCRAFT_CATEGORIES. cbn. intros H.
  repeat (apply elem_of_cons in H as [[= -> ->] | H]);
    [vm_compute; reflexivity .. | by apply elem_of_nil in H].
Qed.

Lemma unclassified_category plane :
  (forall category, ~ listed plane category) ->
  get_aircraft_category (Some plane) = "Unknown".
Proof.
  intros Hnot. unfold get_aircraft_category.
  destruct (List.find _ _) as [[category types] |] eqn:Hfind; [| done].
  exfalso. apply find_some in Hfind as [Hin Hp].
  cbn in Hp. apply bool_decide_eq_true in Hp. apply (Hnot category).
  apply listed_classified. unfold classified.
  apply list_elem_of_bind. exists (category, types). split.
  - apply list_elem_of_fmap. by exists plane.
  - by apply list_elem_of_In.
Qed.

(** [get_aircraft_category] returns the category whose list holds the
    plane type, and ["Unknown"] for [None] and for a type that no list
    holds.  No type is in two lists, so the order in which the table is
    run through does not matter. *)
Theorem category_of_plane_type (plane category : string) :
  get_aircraft_category None = "Unknown" /\
  (get_aircraft_category (Some plane) = category <->
   listed plane category \/
   (category = "Unknown" /\ forall c, ~ listed plane c)).
Proof.
  split; [done |]. split.
  - intros Hcat.
    destruct (decide (Exists (fun e => e.1 = plane) classified)) as [Hex | Hno].
    + left. apply Exists_exists in Hex as ([p c] & Hin & Hp). cbn in Hp. subst p.
      rewrite (classified_category _ _ Hin) in Hcat. subst c.
      by apply listed_classified.
    + right. assert (Hnot : forall c, ~ listed plane c).
      { intros c Hc. apply Hno. apply Exists_exists.
        exists (plane, c). split; [by apply listed_classified | done]. }
      split; [| done]. by rewrite unclassified_category in Hcat.
  - intros [Hl | [-> Hnot]].
    + by apply classified_category, listed_classified.
    + by apply unclassified_category.
Qed.

(** *** The two checks *)

Lemma Qle_bool_within lo hi x :
  Qle_bool (inject_Z lo) x && Qle_bool x (inject_Z hi) = true <-> within lo hi x.
Proof.
  unfold within. rewrite andb_true_iff, !Qle_bool_iff. done.
Qed.

Lemma app_single_nonempty {A} (l : list A) x : l ++ [x] <> [].
Proof. by destruct l. Qed.

(** What [validate_flight] comes to, given what the tables hold for the
    plane type and its category. *)
Lemma validate_flight_checks f plane alt_range speed_range :
  plane_type f = Some plane ->
  Dict.get (get_aircraft_category (Some plane)) ALTITUDE_RANGES = alt_range ->
  match Dict.get plane SPEED_CONSTRAINTS with
  | Some range => Some range
  | None => Dict.get (get_aircraft_category (Some plane)) SPEED_CONSTRAINTS
  end = speed_range ->
  validate_flight f = [] <->
  (forall alt lo hi,
     altitude f = Some alt -> alt_range = Some (lo, hi) -> lo <= alt <= hi) /\
  (forall v lo hi,
     aircraft_speed f = Some v -> speed_range = Some (lo, hi) -> within lo hi v).
Proof.
  intros Hplane Halt Hspeed. unfold validate_flight.
  rewrite Hplane, Halt, Hspeed. clear Halt Hspeed.
  set (altitude_issues :=
         match altitude f, alt_range with
         | Some alt, Some (lo, hi) =>
             if negb ((lo <=? alt) && (alt <=? hi)) then [] ++ [_] else []
         | _, _ => []
         end).
  assert (Ha : altitude_issues = [] <->
               forall alt lo hi,
                 altitude f = Some alt -> alt_range = Some (lo, hi) ->
                 lo <= alt <= hi).
  { unfold altitude_issues.
    destruct (altitude f) as [alt |]; [| split; [intros _ ? ? ? [=] | done]].
    destruct alt_range as [[lo hi] |]; [| split; [intros _ ? ? ? _ [=] | done]].
    destruct (Z.leb_spec lo alt), (Z.leb_spec alt hi); cbn [andb negb app];
      (split; [intros Hnil alt' lo' hi' [= <-] [= <- <-]; first [lia | done]
              | intros Hall; first [done | specialize (Hall _ _ _ eq_refl eq_refl); lia]]). }
  destruct (aircraft_speed f) as [v |];
    [| rewrite Ha; split; [intros H; split; [done | intros ? ? ? [=]] | tauto]].
  destruct speed_range as [[slo shi] |];
    [| rewrite Ha; split; [intros H; split; [done | intros ? ? ? _ [=]] | tauto]].
  destruct (Qle_bool (inject_Z slo) v && Qle_bool v (inject_Z shi)) eqn:Hq;
    cbn [negb].
  - apply Qle_bool_within in Hq. rewrite Ha. split.
    + intros H. split; [done |]. by intros ? ? ? [= <-] [= <- <-].
    + tauto.
  - apply not_true_iff_false in Hq. rewrite Qle_bool_within in Hq. split.
    + intros Hnil. by destruct (app_single_nonempty _ _ Hnil).
    + intros [_ Hv]. destruct Hq. by apply (Hv v slo shi).
Qed.

(** A flight whose plane type is in no category, and has no speed limits
    of its own, is never flagged: [validate_flight] returns no issue for
    it, whatever its altitude and speed. *)
Theorem unlisted_type_unchecked (f : Flight) (plane : string) :
  plane_type f = Some plane ->
  get_aircraft_category (Some plane) = "Unknown" ->
  Dict.get plane SPEED_CONSTRAINTS = None ->
  validate_flight f = [].
Proof.
  intros Hplane Hcat Hspeed.
  apply (validate_flight_checks f plane None None Hplane).
  - by rewrite Hcat.
  - by rewrite Hspeed, Hcat.
  - split; intros ? ? ? _ [=].
Qed.

(** The statement holds of a light aircraft at 99000 ft and 9999 kt. *)
Lemma unlisted_type_unchecked_witness :
  validate_flight (a_plane "CGABC" "Cessna 172" 99000 (inject_Z 9999)) = [].
Proof.
  apply (unlisted_type_unchecked _ "Cessna 172"); vm_compute; reflexivity.
Defined.

Lemma validate_flight_limits f plane min_alt max_alt min_spd max_spd :
  plane_type f = Some plane ->
  Dict.get (get_aircraft_category (Some plane)) ALTITUDE_RANGES
  = Some (min_alt, max_alt) ->
  match Dict.get plane SPEED_CONSTRAINTS with
  | Some range => Some range
  | None => Dict.get (get_aircraft_category (Some plane)) SPEED_CONSTRAINTS
  end = Some (min_spd, max_spd) ->
  validate_flight f = [] <->
  (forall alt, altitude f = Some alt -> min_alt <= alt <= max_alt) /\
  (forall v, aircraft_speed f = Some v -> within min_spd max_spd v).
Proof.
  intros Hplane Halt Hspeed.
  rewrite (validate_flight_checks f plane _ _ Hplane Halt Hspeed). split.
  - intros [Ha Hv]. split; [intros alt H | intros v H]; eauto.
  - intros [Ha Hv].
    split; [intros alt lo hi H [= <- <-] | intros v lo hi H [= <- <-]]; eauto.
Qed.

(** Every plane type of [AIRCRAFT_CATEGORIES] is checked on both counts:
    its category has an altitude range, and the type itself or else its
    category has a speed range; a flight of that type gets no issue
    exactly when its altitude, if it has one, is in the one and its speed,
    if it has one, in the other, bounds included. *)
Theorem listed_type_checked (plane category : string) :
  listed plane category ->
  exists min_alt max_alt min_spd max_spd,
    Dict.get category ALTITUDE_RANGES = Some (min_alt, max_alt) /\
    (Dict.get plane SPEED_CONSTRAINTS = Some (min_spd, max_spd) \/
     Dict.get plane SPEED_CONSTRAINTS = None /\
     Dict.get category SPEED_CONSTRAINTS = Some (min_spd, max_spd)) /\
    forall f,
      plane_type f = Some plane ->
      validate_flight f = [] <->
      (forall alt, altitude f = Some alt -> min_alt <= alt <= max_alt) /\
      (forall v, aircraft_speed f = Some v -> within min_spd max_spd v).
Proof.
  intros Hl. apply listed_classified in Hl.
  unfold classified, AIRCRAFT_CATEGORIES in Hl. cbn in Hl.
  repeat (apply elem_of_cons in Hl as [[= -> ->] | Hl]);
    [.. | by apply elem_of_nil in Hl];
    match goal with
    | |- exists _ _ _ _,
           Dict.get ?c ALTITUDE_RANGES = _ /\
           (Dict.get ?p SPEED_CONSTRAINTS = _ \/ _) /\ _ =>
        let a := eval vm_compute in (Dict.get c ALTITUDE_RANGES) in
        let s := eval vm_compute in
                   (match Dict.get p SPEED_CONSTRAINTS with
                    | Some range => Some range
                    | None => Dict.get c SPEED_CONSTRAINTS
                    end) in
        match a with
        | Some (?lo, ?hi) =>
            match s with
            | Some (?slo, ?shi) => exists lo, hi, slo, shi
            end
        end
    end;
    (split; [vm_compute; reflexivity |]);
    (split;
     [first [left; vm_compute; reflexivity
            | right; split; vm_compute; reflexivity] |]);
    intros f Hplane; apply (validate_flight_limits f _ _ _ _ _ Hplane);
    vm_compute; reflexivity.
Qed.

(** The statement holds of the Airbus A220-300: its altitude range is the
    one of the narrow-body category, its speed range its own. *)
Lemma listed_type_checked_witness :
  listed "Airbus A220-300" "Narrow-body" /\
  exists min_alt max_alt min_spd max_spd,
    Dict.get "Narrow-body" ALTITUDE_RANGES = Some (min_alt, max_alt) /\
    (Dict.get "Airbus A220-300" SPEED_CONSTRAINTS = Some (min_spd, max_spd) \/
     Dict.get "Airbus A220-300" SPEED_CONSTRAINTS = None /\
     Dict.get "Narrow-body" SPEED_CONSTRAINTS = Some (min_spd, max_spd)) /\
    (validate_flight (a_plane "ACA101" "Airbus A220-300" 30000 (inject_Z 380))
     = [] <->
     min_alt <= 30000 <= max_alt /\ within min_spd max_spd (inject_Z 380)).
Proof.
  assert (Hl : listed "Airbus A220-300" "Narrow-body").
  { apply (bool_decide_unpack _). vm_compute. exact I. }
  split; [exact Hl |].
  destruct (listed_type_checked "Airbus A220-300" "Narrow-body" Hl)
    as (min_alt & max_alt & min_spd & max_spd & Ha & Hs & Hv).
  exists min_alt, max_alt, min_spd, max_spd. split; [exact Ha |].
  split; [exact Hs |].
  rewrite (Hv (a_plane "ACA101" "Airbus A220-300" 30000 (inject_Z 380)) eq_refl).
  split.
  - intros [H1 H2]. split; [by apply H1 | by apply H2].
  - intros [H1 H2]. split; [intros alt [= <-] | intros v [= <-]]; done.
Defined.

End Validation.

Section Distances.

#[local] Open Scope R_scope.

(** ** Further properties of the distance and of the interpolation *)

Lemma sin_sq_neg x : sin (- x) ^ 2 = sin x ^ 2.
Proof. rewrite sin_neg. ring. Qed.

Lemma haversine_a_sym c1 c2 :
  FlightAnalysis.haversine_a c1 c2 = FlightAnalysis.haversine_a c2 c1.
Proof.
  destruct c1 as [lat1 lon1], c2 as [lat2 lon2].
  unfold FlightAnalysis.haversine_a.
  replace (math.radians (lat1 - lat2) / 2)
    with (- (math.radians (lat2 - lat1) / 2)) by (unfold math.radians; lra).
  replace (math.radians (lon1 - lon2) / 2)
    with (- (math.radians (lon2 - lon1) / 2)) by (unfold math.radians; lra).
  rewrite !sin_sq_neg. ring.
Qed.

Lemma central_angle_sym c1 c2 : central_angle c1 c2 = central_angle c2 c1.
Proof. unfold central_angle. by rewrite haversine_a_sym. Qed.







End Distances.

Section Reconstruction.

#[local] Open Scope R_scope.

(** ** Further properties of the two trajectory reconstructions *)

Lemma Int_part_le x y : x <= y -> (Int_part x <= Int_part y)%Z.
Proof.
  intros Hxy. pose proof (Int_part_bounds x) as [Hx _].
  pose proof (Int_part_bounds y) as [_ Hy].
  apply Z.lt_succ_r, lt_IZR. rewrite succ_IZR. lra.
Qed.

(** [int] is monotone. *)
Lemma int_le x y : x <= y -> (Py.int x <= Py.int y)%Z.
Proof.
  intros Hxy. unfold Py.int.
  destruct (Rle_dec 0 x), (Rle_dec 0 y); try lra.
  - by apply Int_part_le.
  - assert (0 <= Int_part (- x))%Z.
    { rewrite <- (Int_part_IZR 0). apply Int_part_le. cbn. lra. }
    assert (0 <= Int_part y)%Z.
    { rewrite <- (Int_part_IZR 0). apply Int_part_le. cbn. lra. }
    lia.
  - assert (Int_part (- y) <= Int_part (- x))%Z by (apply Int_part_le; lra).
    lia.
Qed.

Lemma elem_of_dict_set {K V} `{EqDecision K} (k k' : K) (v v' : V) (d : Dict.t K V) :
  (k', v') ∈ Dict.set k v d -> (k', v') = (k, v) \/ (k', v') ∈ d.
Proof.
  induction d as [| [k1 v1] d IH]; cbn.
  - intros H. apply list_elem_of_singleton in H. by left.
  - destruct (decide (k = k1)) as [-> | Hne].
    + intros H. apply elem_of_cons in H as [H | H]; [by left | right; by right].
    + intros H. apply elem_of_cons in H as [-> | H]; [right; by left |].
      destruct (IH H) as [? | ?]; [by left | right; by right].
Qed.

Section Entries.
Variable P : Z * coord -> Prop.
Variables (dep : Z) (speed : R) (path : list coord).
Hypothesis speed_pos : 0 < speed.

(** Every entry that a turn of the inner loop can store has the
    property. *)
Hypothesis stored :
  forall p1 p2 current_time duration s,
    (p1, p2) ∈ segments path -> IZR dep <= current_time ->
    (0 <= s)%Z -> 0 < duration ->
    P ((Py.int (current_time + IZR (s * 60)) / 60 * 60)%Z,
       FlightAnalysis.interpolate_position p1 p2
         (Rmin 1 (IZR (s * 60) / duration))).

Let kept (st : FlightAnalysis.trajectory * R) : Prop :=
  IZR dep <= st.2 /\ forall e, e ∈ st.1 -> P e.

Lemma fold_sample_entries p1 p2 duration current_time ss traj :
  (p1, p2) ∈ segments path -> IZR dep <= current_time -> 0 < duration ->
  Forall (fun s => 0 <= s)%Z ss ->
  (forall e, e ∈ traj -> P e) ->
  forall e,
    e ∈ fold_left (FlightAnalysis.sample p1 p2 duration current_time 60)
                  ss traj ->
    P e.
Proof.
  intros Hseg Hct Hd Hss. revert traj.
  induction Hss as [| s ss Hs _ IH]; intros traj Htraj; [done |].
  cbn [fold_left]. apply IH. rewrite sample_fraction. intros [t pos] He.
  apply elem_of_dict_set in He as [-> | He]; [by apply stored | by apply Htraj].
Qed.

Lemma segment_entries seg st st' :
  seg ∈ segments path ->
  FlightAnalysis.segment speed 60 seg st = Ok st' -> kept st -> kept st'.
Proof.
  destruct seg as [p1 p2], st as [traj ct]. intros Hseg Hrun [Hct Htraj].
  cbn [fst snd] in *.
  destruct (central_angle_cases p1 p2) as [H0 | Hpos].
  - rewrite segment_zero_length in Hrun by done. by injection Hrun as <-.
  - rewrite segment_result in Hrun by done. injection Hrun as <-.
    pose proof (duration_pos speed p1 p2 speed_pos Hpos) as Hd.
    cbv zeta in Hd. split; cbn [fst snd]; [lra |].
    apply fold_sample_entries; try done.
    apply Forall_forall. intros s Hs. apply elem_of_range in Hs. lia.
Qed.

Lemma segments_entries st st' :
  Py.for_each (FlightAnalysis.segment speed 60) (segments path) st = Ok st' ->
  kept st -> kept st'.
Proof.
  intros Hrun Hst.
  eapply (for_each_invariant _ kept); [| exact Hst | exact Hrun].
  intros seg s s' Hseg Hs Hstep. by eapply segment_entries.
Qed.
End Entries.

(** The entries of a trajectory all have a property that every stored
    entry has. *)
Lemma generate_entries (P : Z * coord -> Prop) flight path traj dep :
  FlightAnalysis.generate_4d_trajectory flight path 60 = Ok traj ->
  departure_time flight = Some dep ->
  (forall p1 p2 current_time duration s,
     (p1, p2) ∈ segments path -> IZR dep <= current_time ->
     (0 <= s)%Z -> 0 < duration ->
     P ((Py.int (current_time + IZR (s * 60)) / 60 * 60)%Z,
        FlightAnalysis.interpolate_position p1 p2
          (Rmin 1 (IZR (s * 60) / duration)))) ->
  forall e, e ∈ traj -> P e.
Proof.
  intros Hrun Hdep Hstored. unfold FlightAnalysis.generate_4d_trajectory in Hrun.
  rewrite Hdep in Hrun.
  destruct (aircraft_speed flight) as [v |];
    [| injection Hrun as <-; intros e He; by apply elem_of_nil in He].
  destruct (dep =? 0)%Z;
    [injection Hrun as <-; intros e He; by apply elem_of_nil in He |].
  cbn [orb] in Hrun. destruct (Qeq_bool v 0 || Qle_bool v 0) eqn:Hguard;
    [injection Hrun as <-; intros e He; by apply elem_of_nil in He |].
  apply speed_guard_inv, Q2R_pos in Hguard.
  destruct path as [| p path];
    [injection Hrun as <-; intros e He; by apply elem_of_nil in He |].
  apply bind_Ok_inv in Hrun as (st & Hloop & [= <-]).
  eapply (segments_entries P dep (Q2R v / 3600) (p :: path)) in Hloop
    as [_ Hall]; [exact Hall | lra | exact Hstored |].
  split; cbn [fst snd]; [lra |]. intros e He. by apply elem_of_nil in He.
Qed.



(** The positions of a trajectory are on the path: every position that
    [generate_4d_trajectory] stores is the interpolation, at a fraction
    between 0 and 1, of two consecutive points of the path. *)
Theorem trajectory_positions_on_path (flight : Flight) (path : list coord)
    (traj : FlightAnalysis.trajectory) (dep : Z) :
  FlightAnalysis.generate_4d_trajectory flight path 60 = Ok traj ->
  departure_time flight = Some dep ->
  forall t pos,
    (t, pos) ∈ traj ->
    exists p1 p2 fraction,
      (p1, p2) ∈ segments path /\ 0 <= fraction <= 1 /\
      pos = FlightAnalysis.interpolate_position p1 p2 fraction.
Proof.
  intros Hrun Hdep t pos He.
  apply (generate_entries
           (fun e => exists p1 p2 fraction,
                       (p1, p2) ∈ segments path /\ 0 <= fraction <= 1 /\
                       e.2 = FlightAnalysis.interpolate_position p1 p2 fraction)
           flight path traj dep Hrun Hdep) in He; [exact He |].
  intros p1 p2 ct duration s Hseg _ Hs Hd. cbn [snd].
  exists p1, p2, (Rmin 1 (IZR (s * 60) / duration)). split; [done |].
  split; [| done].
  assert (0 <= IZR (s * 60)) by (apply IZR_le; lia).
  assert (0 <= IZR (s * 60) / duration).
  { apply Rmult_le_pos; [done |]. left. by apply Rinv_0_lt_compat. }
  unfold Rmin. destruct (Rle_dec _ _); lra.
Qed.

(** The statement holds of a flight along the documented route. *)
Lemma trajectory_positions_on_path_witness :
  exists traj,
    FlightAnalysis.generate_4d_trajectory
      (on_documented_route "F1") (flight_path (on_documented_route "F1")) 60
    = Ok traj /\
    departure_time (on_documented_route "F1") = Some 1700000000%Z /\
    traj <> [] /\
    forall t pos,
      (t, pos) ∈ traj ->
      exists p1 p2 fraction,
        (p1, p2) ∈ segments (flight_path (on_documented_route "F1")) /\
        0 <= fraction <= 1 /\
        pos = FlightAnalysis.interpolate_position p1 p2 fraction.
Proof.
  destruct (documented_trajectory "F1" (Some 35000%Z)) as (traj & Hgen & Hne).
  exists traj. split; [exact Hgen |]. split; [reflexivity |].
  split; [exact Hne |].
  exact (trajectory_positions_on_path (on_documented_route "F1") _ traj
           1700000000 Hgen eq_refl).
Defined.

(** *** [estimate_trajectory] *)

Lemma segments_fmap {A B} (f : A -> B) (l : list A) :
  segments (f <$> l) = (fun seg => (f seg.1, f seg.2)) <$> segments l.
Proof.
  induction l as [| a l IH]; [done |]. destruct l as [| b l]; [done |].
  rewrite fmap_cons. rewrite fmap_cons in IH |- *.
  rewrite !segments_cons, fmap_cons. cbn [fst snd]. f_equal. exact IH.
Qed.

Lemma fraction_bounds j n : (0 < n)%Z -> (0 <= j <= n)%Z -> 0 <= IZR j / IZR n <= 1.
Proof.
  intros Hn [H0 Hj]. apply IZR_lt in Hn. apply IZR_le in H0, Hj.
  assert (Hinv : 0 < / IZR n) by (by apply Rinv_0_lt_compat).
  split.
  - apply Rmult_le_pos; lra.
  - apply Rmult_le_reg_r with (IZR n); [lra |].
    unfold Rdiv. rewrite Rmult_assoc, Rinv_l by lra. lra.
Qed.

Lemma fraction_le j j' n :
  (0 < n)%Z -> (j <= j')%Z -> IZR j / IZR n <= IZR j' / IZR n.
Proof.
  intros Hn Hj. apply IZR_lt in Hn. apply IZR_le in Hj.
  assert (Hinv : 0 < / IZR n) by (by apply Rinv_0_lt_compat).
  unfold Rdiv. apply Rmult_le_compat_r; lra.
Qed.

Lemma range_ascending n : (0 <= n)%Z -> StronglySorted Z.le (Py.range n).
Proof.
  intros Hn. pattern n. apply natlike_ind; [constructor | | done].
  clear n Hn. intros n Hn IH. unfold Z.succ. rewrite range_succ by done.
  apply StronglySorted_app_2; [| done | repeat constructor].
  intros j j' Hj Hj'. apply elem_of_range in Hj.
  apply list_elem_of_singleton in Hj' as ->. lia.
Qed.

Section Samples.
Import AirspaceCongestion.

Variables (flight : Flight) (speed_knots : R).
Hypothesis speed_pos : 0 < speed_knots.

(** The sample is on the leg. *)
Let on_leg (seg : coord * coord) (s : PositionSample) : Prop :=
  sample_acid s = acid flight /\
  exists fraction,
    0 <= fraction <= 1 /\
    latitude s = seg.1.1 + fraction * (seg.2.1 - seg.1.1) /\
    longitude s = seg.1.2 + fraction * (seg.2.2 - seg.1.2).

Lemma ac_segment_on_leg (segs : list (coord * coord)) seg samples ct st' :
  seg ∈ segs ->
  segment flight speed_knots seg (samples, ct) = Ok st' ->
  Forall (fun s => exists seg, seg ∈ segs /\ on_leg seg s) samples ->
  Forall (fun s => exists seg, seg ∈ segs /\ on_leg seg s) st'.1.
Proof.
  destruct seg as [[lat1 lon1] [lat2 lon2]]. intros Hseg Hrun Hall.
  destruct (central_angle_cases (lat1, lon1) (lat2, lon2)) as [H0 | Hpos].
  - rewrite ac_segment_zero_length in Hrun by done. by injection Hrun as <-.
  - destruct ct as [now |];
      [| by rewrite ac_segment_no_departure in Hrun].
    rewrite ac_segment_result in Hrun by done. injection Hrun as <-.
    cbn [fst]. apply Forall_app. split; [done |].
    apply Forall_fmap, Forall_forall. intros j Hj.
    apply elem_of_range in Hj.
    exists ((lat1, lon1), (lat2, lon2)). split; [done |]. split; [done |].
    eexists. split; [| split; reflexivity].
    apply fraction_bounds; lia.
Qed.

Lemma ac_segment_in_order dep seg samples now st' :
  segment flight speed_knots seg (samples, Some now) = Ok st' ->
  (dep <= now)%Z ->
  StronglySorted Z.le (timestamp <$> samples) ->
  Forall (fun s => dep <= timestamp s <= now)%Z samples ->
  exists now',
    st'.2 = Some now' /\ (dep <= now')%Z /\
    StronglySorted Z.le (timestamp <$> st'.1) /\
    Forall (fun s => dep <= timestamp s <= now')%Z st'.1.
Proof.
  destruct seg as [[lat1 lon1] [lat2 lon2]]. intros Hrun Hdep Hsorted Hall.
  destruct (central_angle_cases (lat1, lon1) (lat2, lon2)) as [H0 | Hpos].
  - rewrite ac_segment_zero_length in Hrun by done. injection Hrun as <-.
    by exists now.
  - rewrite ac_segment_result in Hrun by done. injection Hrun as <-.
    pose proof (time_for_segment_pos speed_knots lat1 lon1 lat2 lon2
                  speed_pos Hpos) as Ht. cbv zeta in Ht.
    set (tfs := 3440.065 * central_angle (lat1, lon1) (lat2, lon2)
                / speed_knots * 3600) in *.
    set (n := Z.max 1 (Py.int (tfs / 90))).
    assert (Hn : (0 < n)%Z) by (unfold n; lia).
    assert (Hstamp : forall j, (0 <= j <= n)%Z ->
              (0 <= Py.int (IZR j / IZR n * tfs) <= Py.int tfs)%Z).
    { intros j Hj. pose proof (fraction_bounds j n Hn Hj) as [Hf0 Hf1].
      split.
      - apply int_nonneg. by apply Rmult_le_pos; [| lra].
      - apply int_le. nra. }
    exists (now + Py.int tfs)%Z. cbn [fst snd].
    assert (Htfs : (0 <= Py.int tfs)%Z) by (apply int_nonneg; lra).
    split; [done |]. split; [lia |]. split.
    + rewrite fmap_app. apply StronglySorted_app_2.
      * intros t t' Ht1 Ht2.
        apply list_elem_of_fmap in Ht1 as (s & -> & Hs).
        rewrite <- list_fmap_compose in Ht2.
        apply list_elem_of_fmap in Ht2 as (j & -> & Hj).
        apply elem_of_range in Hj. rewrite Forall_forall in Hall.
        specialize (Hall s Hs). specialize (Hstamp j ltac:(lia)).
        cbn. lia.
      * done.
      * rewrite <- list_fmap_compose.
        eapply StronglySorted_fmap; [| apply (range_ascending (n + 1)); lia].
        intros j j' Hj. cbn. apply Zplus_le_compat_l, int_le.
        apply Rmult_le_compat_r; [lra |]. apply fraction_le; lia.
    + apply Forall_app. split.
      * eapply Forall_impl; [exact Hall |]. cbn. intros s Hs. lia.
      * apply Forall_fmap, Forall_forall. intros j Hj.
        apply elem_of_range in Hj. specialize (Hstamp j ltac:(lia)).
        cbn. lia.
Qed.
End Samples.

(** The samples of a flight are in time order and none is before the
    departure: the timestamps of what [estimate_trajectory] returns never
    decrease along the list, and each is at least the departure time. *)
Theorem samples_in_time_order (flight : Flight)
    (samples : list AirspaceCongestion.PositionSample) (dep : Z) :
  AirspaceCongestion.estimate_trajectory flight = Ok samples ->
  departure_time flight = Some dep ->
  StronglySorted Z.le (AirspaceCongestion.timestamp <$> samples) /\
  Forall (fun s => dep <= AirspaceCongestion.timestamp s)%Z samples.
Proof.
  intros Hrun Hdep. unfold AirspaceCongestion.estimate_trajectory in Hrun.
  destruct (_ <? _)%nat; [injection Hrun as <-; split; constructor |].
  destruct (aircraft_speed flight) as [v |]; [| done].
  destruct (Qle_bool v 0) eqn:Hv; [injection Hrun as <-; split; constructor |].
  apply speed_positive in Hv. rewrite Hdep in Hrun.
  apply bind_Ok_inv in Hrun as (st & Hloop & [= <-]).
  eapply (for_each_invariant _
            (fun st => exists now,
                 st.2 = Some now /\ (dep <= now)%Z /\
                 StronglySorted Z.le (AirspaceCongestion.timestamp <$> st.1) /\
                 Forall (fun s => dep <= AirspaceCongestion.timestamp s <= now)%Z
                        st.1))
    in Hloop as (now & _ & _ & Hsorted & Hall).
  - split; [done |]. eapply Forall_impl; [exact Hall |]. cbn. intros s Hs. lia.
  - intros seg [samples' ct] st' _ (now & Hct & Hnow & Hsorted & Hall) Hstep.
    cbn [fst snd] in *. subst ct.
    by eapply ac_segment_in_order.
  - exists dep. cbn. split_and!; [done | lia | constructor | constructor].
Qed.

Lemma documented_samples name :
  exists first more,
    AirspaceCongestion.estimate_trajectory (on_documented_route name)
    = Ok (first :: more).
Proof.
  destruct (estimate_first_sample (on_documented_route name)
              ((4997 # 100)%Q, (-22187 # 200)%Q)
              ((1253 # 25)%Q, (-556 # 5)%Q) [] 1700000000 (inject_Z 450))
    as [more Hest].
  - apply documented_route_parsed.
  - reflexivity.
  - reflexivity.
  - reflexivity.
  - unfold to_coord. cbn [fst snd]. rewrite !Q2R_make.
    apply central_angle_latitudes; lra.
  - eauto.
Qed.

(** The statement holds of a flight along the documented route, which
    has samples. *)
Lemma samples_in_time_order_witness :
  exists first more,
    AirspaceCongestion.estimate_trajectory (on_documented_route "F1")
    = Ok (first :: more) /\
    departure_time (on_documented_route "F1") = Some 1700000000%Z /\
    StronglySorted Z.le
      (AirspaceCongestion.timestamp <$> first :: more) /\
    (1700000000 <= AirspaceCongestion.timestamp first)%Z.
Proof.
  destruct (documented_samples "F1") as (first & more & Hest).
  exists first, more. split; [exact Hest |]. split; [reflexivity |].
  destruct (samples_in_time_order (on_documented_route "F1") _ 1700000000
              Hest eq_refl) as [Hsorted Hall].
  split; [exact Hsorted |]. by apply Forall_cons in Hall as [? _].
Defined.

(** Every sample of a flight carries the identifier of the flight and
    lies on a leg of its route: its latitude and its longitude are those
    of two consecutive waypoints of [parse_route], interpolated at one
    fraction between 0 and 1. *)
Theorem samples_on_route (flight : Flight)
    (samples : list AirspaceCongestion.PositionSample) :
  AirspaceCongestion.estimate_trajectory flight = Ok samples ->
  forall s,
    s ∈ samples ->
    AirspaceCongestion.sample_acid s = acid flight /\
    exists w1 w2 fraction,
      (w1, w2) ∈ segments (AirspaceCongestion.parse_route (route flight)) /\
      0 <= fraction <= 1 /\
      AirspaceCongestion.latitude s
      = Q2R w1.1 + fraction * (Q2R w2.1 - Q2R w1.1) /\
      AirspaceCongestion.longitude s
      = Q2R w1.2 + fraction * (Q2R w2.2 - Q2R w1.2).
Proof.
  intros Hrun s Hs. unfold AirspaceCongestion.estimate_trajectory in Hrun.
  destruct (_ <? _)%nat; [injection Hrun as <-; by apply elem_of_nil in Hs |].
  destruct (aircraft_speed flight) as [v |]; [| done].
  destruct (Qle_bool v 0) eqn:Hv;
    [injection Hrun as <-; by apply elem_of_nil in Hs |].
  apply speed_positive in Hv.
  apply bind_Ok_inv in Hrun as (st & Hloop & [= <-]).
  set (segs := segments (to_coord <$> AirspaceCongestion.parse_route (route flight)))
    in *.
  eapply (for_each_invariant _
            (fun st => Forall (fun s => exists seg, seg ∈ segs /\
                          AirspaceCongestion.sample_acid s = acid flight /\
                          exists fraction,
                            0 <= fraction <= 1 /\
                            AirspaceCongestion.latitude s
                            = seg.1.1 + fraction * (seg.2.1 - seg.1.1) /\
                            AirspaceCongestion.longitude s
                            = seg.1.2 + fraction * (seg.2.2 - seg.1.2))
                        st.1))
    in Hloop.
  - rewrite Forall_forall in Hloop.
    destruct (Hloop s Hs) as (seg & Hseg & Hacid & fraction & Hf & Hlat & Hlon).
    split; [done |]. unfold segs in Hseg. rewrite segments_fmap in Hseg.
    apply list_elem_of_fmap in Hseg as ([w1 w2] & -> & Hw).
    unfold to_coord in Hlat, Hlon. cbn [fst snd] in Hlat, Hlon.
    exists w1, w2, fraction. destruct Hf. by split_and!.
  - intros seg [samples' ct] st' Hseg Hall Hstep.
    by eapply (ac_segment_on_leg flight (Q2R v) Hv segs seg).
  - constructor.
Qed.

(** The statement holds of a flight along the documented route, which
    has samples. *)
Lemma samples_on_route_witness :
  exists first more,
    AirspaceCongestion.estimate_trajectory (on_documented_route "F1")
    = Ok (first :: more) /\
    AirspaceCongestion.sample_acid first = "F1".
Proof.
  destruct (documented_samples "F1") as (first & more & Hest).
  exists first, more. split; [exact Hest |].
  destruct (samples_on_route (on_documented_route "F1") _ Hest first)
    as [Hacid _]; [by left | exact Hacid].
Defined.

End Reconstruction.

Section Parsers.

(** ** The two route parsers against each other *)

Lemma split_on_nonempty sep s : Str.split_on sep s <> [].
Proof.
  induction s as [| c s IH]; cbn; [done |].
  destruct (Ascii.eqb c sep); [done |]. by destruct (Str.split_on sep s).
Qed.

Lemma split_on_single sep s x :
  Str.split_on sep s = [x] -> x = s /\ Str.contains sep s = false.
Proof.
  revert x. induction s as [| c s IH]; intros x; cbn.
  - by intros [= <-].
  - rewrite (Ascii.eqb_sym sep c). destruct (Ascii.eqb c sep).
    + intros [= _ H]. by destruct (split_on_nonempty _ _ H).
    + destruct (Str.split_on sep s) as [| h tl] eqn:Hs;
        [by destruct (split_on_nonempty _ _ Hs) |].
      intros [= <- ->]. destruct (IH h eq_refl) as [-> ->]. done.
Qed.

Lemma split_on_once sep s a b :
  Str.split_on sep s = [a; b] -> Str.split_once sep s = [a; b].
Proof.
  revert a. induction s as [| c s IH]; intros a; cbn; [done |].
  destruct (Ascii.eqb c sep).
  - intros [= <- H]. by apply split_on_single in H as [-> _].
  - destruct (Str.split_on sep s) as [| h tl] eqn:Hs;
      [by destruct (split_on_nonempty _ _ Hs) |].
    intros [= <- ->]. by rewrite (IH h eq_refl).
Qed.

(** One turn of each loop. *)
Lemma plain_token_agree part (waypoints : list waypoint) :
  plain_token part ->
  match FlightAnalysis.parse_part part with
  | Ok (Some c) => waypoints ++ [c]
  | Ok None => waypoints
  | Raise ValueError | Raise IndexError => waypoints
  | Raise _ => waypoints
  end
  = if negb (Str.contains "/" part) then waypoints
    else match AirspaceCongestion.parse_part part with
         | Ok w => waypoints ++ [w]
         | Raise ValueError | Raise IndexError => waypoints
         | Raise _ => waypoints
         end.
Proof.
  unfold plain_token, FlightAnalysis.parse_part, AirspaceCongestion.parse_part.
  destruct (negb (Str.contains "/" part)) eqn:Hslash; [done |].
  apply negb_false_iff in Hslash.
  destruct (Str.split_on "/" part) as [| lat_str [| lon_str [| ? ?]]] eqn:Hs;
    [done | | | done].
  { apply split_on_single in Hs as [_ Hs]. congruence. }
  rewrite (split_on_once _ _ _ _ Hs). intros [Hlat Hlon].
  unfold FlightAnalysis.parse_coord, hemisphere in *.
  destruct (Str.float (Str.drop_last lat_str)) as [v1 | e1];
    [| by destruct e1].
  destruct (Str.last lat_str) as [c1 | e1]; [| by destruct e1].
  rewrite !bind_Ok.
  assert (H1 : Ascii.eqb (Str.upper c1) "W" = false).
  { apply Ascii.eqb_neq. congruence. }
  rewrite H1, orb_false_r.
  destruct (Str.float (Str.drop_last lon_str)) as [v2 | e2];
    [| destruct (Ascii.eqb (Str.upper c1) "S"); by destruct e2].
  destruct (Str.last lon_str) as [c2 | e2];
    [| destruct (Ascii.eqb (Str.upper c1) "S"); by destruct e2].
  assert (H2 : Ascii.eqb (Str.upper c2) "S" = false).
  { apply Ascii.eqb_neq. congruence. }
  destruct (Ascii.eqb (Str.upper c1) "S"); rewrite !bind_Ok, H2; cbn [orb];
    by destruct (Ascii.eqb (Str.upper c2) "W").
Qed.

Lemma fold_left_agree {A B} (f g : A -> B -> A) (l : list B) a :
  Forall (fun b => forall a, f a b = g a b) l ->
  fold_left f l a = fold_left g l a.
Proof.
  intros Hl. revert a. induction Hl as [| b l Hb _ IH]; intros a; [done |].
  cbn. by rewrite Hb, IH.
Qed.

(** The two [parse_route] functions return the same waypoints for every
    route whose tokens have one slash at most and in which no latitude
    ends in [W] or [w] and no longitude in [S] or [s]. *)
Theorem route_parsers_agree (route_str : option string) :
  Forall plain_token (Str.split (default EmptyString route_str)) ->
  FlightAnalysis.parse_route route_str
  = AirspaceCongestion.parse_route route_str.
Proof.
  intros Hplain.
  unfold FlightAnalysis.parse_route, AirspaceCongestion.parse_route.
  destruct (negb (Py.truthy_str route_str)); [done |].
  apply fold_left_agree. eapply Forall_impl; [exact Hplain |].
  intros part Hpart waypoints. by apply plain_token_agree.
Qed.

(** The statement holds of the route of the documentation. *)
Lemma route_parsers_agree_witness :
  Forall plain_token (Str.split documented_route) /\
  FlightAnalysis.parse_route (Some documented_route)
  = AirspaceCongestion.parse_route (Some documented_route).
Proof.
  assert (Hplain : Forall plain_token (Str.split documented_route)).
  { apply (bool_decide_unpack _). vm_compute. exact I. }
  split; [exact Hplain |].
  exact (route_parsers_agree (Some documented_route) Hplain).
Defined.

(** Past these routes the parsers part: a longitude followed by a second
    slash is a waypoint for [airspace_congestion], which splits at the
    first slash only, and no waypoint for [flight_analysis]. *)
Example route_parsers_second_slash :
  FlightAnalysis.parse_route (Some "10N/20/") = [] /\
  AirspaceCongestion.parse_route (Some "10N/20/") = [(10, 20)%Q].
Proof. split; vm_compute; reflexivity. Qed.

End Parsers.

Section Hotspots.
Import AirspaceCongestion.

(** ** Further properties of the congestion detection *)


Lemma sample_bucket_inside h s :
  sample_bucket s = hotspot_bucket h -> inside h s.
Proof.
  unfold sample_bucket, hotspot_bucket, get_sector, get_time_window, math.floor.
  intros [= Hlat Hlon Hw]. unfold inside. rewrite <- Hlat, <- Hlon, <- Hw.
  split; [apply Int_part_bounds |]. split; [apply Int_part_bounds |].
  pose proof (Z.mod_pos_bound (timestamp s) 900 ltac:(lia)).
  pose proof (Z.div_mod (timestamp s) 900 ltac:(lia)). lia.
Qed.

(** Every hotspot is sound: its window starts on a multiple of 900 s, its
    count is the number of its identifiers and exceeds 5, and each of its
    identifiers is that of a flight of the input with a sample inside the
    sector (floor included, floor + 1 excluded) and inside the window
    (start included, start + 900 excluded). *)
Theorem hotspot_sound (fs : list Flight) (hs : list Hotspot) (h : Hotspot) :
  detect_congestion fs = Ok hs -> h ∈ hs ->
  window_start h mod 900 = 0 /\
  flight_count h = Z.of_nat (size (flights h)) /\
  5 < flight_count h /\
  forall a,
    a ∈ flights h ->
    exists f samples s,
      f ∈ fs /\ acid f = a /\
      estimate_trajectory f = Ok samples /\ s ∈ samples /\ inside h s.
Proof.
  intros Hrun Hin.
  apply (detect_congestion_member _ _ _ Hrun) in Hin as [Hsize Hh].
  set (k := hotspot_bucket h) in *.
  assert (Hflights : flights h = observed fs k) by (by rewrite Hh).
  assert (Hcount : flight_count h = Z.of_nat (size (observed fs k)))
    by (by rewrite Hh).
  assert (Hmember : forall a, a ∈ flights h ->
            exists f samples s,
              f ∈ fs /\ acid f = a /\
              estimate_trajectory f = Ok samples /\ s ∈ samples /\ inside h s).
  { intros a Ha. rewrite Hflights in Ha.
    apply elem_of_observed in Ha as (f & Hf & Hv & Hacid).
    unfold visits, samples_of in Hv.
    destruct (estimate_trajectory f) as [samples | e] eqn:Hest;
      [| by apply Exists_nil in Hv].
    apply Exists_exists in Hv as (s & Hs & Hb).
    exists f, samples, s. split_and!; try done.
    by apply sample_bucket_inside. }
  split_and!; [| by rewrite Hflights | lia | done].
  assert (Hne : exists a, a ∈ flights h).
  { rewrite Hflights. destruct (elements (observed fs k)) as [| a l] eqn:Hel.
    - apply elements_empty_inv in Hel.
      apply (size_empty_iff (C := gset string)) in Hel. lia.
    - exists a. apply elem_of_elements. rewrite Hel. by left. }
  destruct Hne as [a Ha].
  destruct (Hmember a Ha) as (f & samples & s & _ & _ & _ & _ & _ & _ & Hw).
  rewrite Hflights in Ha. apply elem_of_observed in Ha as (g & _ & Hv & _).
  unfold visits in Hv. apply Exists_exists in Hv as (s0 & _ & Hb).
  unfold sample_bucket, get_time_window in Hb.
  assert (Hstart : window_start h = timestamp s0 / 900 * 900).
  { unfold k, hotspot_bucket in Hb. by injection Hb. }
  rewrite Hstart. apply Z_mod_mult.
Qed.

Lemma six_flights_hotspot :
  exists hs h, detect_congestion six_flights = Ok hs /\ h ∈ hs.
Proof.
  destruct (detect_congestion_total six_flights) as [hs Hrun].
  { unfold six_flights. rewrite Forall_fmap. apply Forall_forall.
    intros name _. apply has_schedule_estimated, on_documented_route_schedule. }
  set (k := (49, -111, 1699999200) : bucket).
  exists hs, (hotspot_of k (observed six_flights k)). split; [done |].
  apply (detect_congestion_member _ _ _ Hrun).
  change (hotspot_bucket (hotspot_of k (observed six_flights k))) with k.
  split; [| done].
  rewrite observed_all.
  - rewrite size_list_to_set; [cbn; lia |].
    apply (bool_decide_unpack (NoDup (acid <$> six_flights))).
    vm_compute. done.
  - unfold six_flights. rewrite Forall_fmap. apply Forall_forall.
    intros name _. apply on_documented_route_visits.
Qed.

(** The statement holds of six flights along the documented route. *)
Lemma hotspot_sound_witness :
  exists hs h,
    detect_congestion six_flights = Ok hs /\ h ∈ hs /\
    window_start h mod 900 = 0 /\ 5 < flight_count h.
Proof.
  destruct six_flights_hotspot as (hs & h & Hrun & Hin).
  exists hs, h. split; [exact Hrun |]. split; [exact Hin |].
  destruct (hotspot_sound six_flights hs h Hrun Hin) as (Hw & _ & Hc & _).
  split; [exact Hw | exact Hc].
Defined.

(** *** Flights that cannot be timed *)





(** *** The suggestion for a hotspot *)

Lemma classify_involved flight_lookup flight_acids cargo pax :
  fold_left (classify flight_lookup) flight_acids (cargo, pax)
  = (cargo ++ cargo_involved flight_acids flight_lookup,
     pax ++ passengers_involved flight_acids flight_lookup).
Proof.
  revert cargo pax. unfold cargo_involved, passengers_involved, involved.
  induction flight_acids as [| a acids IH]; intros cargo pax.
  - cbn. by rewrite !app_nil_r.
  - cbn [fold_left omap list_omap]. unfold classify at 2.
    destruct (Dict.get a flight_lookup) as [f |]; [| apply IH].
    rewrite !filter_cons.
    destruct (is_cargo f) eqn:Hc; rewrite IH.
    + rewrite decide_True, decide_False by done. by rewrite <- app_assoc.
    + rewrite decide_False, decide_True by done. by rewrite <- app_assoc.
Qed.

(** The stable sort by decreasing key puts first the earliest element of
    the greatest key. *)
Lemma sorted_decreasing_head {A} (key : A -> Z) (l : list A) :
  l <> [] ->
  exists before top after rest,
    l = before ++ top :: after /\
    Forall (fun x => key x < key top) before /\
    Forall (fun x => key x <= key top) after /\
    Py.sorted (fun x y => key y <=? key x) l = top :: rest.
Proof.
  induction l as [| x l IH]; [done |]. intros _.
  destruct l as [| y l].
  - exists [], x, [], []. by split_and!.
  - destruct IH as (before & top & after & rest & Hl & Hb & Ha & Hs); [done |].
    unfold Py.sorted in *. cbn [foldr] in *. rewrite Hs. cbn [Py.insert].
    destruct (Z.leb_spec (key top) (key x)) as [Hle | Hlt].
    + exists [], x, (y :: l), (top :: rest). split_and!; [done | done | | done].
      rewrite Hl. apply Forall_app. split.
      * eapply Forall_impl; [exact Hb |]. cbn. intros; lia.
      * constructor; [done |]. eapply Forall_impl; [exact Ha |]. cbn. intros; lia.
    + eexists (x :: before), top, after, _.
      split_and!; [by rewrite Hl | by constructor | done | done].
Qed.

(** What [suggest_prioritization] returns. *)
Lemma suggest_prioritization_result flight_acids flight_lookup :
  match cargo_involved flight_acids flight_lookup,
        passengers_involved flight_acids flight_lookup with
  | [], _ =>
      suggest_prioritization flight_acids flight_lookup = only_passengers_text
  | cargo :: _, [] =>
      suggest_prioritization flight_acids flight_lookup = delay_cargo_text cargo
  | cargo :: _, _ :: _ =>
      exists before top after,
        passengers_involved flight_acids flight_lookup
        = before ++ top :: after /\
        Forall (fun f => passengers f < passengers top) before /\
        Forall (fun f => passengers f <= passengers top) after /\
        suggest_prioritization flight_acids flight_lookup
        = delay_instead_text cargo top
  end.
Proof.
  unfold suggest_prioritization. rewrite classify_involved. cbn [app].
  destruct (cargo_involved flight_acids flight_lookup) as [| cargo others];
    [done |].
  destruct (passengers_involved flight_acids flight_lookup) as [| p pax] eqn:Hp;
    [done |].
  destruct (sorted_decreasing_head passengers (p :: pax))
    as (before & top & after & rest & Hl & Hb & Ha & Hs); [done |].
  rewrite Hs. exists before, top, after. by split_and!.
Qed.

(** [suggest_prioritization] names the first cargo flight that the
    hotspot yields and, to be protected, the first of its passenger
    flights with the greatest number of passengers.  Without a cargo
    flight among the flights that the lookup knows - as when the hotspot
    has no flight, or none that the lookup knows - it returns the text
    for passenger flights only; with cargo flights only, the text that
    names the first of them. *)
Theorem prioritization_outcome (flight_acids : list string)
    (flight_lookup : Dict.t string Flight) :
  match cargo_involved flight_acids flight_lookup,
        passengers_involved flight_acids flight_lookup with
  | [], _ =>
      suggest_prioritization flight_acids flight_lookup = only_passengers_text
  | cargo :: _, [] =>
      suggest_prioritization flight_acids flight_lookup = delay_cargo_text cargo
  | cargo :: _, _ :: _ =>
      exists before top after,
        passengers_involved flight_acids flight_lookup
        = before ++ top :: after /\
        Forall (fun f => passengers f < passengers top) before /\
        Forall (fun f => passengers f <= passengers top) after /\
        suggest_prioritization flight_acids flight_lookup
        = delay_instead_text cargo top
  end.
Proof. apply suggest_prioritization_result. Qed.

Lemma involved_Permutation acids acids' lookup :
  acids ≡ₚ acids' -> involved acids lookup ≡ₚ involved acids' lookup.
Proof. intros Hp. unfold involved. by rewrite Hp. Qed.

(** The suggestion does not depend on the order in which the set of the
    hotspot yields its identifiers, as long as its cargo flights all have
    one identifier and no two of its passenger flights with different
    identifiers have the same number of passengers. *)
Theorem prioritization_order_independent (flight_acids flight_acids' : list string)
    (flight_lookup : Dict.t string Flight) :
  flight_acids ≡ₚ flight_acids' ->
  (forall c c',
     c ∈ cargo_involved flight_acids flight_lookup ->
     c' ∈ cargo_involved flight_acids flight_lookup -> acid c = acid c') ->
  (forall p q,
     p ∈ passengers_involved flight_acids flight_lookup ->
     q ∈ passengers_involved flight_acids flight_lookup ->
     passengers p = passengers q -> acid p = acid q) ->
  suggest_prioritization flight_acids flight_lookup
  = suggest_prioritization flight_acids' flight_lookup.
Proof.
  intros Hperm Hcargo Hpax.
  assert (Hc : cargo_involved flight_acids flight_lookup
               ≡ₚ cargo_involved flight_acids' flight_lookup).
  { unfold cargo_involved. by rewrite (involved_Permutation _ _ _ Hperm). }
  assert (Hp : passengers_involved flight_acids flight_lookup
               ≡ₚ passengers_involved flight_acids' flight_lookup).
  { unfold passengers_involved. by rewrite (involved_Permutation _ _ _ Hperm). }
  pose proof (suggest_prioritization_result flight_acids flight_lookup) as H1.
  pose proof (suggest_prioritization_result flight_acids' flight_lookup) as H2.
  destruct (cargo_involved flight_acids flight_lookup) as [| c cs] eqn:Ec.
  { apply Permutation_nil_l in Hc. rewrite <- Hc in H2. congruence. }
  destruct (cargo_involved flight_acids' flight_lookup) as [| c' cs'] eqn:Ec';
    [by apply Permutation_nil_r in Hc |].
  assert (Hacid : acid c = acid c').
  { apply Hcargo; [by left |]. rewrite Hc. by left. }
  destruct (passengers_involved flight_acids flight_lookup) as [| p ps] eqn:Ep.
  { apply Permutation_nil_l in Hp. rewrite <- Hp in H2. rewrite H1, H2.
    unfold delay_cargo_text. by rewrite Hacid. }
  destruct (passengers_involved flight_acids' flight_lookup) as [| p' ps'] eqn:Ep';
    [by apply Permutation_nil_r in Hp |].
  destruct H1 as (b1 & top1 & a1 & Hl1 & Hb1 & Ha1 & ->).
  destruct H2 as (b2 & top2 & a2 & Hl2 & Hb2 & Ha2 & ->).
  assert (Hin1 : top1 ∈ p :: ps) by (rewrite Hl1; set_solver).
  assert (Hin2 : top2 ∈ p' :: ps') by (rewrite Hl2; set_solver).
  assert (Hmax1 : forall q, q ∈ p :: ps -> passengers q <= passengers top1).
  { intros q Hq. rewrite Hl1 in Hq. rewrite Forall_forall in Hb1, Ha1.
    apply elem_of_app in Hq as [Hq | Hq]; [specialize (Hb1 q Hq); lia |].
    apply elem_of_cons in Hq as [-> | Hq]; [lia | by apply Ha1]. }
  assert (Hmax2 : forall q, q ∈ p' :: ps' -> passengers q <= passengers top2).
  { intros q Hq. rewrite Hl2 in Hq. rewrite Forall_forall in Hb2, Ha2.
    apply elem_of_app in Hq as [Hq | Hq]; [specialize (Hb2 q Hq); lia |].
    apply elem_of_cons in Hq as [-> | Hq]; [lia | by apply Ha2]. }
  assert (Hsame : passengers top1 = passengers top2).
  { apply Z.le_antisymm.
    - apply Hmax2. by rewrite <- Hp.
    - apply Hmax1. by rewrite Hp. }
  assert (Htop : acid top1 = acid top2).
  { apply Hpax; [done | by rewrite Hp | done]. }
  unfold delay_instead_text. by rewrite Hacid, Htop, Hsame.
Qed.

(** The statement holds of a hotspot with one cargo flight and two
    passenger flights of 120 and 180 passengers, in two orders. *)
Lemma prioritization_order_independent_witness :
  let lookup := [ ("ACA101", a_load "ACA101" false 120);
                  ("FDX900", a_load "FDX900" true 0);
                  ("WJA202", a_load "WJA202" false 180) ] in
  ["ACA101"; "FDX900"; "WJA202"] ≡ₚ ["FDX900"; "ACA101"; "WJA202"] /\
  suggest_prioritization ["ACA101"; "FDX900"; "WJA202"] lookup
  = suggest_prioritization ["FDX900"; "ACA101"; "WJA202"] lookup /\
  suggest_prioritization ["ACA101"; "FDX900"; "WJA202"] lookup
  = delay_instead_text (a_load "FDX900" true 0) (a_load "WJA202" false 180).
Proof.
  intros lookup.
  assert (Hperm : ["ACA101"; "FDX900"; "WJA202"]
                  ≡ₚ ["FDX900"; "ACA101"; "WJA202"]) by apply perm_swap.
  split; [exact Hperm |]. split; [| vm_compute; reflexivity].
  apply (prioritization_order_independent _ _ lookup Hperm).
  - intros c c' Hc Hc'. vm_compute in Hc, Hc'.
    apply list_elem_of_singleton in Hc, Hc'. by subst.
  - intros p q Hp Hq. vm_compute in Hp, Hq.
    apply elem_of_cons in Hp as [-> | Hp], Hq as [-> | Hq]; try done;
      apply list_elem_of_singleton in Hp || apply list_elem_of_singleton in Hq;
      subst; try done;
      try (apply list_elem_of_singleton in Hq; subst; done).
Defined.

(** *** The text for a hotspot *)

Lemma hh_mm_clock t :
  datetime.MIN_TIMESTAMP <= t <= datetime.MAX_TIMESTAMP ->
  datetime.hh_mm t = Some (clock (t mod 86400 / 3600) (t mod 3600 / 60)).
Proof.
  intros [Hmin Hmax]. unfold datetime.hh_mm.
  apply Z.leb_le in Hmin, Hmax. by rewrite Hmin, Hmax.
Qed.

(** For a hotspot whose window is one of [get_time_window], within the
    years that [datetime] has, [format_hotspot_output] returns its text,
    in which the window runs from a quarter of an hour to the next one,
    past midnight if need be; the sector is written with its two bounds,
    the count as it is, and the risk by the count. *)
Theorem hotspot_text_quarters (hotspot : Hotspot) (t : Z) :
  window_start hotspot = get_time_window t ->
  datetime.MIN_TIMESTAMP <= window_start hotspot ->
  window_start hotspot + 900 <= datetime.MAX_TIMESTAMP ->
  exists hour quarter,
    0 <= hour < 24 /\ 0 <= quarter < 4 /\
    format_hotspot_output hotspot
    = Some ("🔥 Airspace congestion detected" +:+ nl
            +:+ "Sector (" +:+ lat_bound (sector_lat hotspot) +:+ ", "
            +:+ lon_bound (sector_lon hotspot) +:+ ")" +:+ nl
            +:+ "Time window: "
            +:+ (clock hour (15 * quarter) +:+ "–"
                 +:+ clock ((hour + (quarter + 1) / 4) mod 24)
                           (15 * ((quarter + 1) mod 4))
                 +:+ " UTC") +:+ nl
            +:+ "Flights: " +:+ Py.str (flight_count hotspot) +:+ nl
            +:+ "Risk: " +:+ risk (flight_count hotspot)).
Proof.
  intros Hw Hmin Hmax. unfold get_time_window in Hw.
  set (w := window_start hotspot) in *.
  exists (w mod 86400 / 3600), (w mod 3600 / 900).
  assert (H1 : w mod 3600 / 60 = 15 * (w mod 3600 / 900))
    by (rewrite Hw; Z.div_mod_to_equations; lia).
  assert (H2 : (w + 900) mod 86400 / 3600
               = (w mod 86400 / 3600 + (w mod 3600 / 900 + 1) / 4) mod 24)
    by (rewrite Hw; Z.div_mod_to_equations; lia).
  assert (H3 : (w + 900) mod 3600 / 60 = 15 * ((w mod 3600 / 900 + 1) mod 4))
    by (rewrite Hw; Z.div_mod_to_equations; lia).
  split; [Z.div_mod_to_equations; lia |].
  split; [Z.div_mod_to_equations; lia |].
  unfold format_hotspot_output. fold w.
  rewrite !hh_mm_clock by (unfold datetime.MIN_TIMESTAMP, datetime.MAX_TIMESTAMP in *; lia).
  cbn [mbind option_bind]. by rewrite H1, H2, H3.
Qed.

(** The statement holds of the hotspot of the documented route, whose
    window runs from 22:00 to 22:15. *)
Lemma hotspot_text_quarters_witness :
  let hotspot := {| sector_lat := 49; sector_lon := -111;
                    window_start := 1699999200; flight_count := 6;
                    flights := ∅ |} in
  window_start hotspot = get_time_window 1700000000 /\
  exists hour quarter,
    0 <= hour < 24 /\ 0 <= quarter < 4 /\
    format_hotspot_output hotspot
    = Some ("🔥 Airspace congestion detected" +:+ nl
            +:+ "Sector (" +:+ lat_bound 49 +:+ ", "
            +:+ lon_bound (-111) +:+ ")" +:+ nl
            +:+ "Time window: "
            +:+ (clock hour (15 * quarter) +:+ "–"
                 +:+ clock ((hour + (quarter + 1) / 4) mod 24)
                           (15 * ((quarter + 1) mod 4))
                 +:+ " UTC") +:+ nl
            +:+ "Flights: " +:+ Py.str 6 +:+ nl
            +:+ "Risk: " +:+ risk 6).
Proof.
  intros hotspot. split; [reflexivity |].
  apply (hotspot_text_quarters hotspot 1700000000); [reflexivity | |];
    unfold datetime.MIN_TIMESTAMP, datetime.MAX_TIMESTAMP; cbn; lia.
Defined.

End Hotspots.

Section Conflicts.
Import FlightAnalysis.

(** ** Further properties of the loss-of-separation detection *)


Lemma round_bounds y :
  Int_part y <= Py.round y <= Int_part y + 1.
Proof.
  unfold Py.round. destruct (Rlt_dec _ _); [lia |].
  destruct (Rlt_dec _ _); [lia |]. destruct (Z.even _); lia.
Qed.

Lemma round2_bounds x : (0 <= x < 5)%R -> (0 <= Py.round2 x <= 5)%R.
Proof.
  intros [H0 H5]. unfold Py.round2.
  pose proof (round_bounds (x * 100)) as [Hlo Hhi].
  pose proof (Int_part_bounds (x * 100)) as [Hf1 Hf2].
  assert (0 <= Int_part (x * 100))%Z.
  { apply Z.lt_succ_r, lt_IZR. rewrite succ_IZR. lra. }
  assert (Int_part (x * 100) < 500)%Z by (apply lt_IZR; lra).
  assert (0 <= IZR (Py.round (x * 100)))%R by (apply IZR_le; lia).
  assert (IZR (Py.round (x * 100)) <= 500)%R by (apply IZR_le; lia).
  lra.
Qed.

(** *** What a minute adds *)

Lemma report_new t acid1 acid2 f1 f2 dist st st' :
  acid1 <> acid2 -> ~ vertically_separated f1 f2 -> (0 <= dist < 5)%R ->
  report t acid1 acid2 f1 f2 dist st = Ok st' ->
  exists new, st'.1 = st.1 ++ new /\ Forall (sound_record t) new.
Proof.
  intros Hne Hclose Hdist. unfold report.
  destruct (decide _); [intros [= <-]; exists []; by rewrite app_nil_r |].
  destruct (altitude f1) as [alt1 |] eqn:H1; [| done].
  destruct (altitude f2) as [alt2 |] eqn:H2; [| done].
  intros [= <-]. cbn [fst]. eexists. split; [done |].
  constructor; [| constructor]. unfold sound_record. cbn.
  split_and!; [done | lia | | | | done | done].
  - destruct (Z.lt_ge_cases (Z.abs (alt1 - alt2)) VERT_SEP_FT) as [? | Hge];
      [done |].
    destruct Hclose. by exists alt1, alt2.
  - by apply round2_bounds.
  - unfold HORIZ_SEP_NM. pose proof (round2_bounds dist Hdist). lra.
Qed.

Lemma check_pair_new fo t acid1 pos1 f1 a2 st st' :
  acid1 <> a2.1 ->
  check_pair fo t acid1 pos1 f1 a2 st = Ok st' ->
  exists new, st'.1 = st.1 ++ new /\ Forall (sound_record t) new.
Proof.
  destruct a2 as [acid2 pos2]. cbn [fst]. intros Hne.
  destruct (Dict.get acid2 fo) as [f2 |] eqn:Hf2.
  - rewrite (check_pair_decision _ _ _ _ _ _ _ _ _ Hf2).
    destruct (decide _) as [Hv | Hv];
      [intros [= <-]; exists []; by rewrite app_nil_r |].
    destruct (Rlt_dec _ _) as [Hd | Hd];
      [| intros [= <-]; exists []; by rewrite app_nil_r].
    apply report_new; [done | done |].
    pose proof (central_angle_bounds pos1 pos2). split; lra.
  - unfold check_pair, Dict.item. destruct st. by rewrite Hf2.
Qed.

Lemma for_each_new {A} (Q : ConflictRecord -> Prop)
    (body : A -> detection -> result detection) xs :
  (forall x st st', x ∈ xs -> body x st = Ok st' ->
                    exists new, st'.1 = st.1 ++ new /\ Forall Q new) ->
  forall st st', Py.for_each body xs st = Ok st' ->
                 exists new, st'.1 = st.1 ++ new /\ Forall Q new.
Proof.
  induction xs as [| x xs IH]; intros Hstep st st' Hrun.
  - cbn in Hrun. injection Hrun as <-. exists []. by rewrite app_nil_r.
  - rewrite for_each_cons in Hrun.
    apply bind_Ok_inv in Hrun as (st1 & Hx & Hrest).
    destruct (Hstep x st st1) as (new1 & H1 & HQ1); [by left | done |].
    destruct (IH (fun y s s' Hy => Hstep y s s' (list_elem_of_further _ _ _ Hy))
                 st1 st' Hrest) as (new2 & H2 & HQ2).
    exists (new1 ++ new2). rewrite H2, H1, <- app_assoc. split; [done |].
    by apply Forall_app.
Qed.

Lemma check_pairs_new fo t l st st' :
  NoDup (fst <$> l) ->
  check_pairs fo t l st = Ok st' ->
  exists new, st'.1 = st.1 ++ new /\ Forall (sound_record t) new.
Proof.
  revert st. induction l as [| [acid1 pos1] l IH]; intros st Hnd Hrun.
  - cbn in Hrun. injection Hrun as <-. exists []. by rewrite app_nil_r.
  - rewrite fmap_cons in Hnd. cbn [fst] in Hnd.
    apply NoDup_cons in Hnd as [Hacid1 Hnd]. cbn [check_pairs] in Hrun.
    apply bind_Ok_inv in Hrun as (f1 & _ & Hrun).
    apply bind_Ok_inv in Hrun as (st1 & Hinner & Hrest).
    eapply (for_each_new (sound_record t)) in Hinner as (new1 & H1 & HQ1).
    + destruct (IH st1 Hnd Hrest) as (new2 & H2 & HQ2).
      exists (new1 ++ new2). rewrite H2, H1, <- app_assoc. split; [done |].
      by apply Forall_app.
    + intros a2 s s' Ha2. apply check_pair_new. intros ->. apply Hacid1.
      apply list_elem_of_fmap. by exists a2.
Qed.

Lemma check_minute_new fs ft fo t st st' :
  registered fs (ft, fo) -> t ∈ Dict.keys (invert ft) ->
  check_minute fo (invert ft) t st = Ok st' ->
  exists new, st'.1 = st.1 ++ new /\ Forall (sound_record t) new.
Proof.
  intros Hreg Ht. rewrite (check_minute_occupants fs) by done.
  apply check_pairs_new.
  by destruct (occupants_registered fs ft fo t Hreg) as [Hnd _].
Qed.

(** The minutes of the index are minutes of the trajectories. *)
Lemma indexed_minute fs ft fo t :
  registered fs (ft, fo) -> t ∈ Dict.keys (invert ft) -> t mod 60 = 0.
Proof.
  intros Hreg Ht.
  destruct (invert_item ft t (registered_trajectories _ _ _ Hreg) Ht)
    as [_ Hocc].
  destruct (occupants ft t) as [| [a pos] l] eqn:Hl; [done |].
  assert (Hin : (a, pos) ∈ occupants ft t) by (rewrite Hl; by left).
  unfold occupants in Hin. apply list_elem_of_omap in Hin as ([a' traj] & He & Hg).
  cbn [fst snd] in Hg. destruct (Dict.get t traj) as [pos' |] eqn:Hget; [| done].
  injection Hg as <- <-. apply get_Some_elem in Hget.
  destruct Hreg as (Hnd & Htraj & _). cbn [fst snd] in *.
  apply (elem_get_Some _ _ _ Hnd) in He.
  apply Htraj in He as (_ & _ & f & _ & _ & Hgen).
  destruct (departure_time f) as [dep |] eqn:Hdep.
  - apply (generate_entries (fun e => e.1 mod 60 = 0) f (flight_path f) traj dep
             Hgen Hdep) in Hget; [exact Hget |].
    intros. cbn [fst]. apply Z_mod_mult.
  - rewrite generate_without_departure in Hgen by auto.
    injection Hgen as <-. by apply elem_of_nil in Hget.
Qed.

(** A record is a conflict: its two flights are different flights of the
    input with trajectories, their altitudes differ by less than 2000 ft,
    the distance it gives is between 0 and 5.0 nm (5.0 when the distance
    rounds up to it), and its minute is a whole one. *)
Theorem conflict_record_sound (fs : list Flight) (rs : list ConflictRecord)
    (r : ConflictRecord) :
  detect_loss_of_separation fs = Ok rs -> r ∈ rs ->
  sound_record (start_time_overlap r) r /\
  start_time_overlap r mod 60 = 0 /\
  forall a, a = flight1 r \/ a = flight2 r ->
    exists f traj,
      f ∈ fs /\ acid f = a /\
      generate_4d_trajectory f (flight_path f) 60 = Ok traj /\ traj <> [].
Proof.
  intros Hrun Hr.
  pose proof (detect_mentions fs rs r Hrun Hr) as Hmentions.
  destruct (detect_steps fs) as (ft & fo & Hreg & _ & Hdet).
  rewrite Hdet in Hrun. apply bind_Ok_inv in Hrun as (st & Hloop & [= <-]).
  eapply (for_each_new
            (fun r => exists t, t ∈ Dict.keys (invert ft) /\ sound_record t r))
    in Hloop as (new & Hnew & Hall).
  - cbn [fst app] in Hnew. rewrite Hnew in Hr. rewrite Forall_forall in Hall.
    destruct (Hall r Hr) as (t & Ht & Hsound).
    assert (Htime : start_time_overlap r = t) by (by destruct Hsound as (_ & _ & _ & _ & ?)).
    rewrite Htime. split_and!; [done | by eapply indexed_minute | done].
  - intros t s s' Ht Hm. apply sorted_times_keys in Ht.
    destruct (check_minute_new fs ft fo t s s' Hreg Ht Hm) as (new & Hnew & Hall).
    exists new. split; [done |]. eapply Forall_impl; [exact Hall |].
    intros r' Hr'. by exists t.
Qed.

Lemma documented_conflict :
  exists r,
    detect_loss_of_separation
      [on_documented_route "F1"; on_documented_route "F2"] = Ok [r].
Proof.
  destruct (documented_trajectory "F1" (Some 35000)) as (traj & Hgen & Hne).
  assert (Hacid : acid (on_documented_route "F1")
                  <> acid (on_documented_route "F2")) by done.
  assert (Hgen2 : generate_4d_trajectory (on_documented_route "F2")
                    (flight_path (on_documented_route "F2")) 60 = Ok traj).
  { rewrite <- Hgen. unfold on_documented_route. rewrite !documented_path.
    by apply generate_same_inputs. }
  destruct (identical_detection (on_documented_route "F1")
              (on_documented_route "F2") traj Hacid Hgen Hgen2 Hne)
    as (t0 & ts & _ & Hrun).
  { intros (a1 & a2 & [= <-] & [= <-] & Hle). unfold VERT_SEP_FT in Hle. lia. }
  rewrite Hrun. unfold report. cbn [fst snd].
  rewrite decide_False by set_solver. cbn. eauto.
Qed.

(** The statement holds of two flights along the documented route at the
    same time and altitude, which give one record. *)
Lemma conflict_record_sound_witness :
  exists r,
    detect_loss_of_separation
      [on_documented_route "F1"; on_documented_route "F2"] = Ok [r] /\
    sound_record (start_time_overlap r) r /\
    start_time_overlap r mod 60 = 0.
Proof.
  destruct documented_conflict as [r Hrun].
  exists r. split; [exact Hrun |].
  destruct (conflict_record_sound _ [r] r Hrun) as (Hsound & Hminute & _).
  - by left.
  - split; [exact Hsound | exact Hminute].
Defined.

(** *** The order of the records *)





(** *** Flights that do not move *)




(** *** From the file to the detectors *)

Lemma typed_schedule o f :
  typed o = Some f ->
  is_Some (altitude f) /\ has_schedule f /\
  plane_type f = default None (text (FlightLoader.plane_type o)).
Proof.
  unfold typed. destruct (FlightLoader.acid o); try done.
  destruct (text (FlightLoader.plane_type o)) as [plane |]; [| done].
  destruct (text (FlightLoader.route o)) as [way |]; [| done].
  destruct (text (FlightLoader.departure_airport o)) as [departure |]; [| done].
  destruct (text (FlightLoader.arrival_airport o)) as [arrival |]; [| done].
  cbn. intros [= <-]. cbn. split_and!; [eauto | split; eauto | done].
Qed.







(** A record without a plane type, loaded and validated: when the key
    is missing the flight gets the type ["Unknown"], which no table
    lists, and [validate_flight] has no issue with it whatever its
    altitude and speed; when the key holds [null] the flight has no plane
    type and the one issue is that it is missing. *)
Theorem record_without_plane_type (data : Dict.t string FlightLoader.json)
    (o : FlightLoader.Flight) (f : Flight) :
  FlightLoader.from_dict (FlightLoader.JDict data) = inr (Some o) ->
  typed o = Some f ->
  (Dict.get "Plane type" data = None -> validate_flight f = []) /\
  (Dict.get "Plane type" data = Some FlightLoader.JNull ->
   validate_flight f = [ {| flight := acid f; issue := Missing_plane_type |} ]).
Proof.
  intros Hfrom Htyped.
  destruct (from_dict_fields _ _ Hfrom)
    as (_ & _ & _ & _ & _ & _ & Hplane & _).
  destruct (typed_schedule o f Htyped) as (_ & _ & Hpt).
  rewrite Hplane in Hpt. split; intros Hkey.
  - rewrite (get_missing _ _ _ Hkey) in Hpt. cbn in Hpt.
    apply (validate_flight_checks f "Unknown" None None Hpt).
    + vm_compute. reflexivity.
    + vm_compute. reflexivity.
    + split; intros ? ? ? _ [=].
  - rewrite (get_present _ _ _ _ Hkey) in Hpt. cbn in Hpt.
    unfold validate_flight. by rewrite Hpt.
Qed.

(** The statement holds of a record with an identifier, an altitude and
    a speed far out of every range, and no plane type. *)
Lemma record_without_plane_type_witness :
  let data := [ ("ACID", FlightLoader.JStr "ACA101");
                ("altitude", FlightLoader.JInt 99000);
                ("aircraft speed", FlightLoader.JInt 9999) ] in
  exists o f,
    FlightLoader.from_dict (FlightLoader.JDict data) = inr (Some o) /\
    typed o = Some f /\
    altitude f = Some 99000 /\
    validate_flight f = [].
Proof.
  intros data.
  assert (Hfrom : exists o,
             FlightLoader.from_dict (FlightLoader.JDict data) = inr (Some o))
    by (vm_compute; eauto).
  destruct Hfrom as [o Hfrom].
  assert (Htyped : exists f, typed o = Some f /\ altitude f = Some 99000).
  { pose proof Hfrom as H. vm_compute in H. injection H as <-.
    vm_compute. eauto. }
  destruct Htyped as (f & Htyped & Halt).
  exists o, f. split; [exact Hfrom |]. split; [exact Htyped |].
  split; [exact Halt |].
  apply (record_without_plane_type data o f Hfrom Htyped). reflexivity.
Defined.

End Conflicts.

Section Detection.
Import FlightAnalysis.

(** ** Which conflicts the detector reports, and when *)


Implicit Types (fo : Dict.t string Flight) (l rest : list (string * coord)).
Implicit Types (st : detection) (t : Z).

(** *** One pair *)

Lemma check_pair_cases fo t a1 pos1 f1 a2 pos2 f2 st st' :
  Dict.get a2 fo = Some f2 ->
  check_pair fo t a1 pos1 f1 (a2, pos2) st = Ok st' ->
  (st' = st /\
   (vertically_separated f1 f2 \/
    (~ (6371 * central_angle pos1 pos2 / 1.852 < 5)%R) \/
    pair_key a1 a2 ∈ st.2)) \/
  (~ vertically_separated f1 f2 /\
   (6371 * central_angle pos1 pos2 / 1.852 < 5)%R /\
   (pair_key a1 a2 ∉ st.2) /\
   exists alt1 alt2,
     altitude f1 = Some alt1 /\ altitude f2 = Some alt2 /\
     st' = (st.1 ++ [record_at t a1 a2 pos1 pos2 alt1 alt2],
            {[ pair_key a1 a2 ]} ∪ st.2)).
Proof.
  intros Hf2. rewrite (check_pair_decision _ _ _ _ _ _ _ _ _ Hf2).
  destruct (decide _) as [Hv | Hv]; [intros [= <-]; left; auto |].
  destruct (Rlt_dec _ _) as [Hd | Hd]; [| intros [= <-]; left; auto].
  unfold report. destruct (decide _) as [Hin | Hnin];
    [intros [= <-]; left; auto |].
  destruct (altitude f1) as [alt1 |] eqn:H1; [| done].
  destruct (altitude f2) as [alt2 |] eqn:H2; [| done].
  intros [= <-]. right. split_and!; [done | done | done |].
  by exists alt1, alt2.
Qed.

Lemma not_separated_close f1 f2 alt1 alt2 :
  altitude f1 = Some alt1 -> altitude f2 = Some alt2 ->
  ~ vertically_separated f1 f2 -> Z.abs (alt1 - alt2) < VERT_SEP_FT.
Proof.
  intros H1 H2 Hv.
  destruct (Z.lt_ge_cases (Z.abs (alt1 - alt2)) VERT_SEP_FT) as [? | Hge];
    [done |].
  destruct Hv. by exists alt1, alt2.
Qed.

Lemma advances_refl fo l t st : advances fo l t st st.
Proof. split; [done |]. exists []. by rewrite app_nil_r. Qed.

Lemma advances_trans fo l t st1 st2 st3 :
  advances fo l t st1 st2 -> advances fo l t st2 st3 -> advances fo l t st1 st3.
Proof.
  intros [Ha1 (new1 & H1 & HQ1)] [Ha2 (new2 & H2 & HQ2)]. split; [auto |].
  exists (new1 ++ new2). rewrite H2, H1, <- app_assoc. split; [done |].
  by apply Forall_app.
Qed.

Lemma advances_has_record fo l t st st' k :
  advances fo l t st st' -> has_record k st -> has_record k st'.
Proof.
  intros [_ (new & Hnew & _)] (r & Hr & Hk). exists r. split; [| done].
  rewrite Hnew. apply elem_of_app. by left.
Qed.

Lemma check_pair_advances fo l t a1 pos1 f1 a2 pos2 st st' :
  (a1, pos1) ∈ l -> (a2, pos2) ∈ l -> a1 <> a2 ->
  Dict.get a1 fo = Some f1 ->
  check_pair fo t a1 pos1 f1 (a2, pos2) st = Ok st' ->
  advances fo l t st st'.
Proof.
  intros Hin1 Hin2 Hne Hf1 Hrun.
  destruct (Dict.get a2 fo) as [f2 |] eqn:Hf2;
    [| unfold check_pair, Dict.item in Hrun; destruct st;
       by rewrite Hf2 in Hrun].
  destruct (check_pair_cases _ _ _ _ _ _ _ _ _ _ Hf2 Hrun)
    as [[-> _] | (Hv & Hd & Hnin & alt1 & alt2 & H1 & H2 & ->)];
    [apply advances_refl |].
  split.
  - intros Hact k Hk. cbn [fst snd] in *.
    apply elem_of_union in Hk as [Hk | Hk].
    + apply elem_of_singleton in Hk as ->.
      exists (record_at t a1 a2 pos1 pos2 alt1 alt2). split; [| done].
      apply elem_of_app. right. by left.
    + destruct (Hact k Hk) as (r & Hr & Hkey). exists r. split; [| done].
      apply elem_of_app. by left.
  - eexists. split; [done |]. constructor; [| constructor].
    exists a1, a2, pos1, pos2, f1, f2, alt1, alt2.
    split_and!; try done. by eapply not_separated_close.
Qed.

Lemma check_pair_detects fo l t a1 pos1 f1 a2 pos2 f2 st st' :
  Dict.get a2 fo = Some f2 ->
  check_pair fo t a1 pos1 f1 (a2, pos2) st = Ok st' ->
  ~ vertically_separated f1 f2 ->
  (6371 * central_angle pos1 pos2 / 1.852 < 5)%R ->
  active_recorded st ->
  has_record (pair_key a1 a2) st'.
Proof.
  intros Hf2 Hrun Hv Hd Hact.
  destruct (check_pair_cases _ _ _ _ _ _ _ _ _ _ Hf2 Hrun)
    as [[-> [? | [? | Hin]]] | (_ & _ & _ & alt1 & alt2 & _ & _ & ->)];
    [done | done | by apply Hact |].
  exists (record_at t a1 a2 pos1 pos2 alt1 alt2). split; [| done].
  cbn [fst]. apply elem_of_app. right. by left.
Qed.

(** *** The pairs of a minute *)

Lemma for_each_advances {A} fo l t
    (body : A -> detection -> result detection) xs :
  (forall x st st', x ∈ xs -> body x st = Ok st' -> advances fo l t st st') ->
  forall st st', Py.for_each body xs st = Ok st' -> advances fo l t st st'.
Proof.
  induction xs as [| x xs IH]; intros Hstep st st' Hrun.
  - cbn in Hrun. injection Hrun as <-. apply advances_refl.
  - rewrite for_each_cons in Hrun.
    apply bind_Ok_inv in Hrun as (st1 & Hx & Hrest).
    eapply advances_trans.
    + eapply Hstep; [by left | exact Hx].
    + apply IH; [| exact Hrest]. intros y s s' Hy. apply Hstep. by right.
Qed.

Lemma inner_advances fo l t a1 pos1 f1 rest st st' :
  (a1, pos1) ∈ l -> (forall e, e ∈ rest -> e ∈ l) ->
  a1 ∉ fst <$> rest -> Dict.get a1 fo = Some f1 ->
  Py.for_each (check_pair fo t a1 pos1 f1) rest st = Ok st' ->
  advances fo l t st st'.
Proof.
  intros Hin Hsub Hnot Hf1. apply for_each_advances.
  intros [a2 pos2] s s' He. apply check_pair_advances; [done | by apply Hsub | | done].
  intros ->. apply Hnot. apply list_elem_of_fmap. by exists (a2, pos2).
Qed.

Lemma check_pairs_advances fo l0 t l st st' :
  (forall e, e ∈ l -> e ∈ l0) -> NoDup (fst <$> l) ->
  check_pairs fo t l st = Ok st' -> advances fo l0 t st st'.
Proof.
  revert st. induction l as [| [a1 pos1] l IH]; intros st Hsub Hnd Hrun.
  - cbn in Hrun. injection Hrun as <-. apply advances_refl.
  - rewrite fmap_cons in Hnd. cbn [fst] in Hnd.
    apply NoDup_cons in Hnd as [Ha1 Hnd]. cbn [check_pairs] in Hrun.
    apply bind_Ok_inv in Hrun as (f1 & Hf1 & Hrun).
    apply bind_Ok_inv in Hrun as (st1 & Hinner & Hrest).
    unfold Dict.item in Hf1.
    destruct (Dict.get a1 fo) as [f1' |] eqn:Hget; [| done].
    injection Hf1 as ->.
    eapply advances_trans.
    + eapply (inner_advances fo l0 t a1 pos1 f1 l); try done.
      * apply Hsub. by left.
      * intros e He. apply Hsub. by right.
    + apply IH; [| done | done]. intros e He. apply Hsub. by right.
Qed.

Lemma inner_detects fo l t a1 pos1 f1 a2 pos2 f2 rest st st' :
  (a1, pos1) ∈ l -> (forall e, e ∈ rest -> e ∈ l) ->
  a1 ∉ fst <$> rest -> Dict.get a1 fo = Some f1 ->
  (a2, pos2) ∈ rest -> Dict.get a2 fo = Some f2 ->
  ~ vertically_separated f1 f2 ->
  (6371 * central_angle pos1 pos2 / 1.852 < 5)%R ->
  active_recorded st ->
  Py.for_each (check_pair fo t a1 pos1 f1) rest st = Ok st' ->
  has_record (pair_key a1 a2) st'.
Proof.
  intros Hin Hsub Hnot Hf1 Hin2 Hf2 Hv Hd Hact Hrun.
  apply list_elem_of_split in Hin2 as (r1 & r2 & ->).
  rewrite for_each_app in Hrun.
  apply bind_Ok_inv in Hrun as (s1 & Hr1 & Hrun).
  rewrite for_each_cons in Hrun.
  apply bind_Ok_inv in Hrun as (s2 & Hturn & Hr2).
  assert (Hnot1 : a1 ∉ fst <$> r1).
  { intros H. apply Hnot. rewrite fmap_app. apply elem_of_app. by left. }
  assert (Hnot2 : a1 ∉ fst <$> r2).
  { intros H. apply Hnot. rewrite fmap_app, fmap_cons.
    apply elem_of_app. right. by right. }
  assert (Hadv1 : advances fo l t st s1).
  { apply (inner_advances fo l t a1 pos1 f1 r1 st s1 Hin); try done.
    intros e He. apply Hsub. apply elem_of_app. by left. }
  apply (advances_has_record fo l t s2 st').
  - apply (inner_advances fo l t a1 pos1 f1 r2 s2 st' Hin); try done.
    intros e He. apply Hsub. apply elem_of_app. right. by right.
  - apply (check_pair_detects fo l t a1 pos1 f1 a2 pos2 f2 s1 s2 Hf2 Hturn Hv Hd).
    by apply Hadv1.
Qed.

Lemma check_pairs_detects fo l0 t l x px y py fx fy st st' :
  (forall e, e ∈ l -> e ∈ l0) -> NoDup (fst <$> l) ->
  (x, px) ∈ l -> (y, py) ∈ l -> x <> y ->
  Dict.get x fo = Some fx -> Dict.get y fo = Some fy ->
  ~ vertically_separated fx fy ->
  (6371 * central_angle px py / 1.852 < 5)%R ->
  active_recorded st ->
  check_pairs fo t l st = Ok st' ->
  has_record (pair_key x y) st'.
Proof.
  intros Hsub Hnd Hx Hy Hxy Hfx Hfy Hv Hd. revert st Hsub Hnd Hx Hy.
  induction l as [| [a1 pos1] l IH]; intros st Hsub Hnd Hx Hy Hact Hrun;
    [by apply elem_of_nil in Hx |].
  rewrite fmap_cons in Hnd. cbn [fst] in Hnd.
  apply NoDup_cons in Hnd as [Ha1 Hnd]. cbn [check_pairs] in Hrun.
  apply bind_Ok_inv in Hrun as (f1 & Hf1 & Hrun).
  apply bind_Ok_inv in Hrun as (st1 & Hinner & Hrest).
  unfold Dict.item in Hf1.
  destruct (Dict.get a1 fo) as [f1' |] eqn:Hget; [| done].
  injection Hf1 as ->.
  assert (Hhead : (a1, pos1) ∈ l0) by (apply Hsub; by left).
  assert (Hsub' : forall e, e ∈ l -> e ∈ l0)
    by (intros e He; apply Hsub; by right).
  assert (Hadv : advances fo l0 t st st1)
    by (by apply (inner_advances fo l0 t a1 pos1 f1 l st st1)).
  assert (Hadv' : advances fo l0 t st1 st')
    by (by apply (check_pairs_advances fo l0 t l st1 st')).
  assert (Hfst : forall a p, (a, p) ∈ l -> a ∈ fst <$> l).
  { intros a p Hap. apply list_elem_of_fmap. by exists (a, p). }
  apply elem_of_cons in Hx as [[= -> ->] | Hx];
    apply elem_of_cons in Hy as [[= -> ->] | Hy].
  - done.
  - apply (advances_has_record fo l0 t st1 st' _ Hadv').
    rewrite Hget in Hfx. injection Hfx as ->.
    by apply (inner_detects fo l0 t a1 pos1 fx y py fy l st st1).
  - apply (advances_has_record fo l0 t st1 st' _ Hadv').
    rewrite Hget in Hfy. injection Hfy as ->.
    rewrite pair_key_sym.
    apply (inner_detects fo l0 t a1 pos1 fy x px fx l st st1); try done.
    + intros Hs. by apply Hv, vertically_separated_sym.
    + by rewrite central_angle_sym.
  - apply (IH st1); try done. by apply Hadv.
Qed.

(** *** The minutes *)

Lemma minute_advances fs ft fo t st st' :
  registered fs (ft, fo) -> t ∈ Dict.keys (invert ft) ->
  check_minute fo (invert ft) t st = Ok st' ->
  advances fo (occupants ft t) t st st'.
Proof.
  intros Hreg Ht. rewrite (check_minute_occupants fs) by done.
  apply check_pairs_advances; [done |].
  by destruct (occupants_registered fs ft fo t Hreg) as [Hnd _].
Qed.

Lemma minutes_advance fs ft fo ts st st' :
  registered fs (ft, fo) ->
  (forall t, t ∈ ts -> t ∈ Dict.keys (invert ft)) ->
  Py.for_each (check_minute fo (invert ft)) ts st = Ok st' ->
  (active_recorded st -> active_recorded st') /\
  exists new,
    st'.1 = st.1 ++ new /\
    Forall (fun r => exists t, t ∈ ts /\ recorded fo (occupants ft t) t r) new.
Proof.
  intros Hreg. revert st. induction ts as [| t ts IH]; intros st Hkeys Hrun.
  - cbn in Hrun. injection Hrun as <-. split; [done |].
    exists []. by rewrite app_nil_r.
  - rewrite for_each_cons in Hrun.
    apply bind_Ok_inv in Hrun as (st1 & Hm & Hrest).
    destruct (minute_advances fs ft fo t st st1 Hreg) as [Ha1 (new1 & H1 & HQ1)];
      [apply Hkeys; by left | done |].
    destruct (IH st1) as [Ha2 (new2 & H2 & HQ2)];
      [intros; apply Hkeys; by right | done |].
    split; [auto |]. exists (new1 ++ new2).
    rewrite H2, H1, <- app_assoc. split; [done |]. apply Forall_app. split.
    + eapply Forall_impl; [exact HQ1 |]. intros r Hr. exists t. split; [by left | done].
    + eapply Forall_impl; [exact HQ2 |]. intros r (t' & Ht' & Hr).
      exists t'. split; [by right | done].
Qed.

Lemma recorded_minute fo l t r : recorded fo l t r -> start_time_overlap r = t.
Proof. by intros (? & ? & ? & ? & ? & ? & ? & ? & _ & _ & _ & _ & _ & _ & _ & _ & _ & ->). Qed.

(** *** Step 1 registers every flight that moves *)

Lemma preprocess_complete fs (s s' : Dict.t string trajectory * Dict.t string Flight) :
  NoDup (acid <$> fs) ->
  Py.for_each preprocess fs s = Ok s' ->
  (forall f, f ∈ fs -> Dict.get (acid f) s.1 = None) ->
  (forall f traj,
     f ∈ fs -> generate_4d_trajectory f (flight_path f) 60 = Ok traj ->
     Dict.get (acid f) s'.2 = Some f /\
     (traj <> [] -> Dict.get (acid f) s'.1 = Some traj)) /\
  (forall a, a ∉ acid <$> fs ->
     Dict.get a s'.1 = Dict.get a s.1 /\ Dict.get a s'.2 = Dict.get a s.2).
Proof.
  revert s. induction fs as [| f fs IH]; intros [ft fo] Hnd Hrun Hfresh.
  - cbn in Hrun. injection Hrun as <-. split; [| done].
    intros f traj Hf. by apply elem_of_nil in Hf.
  - rewrite fmap_cons in Hnd. apply NoDup_cons in Hnd as [Hf Hnd].
    rewrite for_each_cons in Hrun.
    destruct (preprocess_result f ft fo) as (traj0 & Hgen & Hpre).
    rewrite Hpre, bind_Ok in Hrun.
    set (ft1 := match traj0 with [] => ft | _ => Dict.set (acid f) traj0 ft end)
      in *.
    assert (Hother : forall a, a <> acid f -> Dict.get a ft1 = Dict.get a ft).
    { intros a Ha. unfold ft1. destruct traj0; [done |].
      by rewrite get_set_ne. }
    destruct (IH (ft1, Dict.set (acid f) f fo) Hnd Hrun) as [Hin Hframe].
    { intros g Hg. cbn [fst]. rewrite Hother.
      - apply (Hfresh g). by right.
      - intros Heq. apply Hf. rewrite <- Heq.
        apply list_elem_of_fmap. by exists g. }
    cbn [fst snd] in *. split.
    + intros g traj Hg Hgg. apply elem_of_cons in Hg as [-> | Hg];
        [| by apply Hin].
      destruct (Hframe (acid f) Hf) as [H1 H2]. rewrite H1, H2.
      rewrite get_set_eq. split; [done |]. intros Hne.
      rewrite Hgen in Hgg. injection Hgg as ->. unfold ft1.
      destruct traj; [done |]. by rewrite get_set_eq.
    + intros a Ha. apply not_elem_of_cons in Ha as [Ha Ha'].
      destruct (Hframe a Ha') as [H1 H2]. rewrite H1, H2.
      rewrite Hother by done. by rewrite get_set_ne.
Qed.

Lemma elem_of_occupants ft t a pos :
  (a, pos) ∈ occupants ft t <->
  exists traj, (a, traj) ∈ ft /\ Dict.get t traj = Some pos.
Proof.
  unfold occupants. rewrite list_elem_of_omap. split.
  - intros ([a' traj] & He & Hg). cbn [fst snd] in Hg.
    destruct (Dict.get t traj) as [pos' |] eqn:Hget; [| done].
    injection Hg as <- <-. eauto.
  - intros (traj & He & Hget). exists (a, traj). split; [done |].
    cbn [fst snd]. by rewrite Hget.
Qed.

Lemma close_at_positions traj1 traj2 t :
  close_at traj1 traj2 t <->
  exists pos1 pos2,
    Dict.get t traj1 = Some pos1 /\ Dict.get t traj2 = Some pos2 /\
    (6371 * central_angle pos1 pos2 / 1.852 < 5)%R.
Proof.
  unfold close_at, separation_at.
  destruct (Dict.get t traj1) as [pos1 |]; cbn;
    [| split; [done | by intros (? & ? & ? & _)]].
  destruct (Dict.get t traj2) as [pos2 |]; cbn;
    [| split; [done | by intros (? & ? & _ & ? & _)]].
  split; [eauto |]. by intros (? & ? & [= <-] & [= <-] & ?).
Qed.

Lemma NoDup_fmap_elem {A B} (f : A -> B) (l : list A) x y :
  NoDup (f <$> l) -> x ∈ l -> y ∈ l -> f x = f y -> x = y.
Proof.
  intros Hnd Hx Hy Heq.
  apply list_elem_of_lookup in Hx as [i Hi], Hy as [j Hj].
  assert (i = j).
  { eapply NoDup_lookup; [exact Hnd | |].
    - rewrite list_lookup_fmap, Hi. reflexivity.
    - rewrite list_lookup_fmap, Hj. cbn. by rewrite Heq. }
  subst. congruence.
Qed.

(** *** Every conflict is reported, at its first minute *)

Lemma detect_complete fs rs f g t :
  NoDup (acid <$> fs) ->
  detect_loss_of_separation fs = Ok rs ->
  f ∈ fs -> g ∈ fs -> acid f <> acid g ->
  in_conflict f g t ->
  exists r,
    r ∈ rs /\ record_key r = pair_key (acid f) (acid g) /\
    start_time_overlap r <= t.
Proof.
  intros Hnd Hrun Hf Hg Hfg (tf & tg & Hgf & Hgg & Hclose & Hv).
  apply close_at_positions in Hclose as (pf & pg & Hpf & Hpg & Hd).
  destruct (detect_steps fs) as (ft & fo & Hreg & Hpre & Hdet).
  rewrite Hdet in Hrun. apply bind_Ok_inv in Hrun as (st & Hloop & [= <-]).
  destruct (preprocess_complete fs _ _ Hnd Hpre) as [Hin _]; [done |].
  cbn [fst snd] in Hin.
  destruct (Hin f tf Hf Hgf) as [Hfo_f Hft_f].
  destruct (Hin g tg Hg Hgg) as [Hfo_g Hft_g].
  assert (Hocc_f : (acid f, pf) ∈ occupants ft t).
  { apply elem_of_occupants. exists tf. split; [| done].
    apply get_Some_elem, Hft_f. intros ->. done. }
  assert (Hocc_g : (acid g, pg) ∈ occupants ft t).
  { apply elem_of_occupants. exists tg. split; [| done].
    apply get_Some_elem, Hft_g. intros ->. done. }
  assert (Ht : t ∈ Dict.keys (invert ft)).
  { apply invert_keys; [by eapply registered_trajectories |].
    intros Hnil. rewrite Hnil in Hocc_f. by apply elem_of_nil in Hocc_f. }
  pose proof (sorted_times_ascending (Dict.keys (invert ft))) as Hsorted.
  apply sorted_times_keys in Ht as Hts.
  apply list_elem_of_split in Hts as (l1 & l2 & Hsplit).
  assert (Hkeys : forall t', t' ∈ l1 ++ t :: l2 -> t' ∈ Dict.keys (invert ft)).
  { intros t' Ht'. rewrite <- Hsplit in Ht'. by apply sorted_times_keys in Ht'. }
  rewrite Hsplit in Hloop, Hsorted. rewrite for_each_app in Hloop.
  apply bind_Ok_inv in Hloop as (s1 & Hl1 & Hloop).
  rewrite for_each_cons in Hloop.
  apply bind_Ok_inv in Hloop as (s2 & Hminute & Hl2).
  destruct (minutes_advance fs ft fo l1 ([], ∅) s1 Hreg)
    as [Hact1 (new1 & Hnew1 & HQ1)];
    [intros; apply Hkeys, elem_of_app; by left | done |].
  assert (Hs1 : active_recorded s1).
  { apply Hact1. intros k Hk. by apply elem_of_empty in Hk. }
  destruct (minute_advances fs ft fo t s1 s2 Hreg Ht Hminute)
    as [_ (newt & Hnewt & HQt)].
  assert (Hrec : has_record (pair_key (acid f) (acid g)) s2).
  { rewrite (check_minute_occupants fs) in Hminute by done.
    destruct (occupants_registered fs ft fo t Hreg) as [Hnd' _].
    by apply (check_pairs_detects fo (occupants ft t) t (occupants ft t)
                (acid f) pf (acid g) pg f g s1 s2). }
  destruct Hrec as (r & Hr & Hkey).
  destruct (minutes_advance fs ft fo l2 s2 st Hreg) as [_ (new2 & Hnew2 & _)];
    [intros; apply Hkeys, elem_of_app; right; by right | done |].
  exists r. split_and!; [| done |].
  - rewrite Hnew2. apply elem_of_app. by left.
  - rewrite Hnewt, Hnew1 in Hr. cbn [fst app] in Hr.
    rewrite Forall_forall in HQ1, HQt.
    apply elem_of_app in Hr as [Hr | Hr].
    + destruct (HQ1 r Hr) as (t' & Ht' & Hrec).
      rewrite (recorded_minute _ _ _ _ Hrec).
      apply Z.leb_le.
      apply (StronglySorted_app_1_elem_of _ _ _ _ _ Hsorted); [done | by left].
    + rewrite (recorded_minute _ _ _ _ (HQt r Hr)). lia.
Qed.

(** Every conflict is reported: when the run returns, for two flights of
    the input (identifiers all distinct) that at some minute are both on
    their trajectories less than 5 nm apart, with altitudes that do not
    separate them, there is a record for the pair, at that minute or
    before. *)
Theorem conflict_detected (fs : list Flight) (rs : list ConflictRecord)
    (f g : Flight) (t : Z) :
  NoDup (acid <$> fs) ->
  detect_loss_of_separation fs = Ok rs ->
  f ∈ fs -> g ∈ fs -> acid f <> acid g ->
  in_conflict f g t ->
  exists r,
    r ∈ rs /\
    (flight1 r = acid f /\ flight2 r = acid g \/
     flight1 r = acid g /\ flight2 r = acid f) /\
    start_time_overlap r <= t.
Proof.
  intros Hnd Hrun Hf Hg Hfg Hc.
  destruct (detect_complete fs rs f g t Hnd Hrun Hf Hg Hfg Hc)
    as (r & Hr & Hkey & Ht).
  exists r. split_and!; [done | | done].
  unfold record_key, pair_key in Hkey.
  destruct (String.ltb (flight2 r) (flight1 r)),
           (String.ltb (acid g) (acid f)); injection Hkey as H1 H2; auto.
Qed.

Lemma documented_in_conflict :
  exists t, in_conflict (on_documented_route "F1") (on_documented_route "F2") t.
Proof.
  destruct (documented_trajectory "F1" (Some 35000)) as (traj & Hgen & Hne).
  assert (Hgen2 : generate_4d_trajectory (on_documented_route "F2")
                    (flight_path (on_documented_route "F2")) 60 = Ok traj).
  { rewrite <- Hgen. unfold on_documented_route. rewrite !documented_path.
    by apply generate_same_inputs. }
  destruct traj as [| [t pos] traj]; [done |].
  exists t, ((t, pos) :: traj), ((t, pos) :: traj). split_and!; [done | done | |].
  - apply close_at_positions. exists pos, pos.
    cbn [Dict.get]. rewrite decide_True by done. split_and!; [done | done |].
    rewrite central_angle_self. lra.
  - intros (a1 & a2 & [= <-] & [= <-] & Hle). unfold VERT_SEP_FT in Hle. lia.
Qed.

Lemma documented_pair_distinct :
  NoDup (acid <$> [on_documented_route "F1"; on_documented_route "F2"]).
Proof. apply (bool_decide_unpack _). vm_compute. exact I. Qed.

(** The statement holds of two flights along the documented route at the
    same time and altitude. *)
Lemma conflict_detected_witness :
  exists t r,
    in_conflict (on_documented_route "F1") (on_documented_route "F2") t /\
    detect_loss_of_separation
      [on_documented_route "F1"; on_documented_route "F2"] = Ok [r] /\
    start_time_overlap r <= t.
Proof.
  destruct documented_in_conflict as [t Hc].
  destruct documented_conflict as [r0 Hrun].
  destruct (conflict_detected _ [r0] (on_documented_route "F1")
              (on_documented_route "F2") t documented_pair_distinct Hrun)
    as (r & Hr & _ & Ht); [by left | right; by left | done | exact Hc |].
  apply list_elem_of_singleton in Hr as ->.
  exists t, r0. split; [exact Hc |]. split; [exact Hrun | exact Ht].
Defined.

(** A record is the first minute of a conflict: when the identifiers of
    the input are all distinct, a record names two flights of the input
    that are in conflict at the minute of the record and at no minute
    before it; its distance is the distance of their two positions at
    that minute, rounded to two places, and its vertical value the
    difference of their altitudes. *)
Theorem conflict_at_first_minute (fs : list Flight) (rs : list ConflictRecord)
    (r : ConflictRecord) :
  NoDup (acid <$> fs) ->
  detect_loss_of_separation fs = Ok rs -> r ∈ rs ->
  exists f g traj_f traj_g pos_f pos_g alt_f alt_g,
    f ∈ fs /\ g ∈ fs /\
    generate_4d_trajectory f (flight_path f) 60 = Ok traj_f /\
    generate_4d_trajectory g (flight_path g) 60 = Ok traj_g /\
    Dict.get (start_time_overlap r) traj_f = Some pos_f /\
    Dict.get (start_time_overlap r) traj_g = Some pos_g /\
    altitude f = Some alt_f /\ altitude g = Some alt_g /\
    r = record_at (start_time_overlap r) (acid f) (acid g)
                  pos_f pos_g alt_f alt_g /\
    in_conflict f g (start_time_overlap r) /\
    forall t, in_conflict f g t -> start_time_overlap r <= t.
Proof.
  intros Hnd Hrun Hr. pose proof (detect_once fs rs Hrun) as Hkeys.
  pose proof Hrun as Hrun0.
  destruct (detect_steps fs) as (ft & fo & Hreg & Hpre & Hdet).
  rewrite Hdet in Hrun. apply bind_Ok_inv in Hrun as (st & Hloop & [= <-]).
  destruct (minutes_advance fs ft fo _ ([], ∅) st Hreg
              (fun t Ht => proj1 (sorted_times_keys _ t) Ht) Hloop)
    as [_ (new & Hnew & HQ)].
  cbn [fst app] in Hnew. rewrite Hnew in Hr. rewrite Forall_forall in HQ.
  destruct (HQ r Hr) as (t & _ & Hrec).
  pose proof (recorded_minute _ _ _ _ Hrec) as Htime.
  destruct Hrec as (a1 & a2 & pos1 & pos2 & f1 & f2 & alt1 & alt2 &
                    Hin1 & Hin2 & Hne & Hf1 & Hf2 & Halt1 & Halt2 & Hvert &
                    Hd & Hrecord).
  pose proof Hreg as (Hndft & Htraj & _ & Hfo). cbn [fst snd] in *.
  destruct (Hfo a1 f1 Hf1) as [Hf1in Hacid1].
  destruct (Hfo a2 f2 Hf2) as [Hf2in Hacid2].
  apply elem_of_occupants in Hin1 as (traj1 & He1 & Hp1).
  apply elem_of_occupants in Hin2 as (traj2 & He2 & Hp2).
  apply (elem_get_Some _ _ _ Hndft) in He1, He2.
  destruct (Htraj a1 traj1 He1) as (_ & _ & f1' & Hf1' & Ha1' & Hgen1).
  destruct (Htraj a2 traj2 He2) as (_ & _ & f2' & Hf2' & Ha2' & Hgen2).
  assert (f1' = f1) as ->
    by (eapply NoDup_acid_inj; [done.. | congruence]).
  assert (f2' = f2) as ->
    by (eapply NoDup_acid_inj; [done.. | congruence]).
  assert (Hconflict : in_conflict f1 f2 t).
  { exists traj1, traj2. split_and!; [done | done | |].
    - apply close_at_positions. by exists pos1, pos2.
    - intros (b1 & b2 & H1 & H2 & Hle).
      rewrite Halt1 in H1. rewrite Halt2 in H2.
      injection H1 as <-. injection H2 as <-. lia. }
  exists f1, f2, traj1, traj2, pos1, pos2, alt1, alt2. rewrite Htime.
  split_and!; try done; [by rewrite Hacid1, Hacid2 |].
  intros t' Hc'.
  destruct (detect_complete fs _ f1 f2 t' Hnd Hrun0 Hf1in Hf2in)
    as (r' & Hr' & Hkey' & Ht'); [congruence | done |].
  assert (r' = r) as ->.
  { apply (NoDup_fmap_elem record_key new); [by rewrite <- Hnew | | done |].
    - by rewrite <- Hnew.
    - rewrite Hkey', Hrecord. unfold record_key, record_at. cbn.
      by rewrite Hacid1, Hacid2. }
  lia.
Qed.

(** The statement holds of the record of two flights along the
    documented route. *)
Lemma conflict_at_first_minute_witness :
  exists r,
    detect_loss_of_separation
      [on_documented_route "F1"; on_documented_route "F2"] = Ok [r] /\
    exists f g,
      in_conflict f g (start_time_overlap r) /\
      forall t, in_conflict f g t -> start_time_overlap r <= t.
Proof.
  destruct documented_conflict as [r Hrun].
  exists r. split; [exact Hrun |].
  destruct (conflict_at_first_minute _ [r] r documented_pair_distinct Hrun)
    as (f & g & _ & _ & _ & _ & _ & _ & _ & _ & _ & _ & _ & _ & _ & _ & _ & Hc & Hfirst);
    [by left |].
  exists f, g. split; [exact Hc | exact Hfirst].
Defined.

End Detection.
